(** * WokAPI: session tokens, OAuth state nonces, identity upsert, auth gate,
      product registry, status aggregator, bookings

    A shallow embedding of WokAPI: the session and identity layer
    (lib/jwt.ts, routes/auth.ts, middleware.ts, db/schema.sql), the product
    registry and status aggregator (index.ts) and the booking routes
    (routes/bookings.ts, lib/resend.ts), together with the platform
    services that code calls (base64, HMAC-SHA256, UTF-8 text coding, JSON,
    the form serializer, binary64 numbers, the TTL key-value store and the
    relational store), followed by the properties that were checked
    against it.

    Conventions.
    - A JavaScript string is represented by the list of the bytes of its
      UTF-8 encoding ([list ascii]); [TextEncoder.encode] is therefore the
      identity, and [TextDecoder.decode] is the sanitising decoder [Utf8.decode].
    - A [Uint8Array] is a [list ascii] as well.
    - The numbers of a JSON value are exact, an integer or a decimal
      fraction; their rounding to binary64 is not modelled. The arithmetic
      of the webhook on its time stamp is binary64 ([Float]).
    - A computation that can raise is a value of [result].
    - What a handler reads from the outside (the clock, random bytes, the
      answers of providers, of Stripe and of the bookings database) is an
      argument of its model. *)

From Stdlib Require Import ZArith NArith Ascii String List Lia Bool.
From Stdlib Require Import DecimalFacts DecimalPos DecimalN.
From stdpp Require Import base option list gmap strings.

Open Scope Z_scope.

Ltac Zify.zify_post_hook ::= Z.to_euclidean_division_equations.

(** ** Strings and bytes *)

Definition str (s : string) : list ascii := list_ascii_of_string s.
Coercion str : string >-> list.

Definition code (c : ascii) : Z := Z.of_N (N_of_ascii c).
Definition chr (z : Z) : ascii := ascii_of_N (Z.to_N z).

Definition ascii_eqb (a b : ascii) : bool := Ascii.eqb a b.

Fixpoint bytes_eqb (a b : list ascii) : bool :=
  match a, b with
  | [], [] => true
  | x :: a', y :: b' => ascii_eqb x y && bytes_eqb a' b'
  | _, _ => false
  end.

(** [s.replace(/c/g, r)]: every occurrence of the character [c] is replaced
    by the string [r]. *)
Fixpoint replace_all (c : ascii) (r : list ascii) (s : list ascii) : list ascii :=
  match s with
  | [] => []
  | x :: s' => (if ascii_eqb x c then r else [x]) ++ replace_all c r s'
  end.

(** [s.split(c)] for a one-character separator: the result is never empty. *)
Fixpoint split_on (c : ascii) (s : list ascii) : list (list ascii) :=
  match s with
  | [] => [[]]
  | x :: s' =>
      if ascii_eqb x c then [] :: split_on c s'
      else match split_on c s' with
           | [] => [[x]]
           | p :: ps => (x :: p) :: ps
           end
  end.

(** [s.startsWith(p)], returning the remainder. *)
Fixpoint strip_prefix (p s : list ascii) : option (list ascii) :=
  match p, s with
  | [], _ => Some s
  | x :: p', y :: s' => if ascii_eqb x y then strip_prefix p' s' else None
  | _ :: _, [] => None
  end.

(** ** Exceptions *)

Inductive exn : Type :=
| InvalidCharacterError   (* DOMException of atob *)
| DataError               (* DOMException of crypto.subtle.importKey *)
| SyntaxError             (* JSON.parse *)
| TypeError               (* property access on null *)
| ConstraintError         (* D1: UNIQUE / PRIMARY KEY constraint failed *)
| NetworkError.           (* fetch / Response.json of an upstream call *)

Inductive result (A : Type) : Type :=
| Return (a : A)
| Throw (e : exn).
Arguments Return {A} a.
Arguments Throw {A} e.

Definition rbind {A B} (m : result A) (k : A -> result B) : result B :=
  match m with
  | Return a => k a
  | Throw e => Throw e
  end.

Notation "x <- m ;; k" := (rbind m (fun x => k))
  (at level 100, m at next level, right associativity).

(** [try { m } catch { h }] *)
Definition try_catch {A} (m : result A) (h : result A) : result A :=
  match m with
  | Return a => Return a
  | Throw _ => h
  end.

Definition returns {A} (m : result A) : bool :=
  match m with Return _ => true | Throw _ => false end.

(** ** Base64: [btoa] and [atob] of the platform *)

Module Base64.

Definition alphabet : list ascii :=
  "ABCDEFGHIJKLMNOPQRSTUVWXYZabcdefghijklmnopqrstuvwxyz0123456789+/"%string.

Definition char_of (n : Z) : ascii := nth (Z.to_nat n) alphabet "A"%char.

Definition value_of (c : ascii) : option Z :=
  let n := code c in
  if (65 <=? n) && (n <=? 90) then Some (n - 65)
  else if (97 <=? n) && (n <=? 122) then Some (n - 71)
  else if (48 <=? n) && (n <=? 57) then Some (n + 4)
  else if n =? 43 then Some 62
  else if n =? 47 then Some 63
  else None.

(** Three bytes give four six-bit groups; one or two trailing bytes give
    two or three groups, the missing bits being zero. *)
Fixpoint sextets (bs : list ascii) : list Z :=
  match bs with
  | [] => []
  | [a] => [code a / 4; code a mod 4 * 16]
  | [a; b] => [code a / 4; code a mod 4 * 16 + code b / 16; code b mod 16 * 4]
  | a :: b :: c :: rest =>
      [code a / 4; code a mod 4 * 16 + code b / 16;
       code b mod 16 * 4 + code c / 64; code c mod 64] ++ sextets rest
  end.

Definition padding (n : nat) : list ascii :=
  match (n mod 3)%nat with
  | 1%nat => "=="%string
  | 2%nat => "="%string
  | _ => []
  end.

(** [btoa(String.fromCharCode(...bs))] *)
Definition btoa (bs : list ascii) : list ascii :=
  map char_of (sextets bs) ++ padding (length bs).

(** Four six-bit groups give three bytes; a tail of two or three groups
    gives one or two bytes, the left-over bits being dropped. *)
Fixpoint unsextets (ss : list Z) : list ascii :=
  match ss with
  | a :: b :: c :: d :: rest =>
      [chr (a * 4 + b / 16); chr (b mod 16 * 16 + c / 4); chr (c mod 4 * 64 + d)]
        ++ unsextets rest
  | [a; b; c] => [chr (a * 4 + b / 16); chr (b mod 16 * 16 + c / 4)]
  | [a; b] => [chr (a * 4 + b / 16)]
  | _ => []
  end.

Definition is_ascii_whitespace (c : ascii) : bool :=
  let n := code c in
  (n =? 9) || (n =? 10) || (n =? 12) || (n =? 13) || (n =? 32).

(** Removes one or two trailing [=]. *)
Definition strip_padding (s : list ascii) : list ascii :=
  match rev s with
  | "="%char :: "="%char :: r => rev r
  | "="%char :: r => rev r
  | _ => s
  end.

Fixpoint values_of (s : list ascii) : option (list Z) :=
  match s with
  | [] => Some []
  | c :: s' =>
      match value_of c, values_of s' with
      | Some v, Some vs => Some (v :: vs)
      | _, _ => None
      end
  end.

(** [Uint8Array.from(atob(s), c => c.charCodeAt(0))]: the forgiving-base64
    decoding of the platform. It raises when, white space removed and
    padding stripped, the length is 1 modulo 4 or a character is outside
    the alphabet. *)
Definition atob (s : list ascii) : result (list ascii) :=
  let d := List.filter (fun c => negb (is_ascii_whitespace c)) s in
  let d := if (length d mod 4 =? 0)%nat then strip_padding d else d in
  if (length d mod 4 =? 1)%nat then Throw InvalidCharacterError
  else match values_of d with
       | Some vs => Return (unsextets vs)
       | None => Throw InvalidCharacterError
       end.

End Base64.

(** ** SHA-256 and HMAC: [crypto.subtle] of the platform *)

Module Sha256.

Definition w32 (x : Z) : Z := x mod 4294967296.

Definition rotr (n x : Z) : Z :=
  Z.lor (Z.shiftr x n) (w32 (Z.shiftl x (32 - n))).

Definition Ch (x y z : Z) : Z :=
  Z.lxor (Z.land x y) (Z.land (Z.lxor x 4294967295) z).
Definition Maj (x y z : Z) : Z :=
  Z.lxor (Z.lxor (Z.land x y) (Z.land x z)) (Z.land y z).
Definition Sigma0 (x : Z) : Z := Z.lxor (Z.lxor (rotr 2 x) (rotr 13 x)) (rotr 22 x).
Definition Sigma1 (x : Z) : Z := Z.lxor (Z.lxor (rotr 6 x) (rotr 11 x)) (rotr 25 x).
Definition sigma0 (x : Z) : Z := Z.lxor (Z.lxor (rotr 7 x) (rotr 18 x)) (Z.shiftr x 3).
Definition sigma1 (x : Z) : Z := Z.lxor (Z.lxor (rotr 17 x) (rotr 19 x)) (Z.shiftr x 10).

Definition K : list Z :=
  [1116352408; 1899447441; 3049323471; 3921009573; 961987163; 1508970993;
   2453635748; 2870763221; 3624381080; 310598401; 607225278; 1426881987;
   1925078388; 2162078206; 2614888103; 3248222580; 3835390401; 4022224774;
   264347078; 604807628; 770255983; 1249150122; 1555081692; 1996064986;
   2554220882; 2821834349; 2952996808; 3210313671; 3336571891; 3584528711;
   113926993; 338241895; 666307205; 773529912; 1294757372; 1396182291;
   1695183700; 1986661051; 2177026350; 2456956037; 2730485921; 2820302411;
   3259730800; 3345764771; 3516065817; 3600352804; 4094571909; 275423344;
   430227734; 506948616; 659060556; 883997877; 958139571; 1322822218;
   1537002063; 1747873779; 1955562222; 2024104815; 2227730452; 2361852424;
   2428436474; 2756734187; 3204031479; 3329325298].

Definition H0 : list Z :=
  [1779033703; 3144134277; 1013904242; 2773480762;
   1359893119; 2600822924; 528734635; 1541459225].

(** Message padding: a [1] bit, zeros, and the bit length on 64 bits, up
    to a multiple of 64 bytes. *)
Definition be_bytes (n : nat) (x : Z) : list ascii :=
  map (fun i => chr (Z.shiftr x (8 * Z.of_nat i) mod 256)) (rev (seq 0 n)).

Definition pad (msg : list ascii) : list ascii :=
  let l := Z.of_nat (length msg) in
  let k := (55 - l) mod 64 in
  msg ++ [chr 128] ++ repeat (chr 0) (Z.to_nat k) ++ be_bytes 8 (8 * l).

Fixpoint words (bs : list ascii) : list Z :=
  match bs with
  | a :: b :: c :: d :: rest =>
      (((code a * 256 + code b) * 256 + code c) * 256 + code d) :: words rest
  | _ => []
  end.

(** The message schedule: [n] more words after the [w] already there. *)
Fixpoint schedule (n : nat) (w : list Z) : list Z :=
  match n with
  | O => w
  | S n' =>
      let t := length w in
      let at_ (k : nat) := nth (t - k) w 0 in
      schedule n' (w ++ [w32 (sigma1 (at_ 2%nat) + at_ 7%nat + sigma0 (at_ 15%nat) + at_ 16%nat)])
  end.

Definition round (st : list Z) (kw : Z * Z) : list Z :=
  match st with
  | [a; b; c; d; e; f; g; h] =>
      let t1 := h + Sigma1 e + Ch e f g + fst kw + snd kw in
      let t2 := Sigma0 a + Maj a b c in
      [w32 (t1 + t2); a; b; c; w32 (d + t1); e; f; g]
  | _ => st
  end.

Definition compress (h : list Z) (block : list Z) : list Z :=
  let w := schedule 48 block in
  let st := fold_left round (combine K w) h in
  map (fun p => w32 (fst p + snd p)) (combine h st).

Fixpoint blocks (fuel : nat) (ws : list Z) (h : list Z) : list Z :=
  match fuel with
  | O => h
  | S fuel' =>
      match ws with
      | [] => h
      | _ => blocks fuel' (skipn 16 ws) (compress h (firstn 16 ws))
      end
  end.

Definition sha256 (msg : list ascii) : list ascii :=
  let ws := words (pad msg) in
  concat (map (be_bytes 4) (blocks (length ws) ws H0)).

Definition xor_byte (x : Z) (c : ascii) : ascii := chr (Z.lxor x (code c)).

(** HMAC (RFC 2104) with SHA-256: a key longer than the 64-byte block is
    hashed first, a shorter one is extended with zero bytes. *)
Definition hmac (key msg : list ascii) : list ascii :=
  let k := if (64 <? length key)%nat then sha256 key else key in
  let k0 := k ++ repeat (chr 0) (64 - length k) in
  sha256 (map (xor_byte 92) k0 ++ sha256 (map (xor_byte 54) k0 ++ msg)).

End Sha256.

(** ** UTF-8: [TextEncoder] and [TextDecoder] of the platform *)

Module Utf8.

Definition replacement : list ascii := [chr 239; chr 191; chr 189]. (* U+FFFD *)
Definition bom : list ascii := [chr 239; chr 187; chr 191].         (* U+FEFF *)

(** What a byte starts: a one-byte character, a sequence with [need] more
    bytes whose first continuation lies in [lo..hi], or nothing. *)
Inductive lead_class : Type :=
| Single
| Lead (need : nat) (lo hi : Z)
| Invalid.

Definition lead (b : ascii) : lead_class :=
  let n := code b in
  if n <=? 127 then Single
  else if (194 <=? n) && (n <=? 223) then Lead 1 128 191
  else if (224 <=? n) && (n <=? 239) then
    Lead 2 (if n =? 224 then 160 else 128) (if n =? 237 then 159 else 191)
  else if (240 <=? n) && (n <=? 244) then
    Lead 3 (if n =? 240 then 144 else 128) (if n =? 244 then 143 else 191)
  else Invalid.

(** The decoder of the Encoding standard, in replacement mode: [pend]
    holds the bytes of the sequence being read, [need] the number of
    bytes still expected, [lo..hi] the range of the next one. A byte out
    of range ends the sequence with U+FFFD and is read again as a first
    byte. The output is again UTF-8. *)
Fixpoint dec (bs pend : list ascii) (need : nat) (lo hi : Z) : list ascii :=
  match bs with
  | [] => match need with O => [] | S _ => replacement end
  | b :: bs' =>
      let first :=
        match lead b with
        | Single => b :: dec bs' [] 0 128 191
        | Lead n l h => dec bs' [b] n l h
        | Invalid => replacement ++ dec bs' [] 0 128 191
        end in
      match need with
      | O => first
      | S n =>
          if (lo <=? code b) && (code b <=? hi) then
            match n with
            | O => pend ++ [b] ++ dec bs' [] 0 128 191
            | S _ => dec bs' (pend ++ [b]) n 128 191
            end
          else replacement ++ first
      end
  end.

(** [new TextDecoder().decode(bs)]: a leading byte order mark is dropped. *)
Definition decode (bs : list ascii) : list ascii :=
  match strip_prefix bom bs with
  | Some bs' => dec bs' [] 0 128 191
  | None => dec bs [] 0 128 191
  end.

(** [new TextEncoder().encode(s)] *)
Definition encode (s : list ascii) : list ascii := s.

(** The UTF-8 form of a code point (three bytes for a lone surrogate). *)
Definition of_code_point (cp : Z) : list ascii :=
  if cp <? 128 then [chr cp]
  else if cp <? 2048 then [chr (192 + cp / 64); chr (128 + cp mod 64)]
  else if cp <? 65536 then
    [chr (224 + cp / 4096); chr (128 + cp / 64 mod 64); chr (128 + cp mod 64)]
  else
    [chr (240 + cp / 262144); chr (128 + cp / 4096 mod 64);
     chr (128 + cp / 64 mod 64); chr (128 + cp mod 64)].

Definition continuation (b : ascii) : Prop := 128 <= code b <= 191.

(** Well-formed UTF-8 (Unicode, table 3-7). *)
Inductive well_formed : list ascii -> Prop :=
| wf_nil : well_formed []
| wf_1 b s : code b <= 127 -> well_formed s -> well_formed (b :: s)
| wf_n b n lo hi c cs s :
    lead b = Lead n lo hi ->
    lo <= code c <= hi ->
    Forall continuation cs ->
    length (c :: cs) = n ->
    well_formed s ->
    well_formed (b :: c :: cs ++ s).

End Utf8.

(** ** JSON: values, [JSON.stringify] and [JSON.parse] of the platform *)

(** A number is an integer [JNum n] or a decimal [JDec m k] = m / 10^k that
    is not an integer; rounding to binary64 is not modelled. An object is the
    list of its properties in creation order. *)
#[local] Unset Elimination Schemes.
Inductive json : Type :=
| JNull
| JBool (b : bool)
| JNum (n : Z)
| JDec (m : Z) (k : positive)
| JStr (s : list ascii)
| JArr (l : list json)
| JObj (l : list (list ascii * json)).
#[local] Set Elimination Schemes.

(** [o[k] = v] on the property list: an existing property keeps its place. *)
Fixpoint obj_set (k : list ascii) (v : json) (l : list (list ascii * json))
  : list (list ascii * json) :=
  match l with
  | [] => [(k, v)]
  | (k', v') :: l' =>
      if bytes_eqb k' k then (k', v) :: l' else (k', v') :: obj_set k v l'
  end.

Fixpoint obj_get (k : list ascii) (l : list (list ascii * json)) : option json :=
  match l with
  | [] => None
  | (k', v') :: l' => if bytes_eqb k' k then Some v' else obj_get k l'
  end.

(** [v.k], as far as its being a number or a string goes: [None] stands for
    [undefined] and for what only a prototype defines, which is neither
    (the code reads [exp] and [sub]); reading a property of [null] raises. *)
Definition get_prop (v : json) (k : list ascii) : result (option json) :=
  match v with
  | JNull => Throw TypeError
  | JObj l => Return (obj_get k l)
  | _ => Return None
  end.

(** [typeof x === 'number'] for [x = v.k]. *)
Definition is_number (x : option json) : bool :=
  match x with Some (JNum _) | Some (JDec _ _) => true | _ => false end.

(** [x < t] for a number [x] and an integer [t]. *)
Definition num_lt (x : option json) (t : Z) : bool :=
  match x with
  | Some (JNum n) => n <? t
  | Some (JDec m k) => m <? t * 10 ^ Zpos k
  | _ => false
  end.

(** [!v] *)
Definition falsy (v : json) : bool :=
  match v with
  | JNull | JBool false | JNum 0 | JStr [] => true
  | _ => false
  end.

Module Json.

Definition digit_char (d : Z) : ascii := chr (48 + d).
Definition is_digit (c : ascii) : bool := (48 <=? code c) && (code c <=? 57).

Fixpoint uint_chars (d : Decimal.uint) : list ascii :=
  match d with
  | Decimal.Nil => []
  | Decimal.D0 d => digit_char 0 :: uint_chars d
  | Decimal.D1 d => digit_char 1 :: uint_chars d
  | Decimal.D2 d => digit_char 2 :: uint_chars d
  | Decimal.D3 d => digit_char 3 :: uint_chars d
  | Decimal.D4 d => digit_char 4 :: uint_chars d
  | Decimal.D5 d => digit_char 5 :: uint_chars d
  | Decimal.D6 d => digit_char 6 :: uint_chars d
  | Decimal.D7 d => digit_char 7 :: uint_chars d
  | Decimal.D8 d => digit_char 8 :: uint_chars d
  | Decimal.D9 d => digit_char 9 :: uint_chars d
  end.

Definition with_digit (c : ascii) (d : Decimal.uint) : Decimal.uint :=
  match code c - 48 with
  | 0 => Decimal.D0 d | 1 => Decimal.D1 d | 2 => Decimal.D2 d
  | 3 => Decimal.D3 d | 4 => Decimal.D4 d | 5 => Decimal.D5 d
  | 6 => Decimal.D6 d | 7 => Decimal.D7 d | 8 => Decimal.D8 d
  | _ => Decimal.D9 d
  end.

Fixpoint chars_uint (s : list ascii) : Decimal.uint :=
  match s with
  | [] => Decimal.Nil
  | c :: s' => with_digit c (chars_uint s')
  end.

(** Decimal digits of a natural number, without leading zeros. *)
Definition digits (n : Z) : list ascii := uint_chars (N.to_uint (Z.to_N n)).
Definition undigits (s : list ascii) : Z := Z.of_N (N.of_uint (chars_uint s)).

(** [Number::toString] of a decimal that is not an integer: the digits
    [ds] of [m] with the decimal point after the first [n = |ds| - k]. *)
Definition print_dec (m : Z) (k : positive) : list ascii :=
  let ds := digits (Z.abs m) in
  let n := Z.of_nat (length ds) - Zpos k in
  let body :=
    if (0 <? n) && (n <=? 21) then
      firstn (Z.to_nat n) ds ++ "."%string ++ skipn (Z.to_nat n) ds
    else if (-6 <? n) && (n <=? 0) then
      "0."%string ++ repeat (digit_char 0) (Z.to_nat (- n)) ++ ds
    else
      firstn 1 ds
        ++ match skipn 1 ds with [] => [] | r => "."%string ++ r end
        ++ "e"%string ++ (if n - 1 <? 0 then "-"%string else "+"%string)
        ++ digits (Z.abs (n - 1)) in
  (if m <? 0 then "-"%string else []) ++ body.

Definition print_int (n : Z) : list ascii :=
  (if n <? 0 then "-"%string else []) ++ digits (Z.abs n).

Definition hex_char (d : Z) : ascii :=
  if d <? 10 then chr (48 + d) else chr (87 + d).

(** [QuoteJSONString], one character. *)
Definition escape_char (c : ascii) : list ascii :=
  let n := code c in
  if n =? 8 then "\b"%string
  else if n =? 9 then "\t"%string
  else if n =? 10 then "\n"%string
  else if n =? 12 then "\f"%string
  else if n =? 13 then "\r"%string
  else if n =? 34 then ["\"%char; chr 34]
  else if n =? 92 then "\\"%string
  else if n <? 32 then "\u00"%string ++ [hex_char (n / 16); hex_char (n mod 16)]
  else [c].

Definition quote (s : list ascii) : list ascii :=
  [chr 34] ++ concat (map escape_char s) ++ [chr 34].

(** [JSON.stringify(v)] *)
Fixpoint stringify (v : json) : list ascii :=
  match v with
  | JNull => "null"%string
  | JBool true => "true"%string
  | JBool false => "false"%string
  | JNum n => print_int n
  | JDec m k => print_dec m k
  | JStr s => quote s
  | JArr l =>
      "["%string
        ++ (fix elems (l : list json) : list ascii :=
              match l with
              | [] => []
              | [x] => stringify x
              | x :: l' => stringify x ++ ","%string ++ elems l'
              end) l
        ++ "]"%string
  | JObj l =>
      "{"%string
        ++ (fix members (l : list (list ascii * json)) : list ascii :=
              match l with
              | [] => []
              | [(k, x)] => quote k ++ ":"%string ++ stringify x
              | (k, x) :: l' =>
                  quote k ++ ":"%string ++ stringify x ++ ","%string ++ members l'
              end) l
        ++ "}"%string
  end.

(** *** Reading *)

Definition is_ws (c : ascii) : bool :=
  let n := code c in (n =? 9) || (n =? 10) || (n =? 13) || (n =? 32).

Fixpoint skip_ws (s : list ascii) : list ascii :=
  match s with
  | c :: s' => if is_ws c then skip_ws s' else s
  | [] => []
  end.

Fixpoint span_digits (s : list ascii) : list ascii * list ascii :=
  match s with
  | c :: s' =>
      if is_digit c then let '(d, r) := span_digits s' in (c :: d, r) else ([], s)
  | [] => ([], [])
  end.

(** Drops the zeros at the end of [m], at most [k] of them: the integer
    [m] when [k] reaches zero, the decimal [m / 10^k] otherwise. *)
Fixpoint strip_zeros (fuel : nat) (m k : Z) : json :=
  match fuel with
  | O => JNum 0
  | S fuel' =>
      if k <=? 0 then JNum m
      else if m mod 10 =? 0 then strip_zeros fuel' (m / 10) (k - 1)
      else JDec m (Z.to_pos k)
  end.

(** The number of mantissa digits [ds], sign [neg] and decimal exponent [e]. *)
Definition number_value (neg : bool) (ds : list ascii) (e : Z) : json :=
  let m := undigits ds in
  let m := if neg then - m else m in
  if m =? 0 then JNum 0
  else if 0 <=? e then JNum (m * 10 ^ e)
  else strip_zeros (S (length ds)) m (- e).

(** A number literal: an optional minus sign, an integer part without
    leading zero, an optional fraction and an optional exponent. *)
Definition parse_number (s : list ascii) : option (json * list ascii) :=
  let '(neg, s1) :=
    match s with
    | "-"%char :: r => (true, r)
    | _ => (false, s)
    end in
  let '(ip, s2) := span_digits s1 in
  match ip with
  | [] => None
  | d :: ds =>
      if ascii_eqb d "0" && negb (Nat.eqb (length ds) 0) then None
      else
        let frac :=
          match s2 with
          | "."%char :: r =>
              let '(fp, s3) := span_digits r in
              match fp with [] => None | _ => Some (fp, s3) end
          | _ => Some ([], s2)
          end in
        match frac with
        | None => None
        | Some (fp, s3) =>
            let expo :=
              match s3 with
              | c :: r =>
                  if ascii_eqb c "e" || ascii_eqb c "E" then
                    let '(eneg, r1) :=
                      match r with
                      | "-"%char :: r' => (true, r')
                      | "+"%char :: r' => (false, r')
                      | _ => (false, r)
                      end in
                    let '(ep, s4) := span_digits r1 in
                    match ep with
                    | [] => None
                    | _ => Some (if eneg then - undigits ep else undigits ep, s4)
                    end
                  else Some (0, s3)
              | [] => Some (0, s3)
              end in
            match expo with
            | None => None
            | Some (e, s4) =>
                Some (number_value neg (ip ++ fp) (e - Z.of_nat (length fp)), s4)
            end
        end
  end.

(** The characters of a string literal: written as they are, or as a
    UTF-16 code unit by an escape. *)
Inductive item : Type :=
| Lit (c : ascii)
| Unit16 (u : Z).

Inductive sstate : Type :=
| SNormal
| SEsc
| SUni (k : nat) (acc : Z).

Definition simple_escape (c : ascii) : option Z :=
  let n := code c in
  if (n =? 34) || (n =? 92) || (n =? 47) then Some n
  else if n =? 98 then Some 8
  else if n =? 102 then Some 12
  else if n =? 110 then Some 10
  else if n =? 114 then Some 13
  else if n =? 116 then Some 9
  else None.

Definition hex_val (c : ascii) : option Z :=
  let n := code c in
  if (48 <=? n) && (n <=? 57) then Some (n - 48)
  else if (97 <=? n) && (n <=? 102) then Some (n - 87)
  else if (65 <=? n) && (n <=? 70) then Some (n - 55)
  else None.

Definition cons_item (i : item) (r : option (list item * list ascii))
  : option (list item * list ascii) :=
  match r with
  | Some (l, rest) => Some (i :: l, rest)
  | None => None
  end.

(** Reads a string literal after its opening quote. *)
Fixpoint lex_string (st : sstate) (s : list ascii) : option (list item * list ascii) :=
  match s with
  | [] => None
  | c :: s' =>
      match st with
      | SNormal =>
          if code c =? 34 then Some ([], s')
          else if code c =? 92 then lex_string SEsc s'
          else if code c <? 32 then None
          else cons_item (Lit c) (lex_string SNormal s')
      | SEsc =>
          match simple_escape c with
          | Some u => cons_item (Unit16 u) (lex_string SNormal s')
          | None => if code c =? 117 then lex_string (SUni 4 0) s' else None
          end
      | SUni k acc =>
          match hex_val c with
          | Some h =>
              match k with
              | S (S k') => lex_string (SUni (S k') (acc * 16 + h)) s'
              | _ => cons_item (Unit16 (acc * 16 + h)) (lex_string SNormal s')
              end
          | None => None
          end
      end
  end.

Definition is_high (u : Z) : bool := (55296 <=? u) && (u <=? 56319).
Definition is_low (u : Z) : bool := (56320 <=? u) && (u <=? 57343).

(** The string of the items: two code units that form a surrogate pair
    are one code point. *)
Fixpoint items_bytes (l : list item) : list ascii :=
  match l with
  | [] => []
  | Lit c :: r => c :: items_bytes r
  | Unit16 u :: r =>
      match r with
      | Unit16 v :: r' =>
          if is_high u && is_low v then
            Utf8.of_code_point (65536 + (u - 55296) * 1024 + (v - 56320))
              ++ items_bytes r'
          else Utf8.of_code_point u ++ items_bytes r
      | _ => Utf8.of_code_point u ++ items_bytes r
      end
  end.

Definition parse_string (s : list ascii) : option (list ascii * list ascii) :=
  match lex_string SNormal s with
  | Some (l, rest) => Some (items_bytes l, rest)
  | None => None
  end.

Definition expect (lit : string) (v : json) (s : list ascii)
  : option (json * list ascii) :=
  match strip_prefix lit s with
  | Some rest => Some (v, rest)
  | None => None
  end.

(** A value, the elements of an array after the first bracket, the
    members of an object after the first brace. Every call costs one unit
    of [fuel]; [parse] gives enough of it. *)
Fixpoint parse_value (fuel : nat) (s : list ascii) : option (json * list ascii) :=
  match fuel with
  | O => None
  | S fuel' =>
      match skip_ws s with
      | [] => None
      | c :: r =>
          if code c =? 110 then expect "null" JNull (c :: r)
          else if code c =? 116 then expect "true" (JBool true) (c :: r)
          else if code c =? 102 then expect "false" (JBool false) (c :: r)
          else if code c =? 34 then
            match parse_string r with
            | Some (x, rest) => Some (JStr x, rest)
            | None => None
            end
          else if code c =? 91 then
            match skip_ws r with
            | "]"%char :: rest => Some (JArr [], rest)
            | _ =>
                match parse_elems fuel' r with
                | Some (vs, rest) => Some (JArr vs, rest)
                | None => None
                end
            end
          else if code c =? 123 then
            match skip_ws r with
            | "}"%char :: rest => Some (JObj [], rest)
            | _ =>
                match parse_members fuel' r with
                | Some (kvs, rest) =>
                    Some (JObj (fold_left (fun o kv => obj_set (fst kv) (snd kv) o) kvs []), rest)
                | None => None
                end
            end
          else if (code c =? 45) || is_digit c then parse_number (c :: r)
          else None
      end
  end
with parse_elems (fuel : nat) (s : list ascii) : option (list json * list ascii) :=
  match fuel with
  | O => None
  | S fuel' =>
      match parse_value fuel' s with
      | Some (v, r) =>
          match skip_ws r with
          | ","%char :: r' =>
              match parse_elems fuel' r' with
              | Some (vs, rest) => Some (v :: vs, rest)
              | None => None
              end
          | "]"%char :: rest => Some ([v], rest)
          | _ => None
          end
      | None => None
      end
  end
with parse_members (fuel : nat) (s : list ascii)
  : option (list (list ascii * json) * list ascii) :=
  match fuel with
  | O => None
  | S fuel' =>
      match skip_ws s with
      | c :: r =>
          if code c =? 34 then
            match parse_string r with
            | Some (k, r1) =>
                match skip_ws r1 with
                | ":"%char :: r2 =>
                    match parse_value fuel' r2 with
                    | Some (v, r3) =>
                        match skip_ws r3 with
                        | ","%char :: r4 =>
                            match parse_members fuel' r4 with
                            | Some (kvs, rest) => Some ((k, v) :: kvs, rest)
                            | None => None
                            end
                        | "}"%char :: rest => Some ([(k, v)], rest)
                        | _ => None
                        end
                    | None => None
                    end
                | _ => None
                end
            | None => None
            end
          else None
      | [] => None
      end
  end.

(** [JSON.parse(s)]: one value, then nothing but white space. *)
Definition parse (s : list ascii) : result json :=
  match parse_value (S (length s)) s with
  | Some (v, rest) =>
      match skip_ws rest with
      | [] => Return v
      | _ => Throw SyntaxError
      end
  | None => Throw SyntaxError
  end.

End Json.

Definition JSON_stringify (v : json) : list ascii := Json.stringify v.
Definition JSON_parse (s : list ascii) : result json := Json.parse s.

(** * lib/jwt.ts: the signed token codec *)

Definition b64url (buf : list ascii) : list ascii :=
  replace_all "=" [] (replace_all "/" "_"%string (replace_all "+" "-"%string (Base64.btoa buf))).

Definition b64urlDecode (s : list ascii) : result (list ascii) :=
  Base64.atob (replace_all "_" "/"%string (replace_all "-" "+"%string s)).

(** [crypto.subtle.importKey('raw', encode(secret), HMAC/SHA-256, ...)]: the
    key is the bytes of the secret; importing an empty key raises a
    [DataError] (Web Cryptography API, HMAC, import key: "if length is zero
    then throw a DataError"). *)
Definition importKey (secret : list ascii) : result (list ascii) :=
  match Utf8.encode secret with
  | [] => Throw DataError
  | k => Return k
  end.

(** [crypto.subtle.sign('HMAC', key, data)] and
    [crypto.subtle.verify('HMAC', key, signature, data)] *)
Definition subtle_sign (key data : list ascii) : list ascii := Sha256.hmac key data.
Definition subtle_verify (key signature data : list ascii) : bool :=
  bytes_eqb (Sha256.hmac key data) signature.

Definition jwt_header : json :=
  JObj [("alg"%string : list ascii, JStr "HS256"%string);
        ("typ"%string : list ascii, JStr "JWT"%string)].

Definition signJWT (payload : json) (secret : list ascii) : result (list ascii) :=
  let header := b64url (Utf8.encode (JSON_stringify jwt_header)) in
  let body := b64url (Utf8.encode (JSON_stringify payload)) in
  key <- importKey secret ;;
  let sig := subtle_sign key (Utf8.encode (header ++ "."%string ++ body)) in
  Return (header ++ "."%string ++ body ++ "."%string ++ b64url sig).

(** [clock] is [Date.now()], in milliseconds; the failure result is [null]. *)
Definition verifyJWT (token secret : list ascii) (clock : Z) : result json :=
  match split_on "." token with
  | [header; body; sig] =>
      key <- importKey secret ;;
      signature <- b64urlDecode sig ;;
      let valid := subtle_verify key signature (Utf8.encode (header ++ "."%string ++ body)) in
      if negb valid then Return JNull
      else
        try_catch
          (bs <- b64urlDecode body ;;
           payload <- JSON_parse (Utf8.decode bs) ;;
           exp <- get_prop payload "exp"%string ;;
           if is_number exp && num_lt exp (clock / 1000) then Return JNull
           else Return payload)
          (Return JNull)
  | _ => Return JNull
  end.

(** * The TTL key-value store ([KVNamespace]) *)

Record kv_entry : Type := { kv_value : list ascii; kv_expiration : Z }.

(** [kv.put(key, value, { expirationTtl: ttl })] at time [clock] (ms). *)
Definition kv_put (kv : gmap (list ascii) kv_entry) (key value : list ascii)
    (ttl clock : Z) : gmap (list ascii) kv_entry :=
  <[key := {| kv_value := value; kv_expiration := clock + ttl * 1000 |}]> kv.

(** [kv.get(key)]: [None] is [null], also for an expired key. *)
Definition kv_get (kv : gmap (list ascii) kv_entry) (key : list ascii) (clock : Z)
  : option (list ascii) :=
  match kv !! key with
  | Some e => if clock <? kv_expiration e then Some (kv_value e) else None
  | None => None
  end.

Definition kv_delete (kv : gmap (list ascii) kv_entry) (key : list ascii)
  : gmap (list ascii) kv_entry :=
  delete key kv.

(** * routes/auth.ts *)

Definition POST_LOGIN_REDIRECT : list ascii := "https://wokspec.org/account"%string.
Definition COOKIE_NAME : list ascii := "wokspec_session"%string.
Definition SESSION_TTL : Z := 60 * 60 * 24 * 7.

Definition sessionCookie (token : list ascii) : list ascii :=
  COOKIE_NAME ++ "="%string ++ token
    ++ "; HttpOnly; Secure; SameSite=Lax; Path=/; Max-Age="%string
    ++ Json.print_int SESSION_TTL.

Definition clearCookie : list ascii :=
  COOKIE_NAME ++ "=; HttpOnly; Secure; SameSite=Lax; Path=/; Max-Age=0"%string.

(** [b.toString(16).padStart(2, '0')] *)
Definition hex2 (b : ascii) : list ascii :=
  [Json.hex_char (code b / 16); Json.hex_char (code b mod 16)].

Definition state_key (state : list ascii) : list ascii :=
  "oauth_state:"%string ++ state.

(** [rnd] is the value of [crypto.getRandomValues(new Uint8Array(16))]. *)
Definition generateState (kv : gmap (list ascii) kv_entry) (rnd : list ascii) (clock : Z)
  : list ascii * gmap (list ascii) kv_entry :=
  let state := concat (map hex2 rnd) in
  (state, kv_put kv (state_key state) "1"%string 600 clock).

Definition consumeState (kv : gmap (list ascii) kv_entry) (state : list ascii) (clock : Z)
  : bool * gmap (list ascii) kv_entry :=
  match kv_get kv (state_key state) clock with
  | None | Some [] => (false, kv)
  | Some _ => (true, kv_delete kv (state_key state))
  end.

Definition createSession (JWT_SECRET : list ascii) (userId : list ascii) (clock : Z)
  : result (list ascii) :=
  let exp := clock / 1000 + SESSION_TTL in
  signJWT (JObj [("sub"%string : list ascii, JStr userId);
                 ("exp"%string : list ascii, JNum exp)]) JWT_SECRET.

(** * db/schema.sql: the relational store ([D1Database]) *)

Inductive provider : Type := github | google | discord.

Definition provider_eqb (p q : provider) : bool :=
  match p, q with
  | github, github | google, google | discord, discord => true
  | _, _ => false
  end.

Record user_row : Type := {
  u_id : list ascii;
  u_email : option (list ascii);
  u_username : option (list ascii);
  u_display_name : option (list ascii);
  u_avatar_url : option (list ascii);
  u_created_at : Z;
  u_updated_at : Z
}.

Record account_row : Type := {
  a_id : list ascii;
  a_user_id : list ascii;
  a_provider : provider;
  a_provider_user_id : list ascii;
  a_access_token : option (list ascii);
  a_refresh_token : option (list ascii);
  a_created_at : Z
}.

Record D1Database : Type := {
  users : list user_row;
  oauth_accounts : list account_row
}.

Definition opt_eqb (a b : option (list ascii)) : bool :=
  match a, b with
  | Some x, Some y => bytes_eqb x y
  | None, None => true
  | _, _ => false
  end.

(** [COALESCE(new, old)] *)
Definition coalesce (new old : option (list ascii)) : option (list ascii) :=
  match new with
  | Some x => Some x
  | None => old
  end.

Definition account_matches (p : provider) (pid : list ascii) (a : account_row) : bool :=
  provider_eqb (a_provider a) p && bytes_eqb (a_provider_user_id a) pid.

(** [SELECT user_id FROM oauth_accounts WHERE provider = ? AND
    provider_user_id = ?], first row. *)
Definition select_account (db : D1Database) (p : provider) (pid : list ascii)
  : option (list ascii) :=
  match List.filter (account_matches p pid) (oauth_accounts db) with
  | a :: _ => Some (a_user_id a)
  | [] => None
  end.

(** [UPDATE oauth_accounts SET access_token = ? WHERE provider = ? AND
    provider_user_id = ?] *)
Definition update_access_token (db : D1Database) (token : list ascii) (p : provider)
    (pid : list ascii) : D1Database :=
  {| users := users db;
     oauth_accounts :=
       map (fun a =>
              if account_matches p pid a then
                {| a_id := a_id a; a_user_id := a_user_id a; a_provider := a_provider a;
                   a_provider_user_id := a_provider_user_id a;
                   a_access_token := Some token;
                   a_refresh_token := a_refresh_token a; a_created_at := a_created_at a |}
              else a) (oauth_accounts db) |}.

(** Another row than [uid]'s holds the e-mail address [e]. *)
Definition email_taken (rows : list user_row) (uid : list ascii) (e : option (list ascii))
  : bool :=
  match e with
  | Some x =>
      existsb (fun r => negb (bytes_eqb (u_id r) uid) && opt_eqb (u_email r) (Some x)) rows
  | None => false
  end.

(** [UPDATE users SET email = COALESCE(?, email), display_name =
    COALESCE(?, display_name), avatar_url = COALESCE(?, avatar_url),
    updated_at = datetime('now') WHERE id = ?]. The statement fails, and
    changes nothing, when it would give the row an e-mail address that
    another row holds ([email TEXT UNIQUE]). *)
Definition update_user_profile (db : D1Database)
    (email display_name avatar_url : option (list ascii)) (uid : list ascii) (clock : Z)
  : result D1Database :=
  if existsb (fun r => bytes_eqb (u_id r) uid) (users db)
     && email_taken (users db) uid email
  then Throw ConstraintError
  else
    Return
      {| users :=
           map (fun r =>
                  if bytes_eqb (u_id r) uid then
                    {| u_id := u_id r;
                       u_email := coalesce email (u_email r);
                       u_username := u_username r;
                       u_display_name := coalesce display_name (u_display_name r);
                       u_avatar_url := coalesce avatar_url (u_avatar_url r);
                       u_created_at := u_created_at r;
                       u_updated_at := clock |}
                  else r) (users db);
         oauth_accounts := oauth_accounts db |}.

(** [INSERT INTO users (id, email, username, display_name, avatar_url)
    VALUES (?, ?, ?, ?, ?)]: [id] is the primary key, [email] is unique. *)
Definition insert_user (db : D1Database) (id : list ascii)
    (email username display_name avatar_url : option (list ascii)) (clock : Z)
  : result D1Database :=
  if existsb (fun r => bytes_eqb (u_id r) id) (users db)
     || email_taken (users db) id email
  then Throw ConstraintError
  else
    Return
      {| users :=
           users db ++
             [{| u_id := id; u_email := email; u_username := username;
                 u_display_name := display_name; u_avatar_url := avatar_url;
                 u_created_at := clock; u_updated_at := clock |}];
         oauth_accounts := oauth_accounts db |}.

(** [INSERT INTO oauth_accounts (id, user_id, provider, provider_user_id,
    access_token) VALUES (?, ?, ?, ?, ?)]: [id] is the primary key, the pair
    [(provider, provider_user_id)] is unique, [user_id] references [users]. *)
Definition insert_account (db : D1Database) (id user_id : list ascii) (p : provider)
    (pid access_token : list ascii) (clock : Z) : result D1Database :=
  if existsb (fun a => bytes_eqb (a_id a) id) (oauth_accounts db)
     || existsb (account_matches p pid) (oauth_accounts db)
     || negb (existsb (fun r => bytes_eqb (u_id r) user_id) (users db))
  then Throw ConstraintError
  else
    Return
      {| users := users db;
         oauth_accounts :=
           oauth_accounts db ++
             [{| a_id := id; a_user_id := user_id; a_provider := p;
                 a_provider_user_id := pid; a_access_token := Some access_token;
                 a_refresh_token := None; a_created_at := clock |}] |}.

(** types.ts: [AuthUser], its fields prefixed. *)
Record AuthUser : Type := {
  au_id : list ascii;
  au_email : option (list ascii);
  au_username : option (list ascii);
  au_display_name : option (list ascii);
  au_avatar_url : option (list ascii)
}.

(** [SELECT id, email, username, display_name, avatar_url FROM users WHERE
    id = ?], first row. *)
Definition select_user (db : D1Database) (uid : list ascii) : option AuthUser :=
  match List.filter (fun r => bytes_eqb (u_id r) uid) (users db) with
  | r :: _ =>
      Some {| au_id := u_id r; au_email := u_email r; au_username := u_username r;
              au_display_name := u_display_name r; au_avatar_url := u_avatar_url r |}
  | [] => None
  end.

Record profile : Type := {
  p_email : option (list ascii);
  p_username : option (list ascii);
  p_displayName : option (list ascii);
  p_avatarUrl : option (list ascii)
}.

(** [uuid1] and [uuid2] are the values of the two [crypto.randomUUID()]
    calls. The second component is the store after the call, also when the
    call raises: every statement commits on its own. *)
Definition upsertUser (db : D1Database) (p : provider) (providerUserId : list ascii)
    (prof : profile) (accessToken : list ascii) (uuid1 uuid2 : list ascii) (clock : Z)
  : result (list ascii) * D1Database :=
  match select_account db p providerUserId with
  | Some existing =>
      let db1 := update_access_token db accessToken p providerUserId in
      match update_user_profile db1 (p_email prof) (p_displayName prof)
              (p_avatarUrl prof) existing clock with
      | Return db2 => (Return existing, db2)
      | Throw e => (Throw e, db1)
      end
  | None =>
      let userId := replace_all "-" [] uuid1 in
      match insert_user db userId (p_email prof) (p_username prof)
              (p_displayName prof) (p_avatarUrl prof) clock with
      | Throw e => (Throw e, db)
      | Return db1 =>
          match insert_account db1 (replace_all "-" [] uuid2) userId p
                  providerUserId accessToken clock with
          | Throw e => (Throw e, db1)
          | Return db2 => (Return userId, db2)
          end
      end
  end.

(** * Requests and responses *)

Record response : Type := {
  status : Z;
  body : option json;
  headers : list (list ascii * list ascii)
}.

(** [c.json(v, status)] *)
Definition c_json (v : json) (st : Z) : response :=
  {| status := st; body := Some v; headers := [] |}.

Definition opt_json (o : option (list ascii)) : json :=
  match o with
  | Some x => JStr x
  | None => JNull
  end.

Definition user_json (u : AuthUser) : json :=
  JObj [("id"%string : list ascii, JStr (au_id u));
        ("email"%string : list ascii, opt_json (au_email u));
        ("username"%string : list ascii, opt_json (au_username u));
        ("display_name"%string : list ascii, opt_json (au_display_name u));
        ("avatar_url"%string : list ascii, opt_json (au_avatar_url u))].

Fixpoint take_until (c : ascii) (s : list ascii) : list ascii :=
  match s with
  | [] => []
  | x :: s' => if ascii_eqb x c then [] else x :: take_until c s'
  end.

(** [cookieHeader.match(/wokspec_session=([^;]+)/)?.[1]]: the first place
    where the name, an equals sign and at least one character other than a
    semicolon occur; the value runs up to the next semicolon. *)
Fixpoint match_session (s : list ascii) : option (list ascii) :=
  match s with
  | [] => None
  | _ :: s' =>
      match strip_prefix "wokspec_session="%string s with
      | Some rest =>
          match take_until ";" rest with
          | [] => match_session s'
          | v => Some v
          end
      | None => match_session s'
      end
  end.

(** The string settings of [Env]; the stores it binds are passed apart. *)
Record Env : Type := {
  GITHUB_CLIENT_ID : list ascii;
  GITHUB_CLIENT_SECRET : list ascii;
  GOOGLE_CLIENT_ID : list ascii;
  GOOGLE_CLIENT_SECRET : list ascii;
  DISCORD_CLIENT_ID : list ascii;
  DISCORD_CLIENT_SECRET : list ascii;
  JWT_SECRET : list ascii
}.

(** * middleware.ts *)

Definition unauthorized (message : string) : response :=
  c_json
    (JObj [("data"%string : list ascii, JNull);
           ("error"%string : list ascii,
             JObj [("code"%string : list ascii, JStr "UNAUTHORIZED"%string);
                   ("message"%string : list ascii, JStr message);
                   ("status"%string : list ascii, JNum 401)])])
    401.

(** [cookie] is [c.req.header('cookie')]; [next] is the rest of the chain,
    run with the user set in the context. *)
Definition requireAuth (env : Env) (db : D1Database) (clock : Z)
    (cookie : option (list ascii)) (next : AuthUser -> result response)
  : result response :=
  let cookieHeader := match cookie with Some h => h | None => [] end in
  match match_session cookieHeader with
  | None => Return (unauthorized "Not authenticated")
  | Some token =>
      payload <- verifyJWT token (JWT_SECRET env) clock ;;
      if falsy payload then Return (unauthorized "Invalid session")
      else
        sub <- get_prop payload "sub"%string ;;
        match sub with
        | Some (JStr uid) =>
            match select_user db uid with
            | None => Return (unauthorized "User not found")
            | Some row => next row
            end
        | _ => Return (unauthorized "Invalid session")
        end
  end.

(** * routes/auth.ts: session management *)

Definition me_error (message : string) : response :=
  c_json (JObj [("ok"%string : list ascii, JBool false);
                ("error"%string : list ascii, JStr message)]) 401.

(** [auth.get('/me', ...)] *)
Definition me (env : Env) (db : D1Database) (clock : Z) (cookie : option (list ascii))
  : result response :=
  let cookieHeader := match cookie with Some h => h | None => [] end in
  match match_session cookieHeader with
  | None => Return (me_error "Unauthorized")
  | Some token =>
      payload <- verifyJWT token (JWT_SECRET env) clock ;;
      if falsy payload then Return (me_error "Invalid session")
      else
        sub <- get_prop payload "sub"%string ;;
        match sub with
        | Some (JStr uid) =>
            match select_user db uid with
            | None => Return (me_error "User not found")
            | Some user =>
                Return (c_json (JObj [("ok"%string : list ascii, JBool true);
                                      ("user"%string : list ascii, user_json user)]) 200)
            end
        | _ => Return (me_error "Invalid session")
        end
  end.

(** [auth.post('/logout', ...)] *)
Definition logout : response :=
  {| status := 200;
     body := Some (JObj [("ok"%string : list ascii, JBool true)]);
     headers := [("Content-Type"%string : list ascii, "application/json"%string : list ascii);
                 ("Set-Cookie"%string : list ascii, clearCookie)] |}.

(** * routes/auth.ts: the OAuth callbacks *)

(** The calls a handler makes to the provider, in order. *)
Inductive upstream_call : Type :=
| TokenExchange (p : provider) (code : list ascii)
| ProfileFetch (p : provider) (access_token : list ascii)
| EmailsFetch (access_token : list ascii).

Record token_data : Type := {
  td_access_token : option (list ascii);
  td_error : option (list ascii)
}.

Record gh_user : Type := {
  gh_id : Z;
  gh_login : list ascii;
  gh_name : option (list ascii);
  gh_avatar_url : list ascii;
  gh_email : option (list ascii)
}.

Record gh_email_entry : Type := {
  ge_email : list ascii;
  ge_primary : bool;
  ge_verified : bool
}.

Record g_user : Type := {
  g_id : list ascii;
  g_email : list ascii;
  g_name : list ascii;
  g_picture : list ascii
}.

Record d_user : Type := {
  d_id : list ascii;
  d_username : list ascii;
  d_global_name : option (list ascii);
  d_email : option (list ascii);
  d_avatar : option (list ascii)
}.

(** What the providers answer, as typed by the handlers; a call raises
    when the request fails or the answer is not JSON. *)
Record upstream : Type := {
  exchange : provider -> list ascii -> result token_data;
  github_user : list ascii -> result gh_user;
  github_emails : list ascii -> result (list gh_email_entry);
  google_userinfo : list ascii -> result g_user;
  discord_user : list ascii -> result d_user
}.

(** The stores a handler works on, and the calls made so far. *)
Record world : Type := {
  w_kv : gmap (list ascii) kv_entry;
  w_db : D1Database;
  w_calls : list upstream_call
}.

(** A handler step: a result and the world after it, also when it raises. *)
Definition M (A : Type) : Type := world -> result A * world.

Definition mret {A} (a : A) : M A := fun w => (Return a, w).

Definition mbind' {A B} (m : M A) (k : A -> M B) : M B :=
  fun w =>
    match m w with
    | (Return a, w') => k a w'
    | (Throw e, w') => (Throw e, w')
    end.

Notation "x <~ m ;; k" := (mbind' m (fun x => k))
  (at level 100, m at next level, right associativity).

Definition lift {A} (r : result A) : M A := fun w => (r, w).

(** [await fetch(...)] followed by [.json()]: the call is recorded, then
    answered. *)
Definition fetch {A} (c : upstream_call) (answer : result A) : M A :=
  fun w =>
    (answer, {| w_kv := w_kv w; w_db := w_db w; w_calls := w_calls w ++ [c] |}).

Definition consume (state : list ascii) (clock : Z) : M bool :=
  fun w =>
    let '(ok, kv') := consumeState (w_kv w) state clock in
    (Return ok, {| w_kv := kv'; w_db := w_db w; w_calls := w_calls w |}).

Definition upsert (p : provider) (pid : list ascii) (prof : profile)
    (token uuid1 uuid2 : list ascii) (clock : Z) : M (list ascii) :=
  fun w =>
    let '(r, db') := upsertUser (w_db w) p pid prof token uuid1 uuid2 clock in
    (r, {| w_kv := w_kv w; w_db := db'; w_calls := w_calls w |}).

(** [!s] for an optional string. *)
Definition missing (s : option (list ascii)) : bool :=
  match s with
  | None | Some [] => true
  | Some _ => false
  end.

Definition unwrap (s : option (list ascii)) : list ascii :=
  match s with Some x => x | None => [] end.

Definition error_json (message : string) : response :=
  c_json (JObj [("error"%string : list ascii, JStr message)]) 400.

Definition logged_in (token : list ascii) : response :=
  {| status := 302;
     body := None;
     headers := [("Location"%string : list ascii, POST_LOGIN_REDIRECT);
                 ("Set-Cookie"%string : list ascii, sessionCookie token)] |}.

(** [emails.find((e) => e.primary && e.verified)?.email ?? emails[0]?.email
    ?? null] *)
Definition primary_email (emails : list gh_email_entry) : option (list ascii) :=
  match List.find (fun e => ge_primary e && ge_verified e) emails with
  | Some e => Some (ge_email e)
  | None =>
      match emails with
      | e :: _ => Some (ge_email e)
      | [] => None
      end
  end.

(** [auth.get('/github/callback', ...)]; [code] and [state] are the query
    parameters. *)
Definition github_callback (env : Env) (up : upstream) (code state : option (list ascii))
    (uuid1 uuid2 : list ascii) (clock : Z) : M response :=
  if missing code || missing state then mret (error_json "Missing code or state")
  else
    ok <~ consume (unwrap state) clock ;;
    if negb ok then mret (error_json "Invalid state")
    else
      tokenData <~ fetch (TokenExchange github (unwrap code))
                         (exchange up github (unwrap code)) ;;
      if missing (td_access_token tokenData) then mret (error_json "Token exchange failed")
      else
        let access_token := unwrap (td_access_token tokenData) in
        ghUser <~ fetch (ProfileFetch github access_token) (github_user up access_token) ;;
        email <~ (if missing (gh_email ghUser) then
                    emails <~ fetch (EmailsFetch access_token)
                                    (github_emails up access_token) ;;
                    mret (primary_email emails)
                  else mret (gh_email ghUser)) ;;
        userId <~ upsert github (Json.print_int (gh_id ghUser))
                    {| p_email := email; p_username := Some (gh_login ghUser);
                       p_displayName := gh_name ghUser;
                       p_avatarUrl := Some (gh_avatar_url ghUser) |}
                    access_token uuid1 uuid2 clock ;;
        token <~ lift (createSession (JWT_SECRET env) userId clock) ;;
        mret (logged_in token).

(** [auth.get('/google/callback', ...)] *)
Definition google_callback (env : Env) (up : upstream) (code state : option (list ascii))
    (uuid1 uuid2 : list ascii) (clock : Z) : M response :=
  if missing code || missing state then mret (error_json "Missing code or state")
  else
    ok <~ consume (unwrap state) clock ;;
    if negb ok then mret (error_json "Invalid state")
    else
      tokenData <~ fetch (TokenExchange google (unwrap code))
                         (exchange up google (unwrap code)) ;;
      if missing (td_access_token tokenData) then mret (error_json "Token exchange failed")
      else
        let access_token := unwrap (td_access_token tokenData) in
        gUser <~ fetch (ProfileFetch google access_token) (google_userinfo up access_token) ;;
        userId <~ upsert google (g_id gUser)
                    {| p_email := Some (g_email gUser); p_username := None;
                       p_displayName := Some (g_name gUser);
                       p_avatarUrl := Some (g_picture gUser) |}
                    access_token uuid1 uuid2 clock ;;
        token <~ lift (createSession (JWT_SECRET env) userId clock) ;;
        mret (logged_in token).

(** [auth.get('/discord/callback', ...)] *)
Definition discord_callback (env : Env) (up : upstream) (code state : option (list ascii))
    (uuid1 uuid2 : list ascii) (clock : Z) : M response :=
  if missing code || missing state then mret (error_json "Missing code or state")
  else
    ok <~ consume (unwrap state) clock ;;
    if negb ok then mret (error_json "Invalid state")
    else
      tokenData <~ fetch (TokenExchange discord (unwrap code))
                         (exchange up discord (unwrap code)) ;;
      if missing (td_access_token tokenData) then mret (error_json "Token exchange failed")
      else
        let access_token := unwrap (td_access_token tokenData) in
        dUser <~ fetch (ProfileFetch discord access_token) (discord_user up access_token) ;;
        let avatarUrl :=
          if missing (d_avatar dUser) then None
          else Some ("https://cdn.discordapp.com/avatars/"%string ++ d_id dUser
                       ++ "/"%string ++ unwrap (d_avatar dUser) ++ ".png"%string) in
        userId <~ upsert discord (d_id dUser)
                    {| p_email := d_email dUser; p_username := Some (d_username dUser);
                       p_displayName := d_global_name dUser; p_avatarUrl := avatarUrl |}
                    access_token uuid1 uuid2 clock ;;
        token <~ lift (createSession (JWT_SECRET env) userId clock) ;;
        mret (logged_in token).

(** * JavaScript strings: UTF-16 code units *)

(** The number of UTF-16 code units of a string in its UTF-8 view: one for
    each character, two for a character of four bytes. *)
Definition is_continuation (c : ascii) : bool := (128 <=? code c) && (code c <=? 191).

Fixpoint units (s : list ascii) : nat :=
  match s with
  | [] => O
  | c :: s' =>
      let n := if is_continuation c then O else if code c <? 240 then 1%nat else 2%nat in
      (n + units s')%nat
  end.

(** The high surrogate of the character whose first three bytes are given. *)
Definition high_surrogate (b0 b1 b2 : ascii) : Z :=
  55296 + (code b0 mod 8 * 256 + code b1 mod 64 * 4 + code b2 mod 64 / 16 - 64).

(** [s.slice(0, n)]: the first [n] code units of [s]. When the cut falls
    between the two code units of a character, its first half stays, a lone
    high surrogate. *)
Fixpoint slice (n : nat) (s : list ascii) : list ascii :=
  match s with
  | [] => []
  | c :: s' =>
      if is_continuation c then c :: slice n s'
      else
        match n with
        | O => []
        | S n' =>
            if code c <? 240 then c :: slice n' s'
            else
              match n' with
              | S n'' => c :: slice n'' s'
              | O =>
                  match s' with
                  | b1 :: b2 :: _ => Utf8.of_code_point (high_surrogate c b1 b2)
                  | _ => []
                  end
              end
        end
  end.

(** * index.ts: the product registry and the status aggregator *)

Inductive product_status : Type := live | beta | archived.

Record WokProduct : Type := {
  wp_slug : list ascii;
  wp_name : list ascii;
  wp_description : list ascii;
  wp_url : list ascii;
  wp_health_url : list ascii;
  wp_status : product_status;
  wp_tags : list (list ascii)
}.

(** The registry of index.ts with the auth routes mounted; the revision
    without them has the first three entries. The handlers below take the
    registry as their first argument. *)
Definition PRODUCTS : list WokProduct :=
  [{| wp_slug := "wokgen"%string; wp_name := "WokGen"%string;
      wp_description := "AI-powered asset generator for brands and creators."%string;
      wp_url := "https://wokgen.wokspec.org"%string;
      wp_health_url := "https://wokgen.wokspec.org/api/health"%string;
      wp_status := live;
      wp_tags := ["ai"%string : list ascii; "generation"%string : list ascii;
                  "assets"%string : list ascii] |};
   {| wp_slug := "chopsticks"%string; wp_name := "Chopsticks"%string;
      wp_description := "Multi-feature Discord bot for communities and servers."%string;
      wp_url := "https://chopsticks.wokspec.org"%string;
      wp_health_url := "https://chopsticks.wokspec.org"%string;
      wp_status := live;
      wp_tags := ["discord"%string : list ascii; "bot"%string : list ascii;
                  "community"%string : list ascii] |};
   {| wp_slug := "wokpost"%string; wp_name := "WokPost"%string;
      wp_description := "AI-curated news and media publishing platform."%string;
      wp_url := "https://wokpost.wokspec.org"%string;
      wp_health_url := "https://wokpost.wokspec.org"%string;
      wp_status := live;
      wp_tags := ["ai"%string : list ascii; "news"%string : list ascii;
                  "media"%string : list ascii] |};
   {| wp_slug := "eral"%string; wp_name := "Eral"%string;
      wp_description :=
        "AI layer that integrates across all WokSpec products and external sites."%string;
      wp_url := "https://eral.wokspec.org"%string;
      wp_health_url := "https://eral.wokspec.org/api/v1/status"%string;
      wp_status := live;
      wp_tags := ["ai"%string : list ascii; "assistant"%string : list ascii;
                  "integration"%string : list ascii] |}].

Inductive health : Type := hc_ok | hc_degraded | hc_down | hc_unknown.

Definition health_eqb (a b : health) : bool :=
  match a, b with
  | hc_ok, hc_ok | hc_degraded, hc_degraded | hc_down, hc_down
  | hc_unknown, hc_unknown => true
  | _, _ => false
  end.

Record HealthCheck : Type := {
  hc_slug : list ascii;
  hc_status : health;
  hc_latency_ms : option Z;
  hc_checked_at : list ascii;
  hc_detail : option (list ascii)
}.

(** What [fetch] gives: a response, with its status, or a thrown value, an
    [Error] with its message or something else. *)
Inductive fetched : Type :=
| Answered (st : Z)
| Failed (message : option (list ascii)).

(** What a probe reads besides the product: [new Date().toISOString()],
    [Date.now()] before the request, its outcome, [Date.now()] after it. *)
Record observation : Type := {
  ob_checked_at : list ascii;
  ob_start : Z;
  ob_res : fetched;
  ob_finish : Z
}.

(** [res.ok] *)
Definition res_ok (st : Z) : bool := (200 <=? st) && (st <=? 299).

Definition probe (product : WokProduct) (ob : observation) : HealthCheck :=
  let checked_at := ob_checked_at ob in
  let latency_ms := ob_finish ob - ob_start ob in
  match ob_res ob with
  | Answered st =>
      if res_ok st then
        {| hc_slug := wp_slug product; hc_status := hc_ok;
           hc_latency_ms := Some latency_ms; hc_checked_at := checked_at;
           hc_detail := None |}
      else if 500 <=? st then
        {| hc_slug := wp_slug product; hc_status := hc_down;
           hc_latency_ms := Some latency_ms; hc_checked_at := checked_at;
           hc_detail := Some ("HTTP "%string ++ Json.print_int st) |}
      else
        {| hc_slug := wp_slug product; hc_status := hc_degraded;
           hc_latency_ms := Some latency_ms; hc_checked_at := checked_at;
           hc_detail := Some ("HTTP "%string ++ Json.print_int st) |}
  | Failed err =>
      let detail :=
        match err with
        | Some message => slice 120 message
        | None => "Unreachable"%string : list ascii
        end in
      {| hc_slug := wp_slug product; hc_status := hc_down;
         hc_latency_ms := Some latency_ms; hc_checked_at := checked_at;
         hc_detail := Some detail |}
  end.

Definition product_json (p : WokProduct) : json :=
  JObj [("slug"%string : list ascii, JStr (wp_slug p));
        ("name"%string : list ascii, JStr (wp_name p));
        ("description"%string : list ascii, JStr (wp_description p));
        ("url"%string : list ascii, JStr (wp_url p));
        ("health_url"%string : list ascii, JStr (wp_health_url p));
        ("status"%string : list ascii,
          JStr match wp_status p with
               | live => "live"%string
               | beta => "beta"%string
               | archived => "archived"%string
               end);
        ("tags"%string : list ascii, JArr (map JStr (wp_tags p)))].

Definition health_json (h : health) : json :=
  JStr match h with
       | hc_ok => "ok"%string
       | hc_degraded => "degraded"%string
       | hc_down => "down"%string
       | hc_unknown => "unknown"%string
       end.

(** The properties of a check, in creation order; [detail] is there when
    the probe set it. *)
Definition check_members (ch : HealthCheck) : list (list ascii * json) :=
  [("slug"%string : list ascii, JStr (hc_slug ch));
   ("status"%string : list ascii, health_json (hc_status ch));
   ("latency_ms"%string : list ascii,
     match hc_latency_ms ch with Some n => JNum n | None => JNull end);
   ("checked_at"%string : list ascii, JStr (hc_checked_at ch))]
  ++ match hc_detail ch with
     | Some d => [("detail"%string : list ascii, JStr d)]
     | None => []
     end.

Definition not_found : response :=
  c_json (JObj [("ok"%string : list ascii, JBool false);
                ("error"%string : list ascii, JStr "Not found"%string)]) 404.

(** [app.get('/health', ...)]; [ts] is [new Date().toISOString()]. *)
Definition health_route (ts : list ascii) : response :=
  c_json (JObj [("ok"%string : list ascii, JBool true);
                ("ts"%string : list ascii, JStr ts)]) 200.

(** [app.get('/v1/projects', ...)] *)
Definition projects_route (PRODUCTS : list WokProduct) : response :=
  c_json (JObj [("ok"%string : list ascii, JBool true);
                ("projects"%string : list ascii, JArr (map product_json PRODUCTS))]) 200.

(** [app.get('/v1/projects/:slug', ...)] *)
Definition project_route (PRODUCTS : list WokProduct) (slug : list ascii) : response :=
  match List.find (fun p => bytes_eqb (wp_slug p) slug) PRODUCTS with
  | None => not_found
  | Some product =>
      c_json (JObj [("ok"%string : list ascii, JBool true);
                    ("project"%string : list ascii, product_json product)]) 200
  end.

(** [app.get('/v1/status', ...)]: the probes run side by side, the one of
    the product at place [i] observing [obs i]. *)
Definition status_route (PRODUCTS : list WokProduct) (obs : nat -> observation)
    (ts : list ascii) : response :=
  let checks := imap (fun i p => probe p (obs i)) PRODUCTS in
  let anyDown := existsb (fun ch => health_eqb (hc_status ch) hc_down) checks in
  let anyDegraded := existsb (fun ch => health_eqb (hc_status ch) hc_degraded) checks in
  let overallStatus :=
    if anyDown then hc_down else if anyDegraded then hc_degraded else hc_ok in
  c_json
    (JObj [("ok"%string : list ascii, JBool (negb anyDown));
           ("status"%string : list ascii, health_json overallStatus);
           ("ts"%string : list ascii, JStr ts);
           ("checks"%string : list ascii,
             JArr (map (fun ch => JObj (check_members ch)) checks))])
    (if anyDown then 503 else 200).

(** [app.get('/v1/status/:slug', ...)]: the properties of the check are
    spread over the object that holds [ok]. *)
Definition product_status_route (PRODUCTS : list WokProduct) (slug : list ascii)
    (ob : observation) : response :=
  match List.find (fun p => bytes_eqb (wp_slug p) slug) PRODUCTS with
  | None => not_found
  | Some product =>
      let check := probe product ob in
      c_json
        (JObj (fold_left (fun o kv => obj_set (fst kv) (snd kv) o) (check_members check)
                 [("ok"%string : list ascii, JBool (health_eqb (hc_status check) hc_ok))]))
        (if health_eqb (hc_status check) hc_down then 503 else 200)
  end.
(** * URLSearchParams: the form serializer of the platform *)

(** A string as a [USVString]: a lone surrogate, three bytes in the UTF-8
    view, becomes U+FFFD. *)
Fixpoint usv (s : list ascii) : list ascii :=
  match s with
  | [] => []
  | a :: t =>
      match t with
      | b :: _ :: s' =>
          if (code a =? 237) && (160 <=? code b) then Utf8.replacement ++ usv s'
          else a :: usv t
      | _ => a :: usv t
      end
  end.

(** The bytes that the serializer leaves as they are: letters, digits and
    the four characters of [*-._]. *)
Definition form_safe (c : ascii) : bool :=
  let n := code c in
  ((48 <=? n) && (n <=? 57)) || ((65 <=? n) && (n <=? 90)) || ((97 <=? n) && (n <=? 122))
  || (n =? 42) || (n =? 45) || (n =? 46) || (n =? 95).

Definition upper_hex (d : Z) : ascii :=
  if d <? 10 then chr (48 + d) else chr (55 + d).

Definition form_byte (c : ascii) : list ascii :=
  if code c =? 32 then "+"%string
  else if form_safe c then [c]
  else ["%"%char; upper_hex (code c / 16); upper_hex (code c mod 16)].

Definition form_encode (s : list ascii) : list ascii :=
  concat (map form_byte (Utf8.encode (usv s))).

(** [String(new URLSearchParams(params))], the pairs in creation order. *)
Fixpoint URLSearchParams (params : list (list ascii * list ascii)) : list ascii :=
  match params with
  | [] => []
  | (k, v) :: rest =>
      form_encode k ++ "="%string ++ form_encode v
        ++ match rest with
           | [] => []
           | _ :: _ => "&"%string ++ URLSearchParams rest
           end
  end.

(** * routes/auth.ts: the login routes *)

Definition REDIRECT_BASE : list ascii := "https://api.wokspec.org/v1/auth"%string.

(** [c.redirect(location)] *)
Definition c_redirect (location : list ascii) : response :=
  {| status := 302; body := None;
     headers := [("Location"%string : list ascii, location)] |}.

(** [await generateState(c.env.OAUTH_STATE)]; [rnd] is the value of
    [crypto.getRandomValues]. *)
Definition issue (rnd : list ascii) (clock : Z) : M (list ascii) :=
  fun w =>
    let '(state, kv') := generateState (w_kv w) rnd clock in
    (Return state, {| w_kv := kv'; w_db := w_db w; w_calls := w_calls w |}).

(** [auth.get('/github', ...)] *)
Definition github_login (env : Env) (rnd : list ascii) (clock : Z) : M response :=
  state <~ issue rnd clock ;;
  let params :=
    URLSearchParams
      [("client_id"%string : list ascii, GITHUB_CLIENT_ID env);
       ("redirect_uri"%string : list ascii, REDIRECT_BASE ++ "/github/callback"%string);
       ("scope"%string : list ascii, "user:email"%string : list ascii);
       ("state"%string : list ascii, state)] in
  mret (c_redirect ("https://github.com/login/oauth/authorize?"%string ++ params)).

(** [auth.get('/google', ...)] *)
Definition google_login (env : Env) (rnd : list ascii) (clock : Z) : M response :=
  state <~ issue rnd clock ;;
  let params :=
    URLSearchParams
      [("client_id"%string : list ascii, GOOGLE_CLIENT_ID env);
       ("redirect_uri"%string : list ascii, REDIRECT_BASE ++ "/google/callback"%string);
       ("scope"%string : list ascii, "openid email profile"%string : list ascii);
       ("response_type"%string : list ascii, "code"%string : list ascii);
       ("state"%string : list ascii, state)] in
  mret (c_redirect ("https://accounts.google.com/o/oauth2/v2/auth?"%string ++ params)).

(** [auth.get('/discord', ...)] *)
Definition discord_login (env : Env) (rnd : list ascii) (clock : Z) : M response :=
  state <~ issue rnd clock ;;
  let params :=
    URLSearchParams
      [("client_id"%string : list ascii, DISCORD_CLIENT_ID env);
       ("redirect_uri"%string : list ascii, REDIRECT_BASE ++ "/discord/callback"%string);
       ("scope"%string : list ascii, "identify email"%string : list ascii);
       ("response_type"%string : list ascii, "code"%string : list ascii);
       ("state"%string : list ascii, state)] in
  mret (c_redirect ("https://discord.com/api/oauth2/authorize?"%string ++ params)).

(** * Numbers: the binary64 values of the platform *)

Module Float.

(** A number is not-a-number, an infinity, or [m * 2^e]; the sign of zero
    is not kept (no operation below tells the two zeros apart). *)
Inductive number : Type :=
| NaN
| Infinity (negative : bool)
| Finite (m e : Z).

(** The binary64 value nearest to [n / d] for positive [n] and [d], ties
    to the even significand: the exponent [e] is the one that leaves 53
    bits before the binary point, or the least one, -1074; a value from
    [2^1024] on is an infinity. *)
Definition round_pos (n d : Z) : number :=
  let e1 := Z.max (Z.log2 n - Z.log2 d - 52) (-1074) in
  let q1 := (n * 2 ^ Z.max 0 (- e1)) / (d * 2 ^ Z.max 0 e1) in
  let e := if (q1 <? 2 ^ 52) && (-1074 <? e1) then e1 - 1 else e1 in
  let num := n * 2 ^ Z.max 0 (- e) in
  let den := d * 2 ^ Z.max 0 e in
  let q := num / den in
  let r := num mod den in
  let m := if (den <? 2 * r) || ((den =? 2 * r) && Z.odd q) then q + 1 else q in
  if 2 ^ 1024 <=? m * 2 ^ e then Infinity false else Finite m e.

Definition opp (x : number) : number :=
  match x with
  | NaN => NaN
  | Infinity s => Infinity (negb s)
  | Finite m e => Finite (- m) e
  end.

(** The value nearest to [n / d], for any [n] and positive [d]. *)
Definition round (n d : Z) : number :=
  if n =? 0 then Finite 0 0
  else if n <? 0 then opp (round_pos (- n) d)
  else round_pos n d.

(** [m * 2^e] as a fraction with a positive denominator. *)
Definition fraction (m e : Z) : Z * Z :=
  if 0 <=? e then (m * 2 ^ e, 1) else (m, 2 ^ (- e)).

Definition of_Z (n : Z) : number := round n 1.

(** [x - y] *)
Definition sub (x y : number) : number :=
  match x, y with
  | NaN, _ | _, NaN => NaN
  | Infinity a, Infinity b => if Bool.eqb a b then NaN else Infinity a
  | Infinity a, Finite _ _ => Infinity a
  | Finite _ _, Infinity b => Infinity (negb b)
  | Finite m e, Finite m' e' =>
      let '(n, d) := fraction m e in
      let '(n', d') := fraction m' e' in
      round (n * d' - n' * d) (d * d')
  end.

(** [x / k] for a positive integer [k] *)
Definition div (x : number) (k : Z) : number :=
  match x with
  | Finite m e => let '(n, d) := fraction m e in round n (d * k)
  | _ => x
  end.

(** [Math.abs(x)] *)
Definition abs (x : number) : number :=
  match x with
  | NaN => NaN
  | Infinity _ => Infinity false
  | Finite m e => Finite (Z.abs m) e
  end.

(** [x > k] for an integer [k] *)
Definition gt (x : number) (k : Z) : bool :=
  match x with
  | NaN => false
  | Infinity s => negb s
  | Finite m e => let '(n, d) := fraction m e in k * d <? n
  end.

(** The white space that [Number] trims: the characters of [WhiteSpace]
    and [LineTerminator], in their UTF-8 form. *)
Definition white_space : list (list ascii) :=
  [[chr 9]; [chr 10]; [chr 11]; [chr 12]; [chr 13]; [chr 32];
   [chr 194; chr 160];
   [chr 225; chr 154; chr 128];
   [chr 226; chr 128; chr 128]; [chr 226; chr 128; chr 129]; [chr 226; chr 128; chr 130];
   [chr 226; chr 128; chr 131]; [chr 226; chr 128; chr 132]; [chr 226; chr 128; chr 133];
   [chr 226; chr 128; chr 134]; [chr 226; chr 128; chr 135]; [chr 226; chr 128; chr 136];
   [chr 226; chr 128; chr 137]; [chr 226; chr 128; chr 138];
   [chr 226; chr 128; chr 168]; [chr 226; chr 128; chr 169]; [chr 226; chr 128; chr 175];
   [chr 226; chr 129; chr 159];
   [chr 227; chr 128; chr 128];
   [chr 239; chr 187; chr 191]].

Fixpoint strip_any (pats : list (list ascii)) (s : list ascii) : option (list ascii) :=
  match pats with
  | [] => None
  | p :: pats' =>
      match strip_prefix p s with
      | Some r => Some r
      | None => strip_any pats' s
      end
  end.

Fixpoint trim_start (fuel : nat) (pats : list (list ascii)) (s : list ascii) : list ascii :=
  match fuel with
  | O => s
  | S fuel' =>
      match strip_any pats s with
      | Some r => trim_start fuel' pats r
      | None => s
      end
  end.

Definition trim (s : list ascii) : list ascii :=
  let a := trim_start (length s) white_space s in
  rev (trim_start (length a) (map (@rev ascii) white_space) (rev a)).

(** The value of a digit in the given base. *)
Definition digit_in (base : Z) (c : ascii) : option Z :=
  let n := code c in
  let v :=
    if (48 <=? n) && (n <=? 57) then n - 48
    else if (65 <=? n) && (n <=? 70) then n - 55
    else if (97 <=? n) && (n <=? 102) then n - 87
    else base in
  if v <? base then Some v else None.

Fixpoint digits_in (base : Z) (acc : Z) (s : list ascii) : option Z :=
  match s with
  | [] => Some acc
  | c :: s' =>
      match digit_in base c with
      | Some v => digits_in base (acc * base + v) s'
      | None => None
      end
  end.

(** [0x], [0o] and [0b] literals, without a sign. *)
Definition non_decimal (s : list ascii) : option Z :=
  match s with
  | z :: x :: ((_ :: _) as ds) =>
      if code z =? 48 then
        if (code x =? 120) || (code x =? 88) then digits_in 16 0 ds
        else if (code x =? 111) || (code x =? 79) then digits_in 8 0 ds
        else if (code x =? 98) || (code x =? 66) then digits_in 2 0 ds
        else None
      else None
  | _ => None
  end.

(** The exponent part of a decimal literal, up to the end of the text. *)
Definition exponent (s : list ascii) : option Z :=
  match s with
  | [] => Some 0
  | c :: r =>
      if (code c =? 101) || (code c =? 69) then
        let '(neg, r1) :=
          match r with
          | "-"%char :: r' => (true, r')
          | "+"%char :: r' => (false, r')
          | _ => (false, r)
          end in
        match Json.span_digits r1 with
        | ((_ :: _) as ep, []) => Some (if neg then - Json.undigits ep else Json.undigits ep)
        | _ => None
        end
      else None
  end.

(** A decimal literal without its sign: [Infinity], or digits with an
    optional fraction and exponent, a digit standing before or after the
    point. *)
Definition unsigned_decimal (s : list ascii) : option number :=
  if bytes_eqb s "Infinity"%string then Some (Infinity false)
  else
    let '(ip, s1) := Json.span_digits s in
    let '(fp, s2) :=
      match s1 with
      | "."%char :: r => Json.span_digits r
      | _ => ([], s1)
      end in
    match ip ++ fp with
    | [] => None
    | ds =>
        match exponent s2 with
        | None => None
        | Some x =>
            let m := Json.undigits ds in
            let e := x - Z.of_nat (length fp) in
            Some (if 0 <=? e then round (m * 10 ^ e) 1 else round m (10 ^ (- e)))
        end
    end.

(** [Number(s)] for a string [s]. *)
Definition Number (s : list ascii) : number :=
  match trim s with
  | [] => Finite 0 0
  | t =>
      match non_decimal t with
      | Some n => round n 1
      | None =>
          let '(neg, u) :=
            match t with
            | "-"%char :: r => (true, r)
            | "+"%char :: r => (false, r)
            | _ => (false, t)
            end in
          match unsigned_decimal u with
          | Some x => if neg then opp x else x
          | None => NaN
          end
      end
  end.

End Float.

(** * JavaScript values in texts and conditions *)

(** [`${v}`] for a value read from JSON: a string as it is, a number and a
    boolean written out, an array as its elements joined by commas ([null]
    giving nothing), an object as [[object Object]]; an object with a
    property [toString] of its own has no text, and the conversion raises. *)
Fixpoint to_string (v : json) : result (list ascii) :=
  match v with
  | JNull => Return ("null"%string : list ascii)
  | JBool true => Return ("true"%string : list ascii)
  | JBool false => Return ("false"%string : list ascii)
  | JNum n => Return (Json.print_int n)
  | JDec m k => Return (Json.print_dec m k)
  | JStr s => Return s
  | JArr l =>
      (fix join (l : list json) : result (list ascii) :=
         match l with
         | [] => Return []
         | x :: l' =>
             a <- match x with JNull => Return [] | _ => to_string x end ;;
             match l' with
             | [] => Return a
             | _ :: _ => b <- join l' ;; Return (a ++ ","%string ++ b)
             end
         end) l
  | JObj l =>
      match obj_get "toString"%string l with
      | Some _ => Throw TypeError
      | None => Return ("[object Object]"%string : list ascii)
      end
  end.

(** [!x] for a property that may be missing *)
Definition falsy_opt (x : option json) : bool :=
  match x with
  | None => true
  | Some v => falsy v
  end.

(** [x.k] for a value [x] that may be [undefined] *)
Definition prop (x : option json) (k : list ascii) : result (option json) :=
  match x with
  | None => Throw TypeError
  | Some v => get_prop v k
  end.

(** [x ?? null] *)
Definition or_null (x : option json) : json :=
  match x with
  | None => JNull
  | Some v => v
  end.

(** * lib/resend.ts and routes/bookings.ts *)

(** The settings of [Env] that the booking routes read. *)
Record BookingsEnv : Type := {
  STRIPE_SECRET_KEY : list ascii;
  STRIPE_WEBHOOK_SECRET : list ascii;
  RESEND_API_KEY : list ascii
}.

(** What a handler does to the outside: a request to Stripe or to Resend,
    with its [Authorization] header and its body, or a statement on the
    bookings database, with the values bound. *)
Inductive action : Type :=
| StripeCheckout (authorization body : list ascii)
| InsertBooking (id user_id : list ascii) (stripe_session_id : json)
| MarkPaid (status : list ascii) (stripe_payment_intent : json)
    (stripe_session_id : option json)
| SelectBookings (user_id : list ascii)
| ResendEmail (authorization body : list ascii).

(** How the outside answers: Stripe with the JSON of its response, the
    database with the end of a statement or with the rows of a query. An
    answer can be a failure. *)
Record outside : Type := {
  stripe_json : list ascii -> list ascii -> result json;
  d1_run : action -> result unit;
  d1_all : list ascii -> result json
}.

(** A handler step: a result and the actions taken so far, also when it
    raises. *)
Definition Eff (A : Type) : Type := list action -> result A * list action.

Definition tret {A} (a : A) : Eff A := fun tr => (Return a, tr).

Definition tbind {A B} (m : Eff A) (k : A -> Eff B) : Eff B :=
  fun tr =>
    match m tr with
    | (Return a, tr') => k a tr'
    | (Throw e, tr') => (Throw e, tr')
    end.

Notation "x <~~ m ;; k" := (tbind m (fun x => k))
  (at level 100, m at next level, right associativity).

Definition tlift {A} (r : result A) : Eff A := fun tr => (r, tr).

(** An action that is awaited: it is taken, then answered. *)
Definition act {A} (a : action) (answer : result A) : Eff A :=
  fun tr => (answer, tr ++ [a]).

(** An action whose promise is left alone, its failure caught. *)
Definition fire (a : action) : Eff unit :=
  fun tr => (Return tt, tr ++ [a]).

(** lib/resend.ts: [bookingConfirmEmail(email)] *)
Definition bookingConfirmEmail (email : json) : result (list ascii) :=
  e <- to_string email ;;
  Return ("<p>Hi "%string ++ e
            ++ ",</p><p>Your WokSpec consultation has been confirmed. We'll be in touch shortly.</p>"%string).

(** lib/resend.ts: [sendEmail(apiKey, opts)], the request it makes. *)
Definition sendEmail (apiKey : list ascii) (to : json) (subject html : list ascii)
  : action :=
  ResendEmail ("Bearer "%string ++ apiKey)
    (JSON_stringify
       (JObj [("from"%string : list ascii, JStr "WokSpec <noreply@wokspec.org>"%string);
              ("to"%string : list ascii, to);
              ("subject"%string : list ascii, JStr subject);
              ("html"%string : list ascii, JStr html)])).

(** middleware.ts: [rateLimit(key)], a stub that goes on. *)
Definition rateLimit (_key : list ascii) (next : Eff response) : Eff response := next.

(** middleware.ts: [requireAuth()] before a handler that acts on the
    outside. *)
Definition requireAuthT (env : Env) (db : D1Database) (clock : Z)
    (cookie : option (list ascii)) (next : AuthUser -> Eff response) : Eff response :=
  let cookieHeader := match cookie with Some h => h | None => [] end in
  match match_session cookieHeader with
  | None => tret (unauthorized "Not authenticated")
  | Some token =>
      payload <~~ tlift (verifyJWT token (JWT_SECRET env) clock) ;;
      if falsy payload then tret (unauthorized "Invalid session")
      else
        sub <~~ tlift (get_prop payload "sub"%string) ;;
        match sub with
        | Some (JStr uid) =>
            match select_user db uid with
            | None => tret (unauthorized "User not found")
            | Some row => next row
            end
        | _ => tret (unauthorized "Invalid session")
        end
  end.

Definition api_error (code message : json) (st : Z) : response :=
  c_json
    (JObj [("data"%string : list ascii, JNull);
           ("error"%string : list ascii,
             JObj [("code"%string : list ascii, code);
                   ("message"%string : list ascii, message);
                   ("status"%string : list ascii, JNum st)])])
    st.

(** The form that the checkout route posts to Stripe; [price] is
    [CONSULTATION_PRICE_CENTS] of lib/constants, a whole number of cents. *)
Definition checkout_form (price : Z) (user : AuthUser) : list (list ascii * list ascii) :=
  [("mode"%string : list ascii, "payment"%string : list ascii);
   ("customer_email"%string : list ascii,
     match au_email user with Some e => e | None => "null"%string end);
   ("line_items[0][price_data][currency]"%string : list ascii, "usd"%string : list ascii);
   ("line_items[0][price_data][product_data][name]"%string : list ascii,
     "WokSpec Consultation Slot"%string : list ascii);
   ("line_items[0][price_data][product_data][description]"%string : list ascii,
     "A 30-minute consultation to see if we can help you."%string : list ascii);
   ("line_items[0][price_data][unit_amount]"%string : list ascii, Json.print_int price);
   ("line_items[0][quantity]"%string : list ascii, "1"%string : list ascii);
   ("metadata[user_id]"%string : list ascii, au_id user);
   ("success_url"%string : list ascii,
     "https://wokspec.org/consult/success?session_id={CHECKOUT_SESSION_ID}"%string
       : list ascii);
   ("cancel_url"%string : list ascii, "https://wokspec.org/consult"%string : list ascii)].

(** [bookings.post('/checkout', rateLimit('booking'), requireAuth(), ...)];
    [uuid] is the value of [crypto.randomUUID()]. *)
Definition checkout (env : Env) (benv : BookingsEnv) (price : Z) (out : outside)
    (db : D1Database) (clock : Z) (cookie : option (list ascii)) (uuid : list ascii)
  : Eff response :=
  rateLimit "booking"%string
    (requireAuthT env db clock cookie (fun user =>
       let authorization := "Bearer "%string ++ STRIPE_SECRET_KEY benv in
       let body := URLSearchParams (checkout_form price user) in
       session <~~ act (StripeCheckout authorization body)
                       (stripe_json out authorization body) ;;
       url <~~ tlift (get_prop session "url"%string) ;;
       id <~~ tlift (get_prop session "id"%string) ;;
       if falsy_opt url || falsy_opt id then
         error <~~ tlift (get_prop session "error"%string) ;;
         message <~~ tlift (match error with
                            | None | Some JNull => Return None
                            | Some e => get_prop e "message"%string
                            end) ;;
         tret (api_error (JStr "STRIPE_ERROR"%string)
                 (match message with
                  | None | Some JNull => JStr "Failed to create checkout"%string
                  | Some m => m
                  end) 500)
       else
         _ <~~ act (InsertBooking uuid (au_id user) (or_null id))
                   (d1_run out (InsertBooking uuid (au_id user) (or_null id))) ;;
         tret (c_json
                 (JObj [("data"%string : list ascii,
                          JObj [("checkoutUrl"%string : list ascii, or_null url);
                                ("sessionId"%string : list ascii, or_null id)]);
                        ("error"%string : list ascii, JNull)]) 200))).

(** [Object.fromEntries(signature.split(',').map(s => s.split('=')))]: of
    each piece the text before the first equals sign is the name and the
    text up to the second one the value, which an entry without equals
    sign does not have. *)
Definition sig_parts (signature : list ascii) : list (list ascii * option (list ascii)) :=
  map (fun s =>
         match split_on "=" s with
         | k :: v :: _ => (k, Some v)
         | [k] => (k, None)
         | [] => ([], None)
         end)
      (split_on "," signature).

(** [sigParts[k]]: the last entry of the name decides. *)
Definition part (k : list ascii) (entries : list (list ascii * option (list ascii)))
  : option (list ascii) :=
  fold_left (fun acc kv => if bytes_eqb (fst kv) k then snd kv else acc) entries None.

(** [Math.abs(Date.now() / 1000 - Number(timestamp)) > 300] *)
Definition stale (clock : Z) (timestamp : list ascii) : bool :=
  Float.gt
    (Float.abs (Float.sub (Float.div (Float.of_Z clock) 1000) (Float.Number timestamp)))
    300.

(** What the webhook computes from the time stamp and the body. *)
Definition stripe_signature (secret timestamp body : list ascii) : list ascii :=
  let signedPayload := timestamp ++ "."%string ++ body in
  let keyData := Utf8.encode secret in
  let msgData := Utf8.encode signedPayload in
  concat (map hex2 (subtle_sign keyData msgData)).

Definition bad_request (code message : string) : response :=
  api_error (JStr code) (JStr message) 400.

Definition received : response :=
  c_json (JObj [("data"%string : list ascii,
                  JObj [("received"%string : list ascii, JBool true)]);
                ("error"%string : list ascii, JNull)]) 200.

(** The checks of the webhook on the signature header: the answer that
    ends the request, if any. *)
Definition webhook_refusal (benv : BookingsEnv) (clock : Z) (body signature : list ascii)
  : option response :=
  match STRIPE_WEBHOOK_SECRET benv with
  | [] => None
  | secret =>
      let sigParts := sig_parts signature in
      let timestamp := part "t"%string sigParts in
      let v1 := part "v1"%string sigParts in
      if missing timestamp || missing v1 then
        Some (bad_request "INVALID_SIGNATURE" "Malformed Stripe signature")
      else if stale clock (unwrap timestamp) then
        Some (bad_request "EXPIRED_SIGNATURE" "Webhook timestamp too old")
      else if negb (bytes_eqb (stripe_signature secret (unwrap timestamp) body) (unwrap v1))
      then Some (bad_request "INVALID_SIGNATURE" "Stripe signature mismatch")
      else None
  end.

(** What the webhook does with an event of type
    [checkout.session.completed]. *)
Definition completed (benv : BookingsEnv) (out : outside) (event : json) : Eff unit :=
  data <~~ tlift (get_prop event "data"%string) ;;
  session <~~ tlift (prop data "object"%string) ;;
  payment_intent <~~ tlift (prop session "payment_intent"%string) ;;
  id <~~ tlift (prop session "id"%string) ;;
  _ <~~ act (MarkPaid "paid"%string (or_null payment_intent) id)
            (d1_run out (MarkPaid "paid"%string (or_null payment_intent) id)) ;;
  customerEmail <~~ tlift (prop session "customer_email"%string) ;;
  match RESEND_API_KEY benv, customerEmail with
  | _ :: _, Some to =>
      if falsy to then tret tt
      else
        html <~~ tlift (bookingConfirmEmail to) ;;
        fire (sendEmail (RESEND_API_KEY benv) to
                "Booking confirmed — WokSpec consultation ✦"%string html)
  | _, _ => tret tt
  end.

(** What the webhook does with the body once the checks are passed. *)
Definition handle_event (benv : BookingsEnv) (out : outside) (body : list ascii)
  : Eff response :=
  match JSON_parse body with
  | Throw _ => tret (bad_request "INVALID_BODY" "Invalid JSON")
  | Return event =>
      type <~~ tlift (get_prop event "type"%string) ;;
      _ <~~ match type with
            | Some (JStr t) =>
                if bytes_eqb t "checkout.session.completed"%string
                then completed benv out event
                else tret tt
            | _ => tret tt
            end ;;
      tret received
  end.

(** [bookings.post('/webhook', ...)]: [raw] holds the bytes of the request
    body, [signature] the header [stripe-signature]. *)
Definition webhook (benv : BookingsEnv) (out : outside) (clock : Z) (raw : list ascii)
    (signature : option (list ascii)) : Eff response :=
  let body := Utf8.decode raw in
  if missing signature then tret (bad_request "NO_SIGNATURE" "Missing Stripe signature")
  else
    match webhook_refusal benv clock body (unwrap signature) with
    | Some r => tret r
    | None => handle_event benv out body
    end.

(** [bookings.get('/', requireAuth(), ...)] *)
Definition list_bookings (env : Env) (out : outside) (db : D1Database) (clock : Z)
    (cookie : option (list ascii)) : Eff response :=
  requireAuthT env db clock cookie (fun user =>
    results <~~ act (SelectBookings (au_id user)) (d1_all out (au_id user)) ;;
    tret (c_json (JObj [("data"%string : list ascii, results);
                        ("error"%string : list ascii, JNull)]) 200)).

(** * Notions used to state the properties *)

(** The payloads that [JSON.stringify] and [JSON.parse] carry unchanged:
    integers that a number holds exactly, well-formed strings, objects
    without repeated property names. *)
Fixpoint wf_json (v : json) : Prop :=
  match v with
  | JNull | JBool _ => True
  | JNum n => - (2 ^ 53 - 1) <= n <= 2 ^ 53 - 1
  | JDec _ _ => False
  | JStr s => Utf8.well_formed s
  | JArr l =>
      (fix all (l : list json) : Prop :=
         match l with
         | [] => True
         | x :: l' => wf_json x /\ all l'
         end) l
  | JObj l =>
      NoDup (map fst l) /\
      (fix all (l : list (list ascii * json)) : Prop :=
         match l with
         | [] => True
         | (k, x) :: l' => Utf8.well_formed k /\ wf_json x /\ all l'
         end) l
  end.

(** The token has three segments and its third one is the code of the
    first two under [secret]. *)
Definition signature_ok (token secret : list ascii) : bool :=
  match split_on "." token with
  | [header; body; sig] =>
      match importKey secret, b64urlDecode sig with
      | Return key, Return signature =>
          subtle_verify key signature (Utf8.encode (header ++ "."%string ++ body))
      | _, _ => false
      end
  | _ => false
  end.

(** What the second segment of the token decodes to. *)
Definition decoded_payload (token : list ascii) : result json :=
  match split_on "." token with
  | [_; body; _] => bs <- b64urlDecode body ;; JSON_parse (Utf8.decode bs)
  | _ => Throw SyntaxError
  end.

(** Calls on the nonce store, each at its time. *)
Inductive nonce_op : Type :=
| Issue (rnd : list ascii)
| Consume (state : list ascii).

Definition run_op (kv : gmap (list ascii) kv_entry) (o : nonce_op * Z)
  : gmap (list ascii) kv_entry :=
  match o with
  | (Issue rnd, t) => snd (generateState kv rnd t)
  | (Consume s, t) => snd (consumeState kv s t)
  end.

Definition run_ops (kv : gmap (list ascii) kv_entry) (ops : list (nonce_op * Z))
  : gmap (list ascii) kv_entry :=
  fold_left run_op ops kv.

Definition issues (n : list ascii) (o : nonce_op * Z) : Prop :=
  match o with
  | (Issue rnd, _) => fst (generateState ∅ rnd 0) = n
  | _ => False
  end.

Definition consumes (n : list ascii) (o : nonce_op * Z) : Prop :=
  match o with
  | (Consume s, _) => s = n
  | _ => False
  end.

(** The constraints of the schema: primary keys, [email TEXT UNIQUE],
    [UNIQUE(provider, provider_user_id)], [user_id REFERENCES users(id)]. *)
Definition emails (rows : list user_row) : list (list ascii) :=
  omap u_email rows.

Record db_ok (db : D1Database) : Prop := {
  ok_user_ids : NoDup (map u_id (users db));
  ok_emails : NoDup (emails (users db));
  ok_account_ids : NoDup (map a_id (oauth_accounts db));
  ok_identities :
    NoDup (map (fun a => (a_provider a, a_provider_user_id a)) (oauth_accounts db));
  ok_references :
    Forall (fun a => a_user_id a ∈ map u_id (users db)) (oauth_accounts db)
}.

(** The rows of an external identity: its linked accounts, and the users
    these belong to. *)
Definition accounts_of (db : D1Database) (p : provider) (pid : list ascii)
  : list account_row :=
  List.filter (account_matches p pid) (oauth_accounts db).


(** A call of [upsertUser], with all it is given. *)
Record upsert_call : Type := {
  uc_provider : provider;
  uc_providerUserId : list ascii;
  uc_profile : profile;
  uc_accessToken : list ascii;
  uc_uuid1 : list ascii;
  uc_uuid2 : list ascii;
  uc_clock : Z
}.

Definition run_upsert (db : D1Database) (c : upsert_call) : result (list ascii) * D1Database :=
  upsertUser db (uc_provider c) (uc_providerUserId c) (uc_profile c) (uc_accessToken c)
    (uc_uuid1 c) (uc_uuid2 c) (uc_clock c).

Definition run_upserts (db : D1Database) (cs : list upsert_call) : D1Database :=
  fold_left (fun d c => snd (run_upsert d c)) cs db.

Definition empty_db : D1Database := {| users := []; oauth_accounts := [] |}.


(** The payload of a session token, and sample tokens. *)
Definition session_payload (userId : list ascii) (exp : Z) : json :=
  JObj [("sub"%string : list ascii, JStr userId);
        ("exp"%string : list ascii, JNum exp)].

Definition token_of (r : result (list ascii)) : list ascii :=
  match r with Return t => t | Throw _ => [] end.

(** Sample settings: a signing secret, providers that do not answer, a
    store with one user. *)
Definition sample_env : Env :=
  {| GITHUB_CLIENT_ID := "gh-id"%string; GITHUB_CLIENT_SECRET := "gh-secret"%string;
     GOOGLE_CLIENT_ID := "g-id"%string; GOOGLE_CLIENT_SECRET := "g-secret"%string;
     DISCORD_CLIENT_ID := "d-id"%string; DISCORD_CLIENT_SECRET := "d-secret"%string;
     JWT_SECRET := "secret"%string |}.

Definition offline : upstream :=
  {| exchange := fun _ _ => Throw NetworkError;
     github_user := fun _ => Throw NetworkError;
     github_emails := fun _ => Throw NetworkError;
     google_userinfo := fun _ => Throw NetworkError;
     discord_user := fun _ => Throw NetworkError |}.

Definition sample_db : D1Database :=
  {| users :=
       [{| u_id := "u1"%string; u_email := Some ("a@example.org"%string : list ascii);
           u_username := Some ("ann"%string : list ascii); u_display_name := None;
           u_avatar_url := None; u_created_at := 0; u_updated_at := 0 |}];
     oauth_accounts :=
       [{| a_id := "a1"%string; a_user_id := "u1"%string; a_provider := github;
           a_provider_user_id := "42"%string;
           a_access_token := Some ("t0"%string : list ascii);
           a_refresh_token := None; a_created_at := 0 |}] |}.

(** The cookie header that carries a session token. *)
Definition cookie_of (token : list ascii) : option (list ascii) :=
  Some (COOKIE_NAME ++ "="%string ++ token).

(** What is claimed of a callback handler [h], given the query parameters,
    the time and the world: without both parameters, or with a state that
    the store does not hold or that cannot be consumed, it answers the
    client failure and leaves the world as it is, the list of provider calls
    included; and when it does call a provider, the state had been consumed
    and its key is gone. *)
Definition guards_upstream
    (h : option (list ascii) -> option (list ascii) -> Z -> M response) : Prop :=
  forall (code state : option (list ascii)) (clock : Z) (w : world),
    (missing code || missing state = true ->
     h code state clock w = (Return (error_json "Missing code or state"), w))
    /\ (missing code || missing state = false ->
        w_kv w !! state_key (unwrap state) = None ->
        h code state clock w = (Return (error_json "Invalid state"), w))
    /\ (missing code || missing state = false ->
        fst (consumeState (w_kv w) (unwrap state) clock) = false ->
        h code state clock w = (Return (error_json "Invalid state"), w))
    /\ (w_calls (snd (h code state clock w)) <> w_calls w ->
        missing code = false /\ missing state = false /\
        fst (consumeState (w_kv w) (unwrap state) clock) = true /\
        w_kv (snd (h code state clock w)) !! state_key (unwrap state) = None).

(** A step that leaves the key-value store as it is. *)
Definition keeps_kv {A} (m : M A) : Prop :=
  forall w, w_kv (snd (m w)) = w_kv w.

Definition empty_world : world :=
  {| w_kv := ∅; w_db := empty_db; w_calls := [] |}.




Definition bob_login (e : option (list ascii)) : upsert_call :=
  {| uc_provider := discord; uc_providerUserId := "77"%string;
     uc_profile := {| p_email := e;
                      p_username := Some ("bob"%string : list ascii);
                      p_displayName := None;
                      p_avatarUrl := Some ("https://cdn.example/b.png"%string : list ascii) |};
     uc_accessToken := "t2"%string;
     uc_uuid1 := "bbbb-0001"%string; uc_uuid2 := "bbbb-0002"%string; uc_clock := 2 |}.

(** The character of a six-bit group in the URL-safe alphabet. *)
Definition url_char (n : Z) : ascii :=
  nth (Z.to_nat n)
    ("ABCDEFGHIJKLMNOPQRSTUVWXYZabcdefghijklmnopqrstuvwxyz0123456789-_"%string : list ascii)
    "A"%char.

(** What follows a value in a text: nothing, or a comma or a closing
    bracket or brace. *)
Definition delimited (rest : list ascii) : Prop :=
  match rest with
  | [] => True
  | c :: _ => c = ","%char \/ c = "]"%char \/ c = "}"%char
  end.

Definition no_digit (rest : list ascii) : Prop :=
  match rest with
  | [] => True
  | c :: _ => Json.is_digit c = false
  end.

(** The written form of the elements of an array and of the members of an
    object, and the fuel that reading a value takes. *)
Definition elems_text : list json -> list ascii :=
  fix elems (l : list json) : list ascii :=
    match l with
    | [] => []
    | [x] => Json.stringify x
    | x :: l' => Json.stringify x ++ ","%string ++ elems l'
    end.

Definition members_text : list (list ascii * json) -> list ascii :=
  fix members (l : list (list ascii * json)) : list ascii :=
    match l with
    | [] => []
    | [(k, x)] => Json.quote k ++ ":"%string ++ Json.stringify x
    | (k, x) :: l' =>
        Json.quote k ++ ":"%string ++ Json.stringify x ++ ","%string ++ members l'
    end.

Fixpoint json_size (v : json) : nat :=
  match v with
  | JArr l =>
      S ((fix go (l : list json) : nat :=
            match l with
            | [] => O
            | x :: l' => S (json_size x + go l')
            end) l)
  | JObj l =>
      S ((fix go (l : list (list ascii * json)) : nat :=
            match l with
            | [] => O
            | (_, x) :: l' => S (json_size x + go l')
            end) l)
  | _ => 1%nat
  end.

Definition elems_size (l : list json) : nat :=
  fold_right (fun x n => S (json_size x + n)) O l.

Definition members_size (l : list (list ascii * json)) : nat :=
  fold_right (fun kx n => S (json_size (snd kx) + n)) O l.

(** The item that the reader makes of a character of a written string. *)
Definition item_of (c : ascii) : Json.item :=
  match Json.escape_char c with
  | [_] => Json.Lit c
  | _ => Json.Unit16 (code c)
  end.

(** The first character of a written value. *)
Definition value_start (c : ascii) : bool :=
  (code c =? 110) || (code c =? 116) || (code c =? 102) || (code c =? 34)
  || (code c =? 91) || (code c =? 123) || (code c =? 45) || Json.is_digit c.

(** Reading the written form of [v] gives [v] back, before any delimited
    rest and with enough fuel. *)
Definition reads_back (v : json) : Prop :=
  forall (fuel : nat) (rest : list ascii),
    (json_size v <= fuel)%nat ->
    delimited rest ->
    Json.parse_value fuel (Json.stringify v ++ rest) = Some (v, rest).

(** The [exp] property of a payload, and the text that [signJWT] signs. *)
Definition exp_of (payload : json) : option json :=
  match payload with
  | JObj l => obj_get "exp"%string l
  | _ => None
  end.

Definition signing_input (payload : json) : list ascii :=
  b64url (Utf8.encode (JSON_stringify jwt_header)) ++ "."%string
    ++ b64url (Utf8.encode (JSON_stringify payload)).

(** How the aggregator counts the outcome of a request: [fine] for a
    status from 200 to 299, [gone] for a status from 500 on and for a
    request that failed. *)
Definition fine (res : fetched) : bool :=
  match res with
  | Answered st => (200 <=? st) && (st <=? 299)
  | Failed _ => false
  end.

Definition gone (res : fetched) : bool :=
  match res with
  | Answered st => 500 <=? st
  | Failed _ => true
  end.

(** The answer of the status route with the given overall verdict. *)
Definition status_answer (overall : health) (ts : list ascii) (checks : list HealthCheck)
  : response :=
  c_json
    (JObj [("ok"%string : list ascii, JBool (negb (health_eqb overall hc_down)));
           ("status"%string : list ascii, health_json overall);
           ("ts"%string : list ascii, JStr ts);
           ("checks"%string : list ascii,
             JArr (map (fun ch => JObj (check_members ch)) checks))])
    (if health_eqb overall hc_down then 503 else 200).

(** A sample observation: the health endpoint answered with [st]. *)
Definition answered (st : Z) : observation :=
  {| ob_checked_at := "2025-01-01T00:00:00.000Z"%string; ob_start := 1000;
     ob_res := Answered st; ob_finish := 1042 |}.

(** The entry of the registry at place [i]. *)
Definition entry (i : nat) : WokProduct :=
  nth i PRODUCTS
    {| wp_slug := []; wp_name := []; wp_description := []; wp_url := [];
       wp_health_url := []; wp_status := archived; wp_tags := [] |}.

(** Reading a form-encoded text, as the URL standard has it: the text is
    cut at every ampersand, each piece at its first equals sign, a plus
    sign stands for a space and a percent sign with two hexadecimal digits
    for a byte; the bytes are decoded as UTF-8. *)
Definition hex_digit (c : ascii) : option Z :=
  let n := code c in
  if (48 <=? n) && (n <=? 57) then Some (n - 48)
  else if (65 <=? n) && (n <=? 70) then Some (n - 55)
  else if (97 <=? n) && (n <=? 102) then Some (n - 87)
  else None.

Fixpoint form_unescape (s : list ascii) : list ascii :=
  match s with
  | [] => []
  | c :: s' =>
      if code c =? 43 then " "%char :: form_unescape s'
      else if code c =? 37 then
        match s' with
        | h :: l :: s'' =>
            match hex_digit h, hex_digit l with
            | Some x, Some y => chr (16 * x + y) :: form_unescape s''
            | _, _ => c :: form_unescape s'
            end
        | _ => c :: form_unescape s'
        end
      else c :: form_unescape s'
  end.

Definition form_decode (s : list ascii) : list ascii :=
  Utf8.dec (form_unescape s) [] 0 128 191.

Definition parse_query (q : list ascii) : list (list ascii * list ascii) :=
  map (fun piece =>
         let name := take_until "=" piece in
         (form_decode name, form_decode (drop (S (length name)) piece)))
      (List.filter (fun piece => negb (bytes_eqb piece [])) (split_on "&" q)).

(** The characters of a form-encoded text. *)
Definition form_char (c : ascii) : bool :=
  form_safe c || (code c =? 43) || (code c =? 37).

(** The login route and the callback of a provider. *)
Definition login_route (p : provider) (env : Env) (rnd : list ascii) (clock : Z)
  : M response :=
  match p with
  | github => github_login env rnd clock
  | google => google_login env rnd clock
  | discord => discord_login env rnd clock
  end.

Definition callback_route (p : provider) (env : Env) (up : upstream)
    (code state : option (list ascii)) (uuid1 uuid2 : list ascii) (clock : Z)
  : M response :=
  match p with
  | github => github_callback env up code state uuid1 uuid2 clock
  | google => google_callback env up code state uuid1 uuid2 clock
  | discord => discord_callback env up code state uuid1 uuid2 clock
  end.

(** A step that only adds to the calls made. *)
Definition appends {A} (m : M A) : Prop :=
  forall w, exists l, w_calls (snd (m w)) = w_calls w ++ l.

(** Where the provider asks for consent, and the parameters of the request
    besides the client and the state. *)
Definition authorize_url (p : provider) : list ascii :=
  match p with
  | github => "https://github.com/login/oauth/authorize"%string
  | google => "https://accounts.google.com/o/oauth2/v2/auth"%string
  | discord => "https://discord.com/api/oauth2/authorize"%string
  end.

Definition client_id (p : provider) (env : Env) : list ascii :=
  match p with
  | github => GITHUB_CLIENT_ID env
  | google => GOOGLE_CLIENT_ID env
  | discord => DISCORD_CLIENT_ID env
  end.

Definition authorize_params (p : provider) (env : Env) (state : list ascii)
  : list (list ascii * list ascii) :=
  match p with
  | github =>
      [("client_id"%string : list ascii, client_id p env);
       ("redirect_uri"%string : list ascii,
         "https://api.wokspec.org/v1/auth/github/callback"%string : list ascii);
       ("scope"%string : list ascii, "user:email"%string : list ascii);
       ("state"%string : list ascii, state)]
  | google =>
      [("client_id"%string : list ascii, client_id p env);
       ("redirect_uri"%string : list ascii,
         "https://api.wokspec.org/v1/auth/google/callback"%string : list ascii);
       ("scope"%string : list ascii, "openid email profile"%string : list ascii);
       ("response_type"%string : list ascii, "code"%string : list ascii);
       ("state"%string : list ascii, state)]
  | discord =>
      [("client_id"%string : list ascii, client_id p env);
       ("redirect_uri"%string : list ascii,
         "https://api.wokspec.org/v1/auth/discord/callback"%string : list ascii);
       ("scope"%string : list ascii, "identify email"%string : list ascii);
       ("response_type"%string : list ascii, "code"%string : list ascii);
       ("state"%string : list ascii, state)]
  end.

(** The rows that a first login writes. *)
Definition new_user_row (uid : list ascii) (prof : profile) (clock : Z) : user_row :=
  {| u_id := uid; u_email := p_email prof; u_username := p_username prof;
     u_display_name := p_displayName prof; u_avatar_url := p_avatarUrl prof;
     u_created_at := clock; u_updated_at := clock |}.

Definition new_account_row (aid uid : list ascii) (p : provider) (pid token : list ascii)
    (clock : Z) : account_row :=
  {| a_id := aid; a_user_id := uid; a_provider := p; a_provider_user_id := pid;
     a_access_token := Some token; a_refresh_token := None; a_created_at := clock |}.


(** A text without the white space that [atob] passes over. *)
Definition without_space (s : list ascii) : list ascii :=
  List.filter (fun c => negb (Base64.is_ascii_whitespace c)) s.

(** The text [p] stands somewhere in [s]. *)
Fixpoint occurs (p s : list ascii) : bool :=
  match strip_prefix p s with
  | Some _ => true
  | None =>
      match s with
      | [] => false
      | _ :: s' => occurs p s'
      end
  end.

(** Sample providers that answer: every code is exchanged for the access
    token [at-1], which belongs to Cy. *)
Definition online : upstream :=
  {| exchange := fun _ _ =>
       Return {| td_access_token := Some ("at-1"%string : list ascii); td_error := None |};
     github_user := fun _ =>
       Return {| gh_id := 7; gh_login := "cy"%string; gh_name := None;
                 gh_avatar_url := "https://avatars.example/7"%string; gh_email := None |};
     github_emails := fun _ =>
       Return [{| ge_email := "cy@example.org"%string; ge_primary := true;
                  ge_verified := true |}];
     google_userinfo := fun _ =>
       Return {| g_id := "g-7"%string; g_email := "cy@example.org"%string;
                 g_name := "Cy"%string; g_picture := "https://pics.example/7"%string |};
     discord_user := fun _ =>
       Return {| d_id := "d-7"%string; d_username := "cy"%string; d_global_name := None;
                 d_email := None; d_avatar := None |} |}.

(** The request carries a session that the gate accepts as [user]. *)
Definition authenticates (env : Env) (db : D1Database) (clock : Z)
    (cookie : option (list ascii)) (user : AuthUser) : Prop :=
  exists token payload uid,
    match_session (match cookie with Some h => h | None => [] end) = Some token
    /\ verifyJWT token (JWT_SECRET env) clock = Return payload
    /\ falsy payload = false
    /\ get_prop payload "sub"%string = Return (Some (JStr uid))
    /\ select_user db uid = Some user.

(** The header holds a time stamp that is not stale and, as [v1], the code
    of the time stamp and the body under the secret. *)
Definition signed (secret : list ascii) (clock : Z) (body signature : list ascii) : Prop :=
  exists t v1,
    part "t"%string (sig_parts signature) = Some t
    /\ part "v1"%string (sig_parts signature) = Some v1
    /\ t <> []
    /\ stale clock t = false
    /\ v1 = stripe_signature secret t body.

(** A [stripe-signature] header with the given entries. *)
Fixpoint stripe_header (entries : list (list ascii * list ascii)) : list ascii :=
  match entries with
  | [] => []
  | (k, v) :: rest =>
      k ++ "="%string ++ v
        ++ match rest with
           | [] => []
           | _ :: _ => ","%string ++ stripe_header rest
           end
  end.

(** A text without commas and equals signs. *)
Definition plain (s : list ascii) : Prop :=
  Forall (fun c => c <> ","%char /\ c <> "="%char) s.

(** Sample settings of the booking routes, and an outside where every
    request and statement succeeds, Stripe answering with the session
    [cs_1]. *)
Definition sample_benv : BookingsEnv :=
  {| STRIPE_SECRET_KEY := "sk_test"%string; STRIPE_WEBHOOK_SECRET := "whsec"%string;
     RESEND_API_KEY := "re_key"%string |}.

Definition quiet : outside :=
  {| stripe_json := fun _ _ =>
       Return (JObj [("id"%string : list ascii, JStr "cs_1"%string);
                     ("url"%string : list ascii, JStr "https://checkout.stripe.com/c/cs_1"%string)]);
     d1_run := fun _ => Return tt;
     d1_all := fun _ => Return (JArr []) |}.

Definition sample_event : list ascii :=
  JSON_stringify
    (JObj [("type"%string : list ascii, JStr "checkout.session.completed"%string);
           ("data"%string : list ascii,
             JObj [("object"%string : list ascii,
                     JObj [("id"%string : list ascii, JStr "cs_1"%string);
                           ("payment_intent"%string : list ascii, JStr "pi_1"%string);
                           ("customer_email"%string : list ascii,
                             JStr "a@example.org"%string)])])]).

(** Ann, the user of the sample store. *)
Definition ann : AuthUser :=
  {| au_id := "u1"%string; au_email := Some ("a@example.org"%string : list ascii);
     au_username := Some ("ann"%string : list ascii); au_display_name := None;
     au_avatar_url := None |}.

(** A number that is at least, or at most, [a / 2^k]. *)
Definition at_least (x : Float.number) (a k : Z) : Prop :=
  exists m e,
    x = Float.Finite m e
    /\ a * snd (Float.fraction m e) <= fst (Float.fraction m e) * 2 ^ k.

Definition at_most (x : Float.number) (a k : Z) : Prop :=
  exists m e,
    x = Float.Finite m e
    /\ fst (Float.fraction m e) * 2 ^ k <= a * snd (Float.fraction m e).

(** * Properties *)

(** ** Bytes and strings *)

Lemma ascii_eqb_eq (a b : ascii) : ascii_eqb a b = true <-> a = b.
Proof. apply Ascii.eqb_eq. Qed.

Lemma ascii_eqb_refl (a : ascii) : ascii_eqb a a = true.
Proof. by apply ascii_eqb_eq. Qed.

Lemma ascii_eqb_neq (a b : ascii) : ascii_eqb a b = false <-> a <> b.
Proof. apply Ascii.eqb_neq. Qed.

Lemma bytes_eqb_eq (a b : list ascii) : bytes_eqb a b = true <-> a = b.
Proof.
  revert b. induction a as [|x a IH]; intros [|y b]; simpl; try done.
  rewrite andb_true_iff, ascii_eqb_eq, IH. split.
  - by intros [-> ->].
  - intros [= -> ->]. done.
Qed.

Lemma bytes_eqb_refl (a : list ascii) : bytes_eqb a a = true.
Proof. by apply bytes_eqb_eq. Qed.

Lemma bytes_eqb_neq (a b : list ascii) : bytes_eqb a b = false <-> a <> b.
Proof.
  rewrite <- bytes_eqb_eq. destruct (bytes_eqb a b); split; congruence.
Qed.

Lemma code_range (c : ascii) : 0 <= code c < 256.
Proof.
  unfold code. pose proof (N_ascii_bounded c). lia.
Qed.

Lemma chr_code (c : ascii) : chr (code c) = c.
Proof.
  unfold chr, code. rewrite N2Z.id. apply ascii_N_embedding.
Qed.

Lemma code_chr (z : Z) : 0 <= z < 256 -> code (chr z) = z.
Proof.
  intros H. unfold chr, code. rewrite N_ascii_embedding by lia. lia.
Qed.

Lemma code_inj (a b : ascii) : code a = code b -> a = b.
Proof. intros H. by rewrite <- (chr_code a), <- (chr_code b), H. Qed.

(** ** The verification steps of [verifyJWT] *)

(** A token whose signature is right is accepted or rejected by its payload
    alone. *)
Lemma verifyJWT_signed (token secret : list ascii) (clock : Z) :
  signature_ok token secret = true ->
  verifyJWT token secret clock =
    try_catch
      (payload <- decoded_payload token ;;
       exp <- get_prop payload "exp"%string ;;
       if is_number exp && num_lt exp (clock / 1000) then Return JNull
       else Return payload)
      (Return JNull).
Proof.
  unfold signature_ok, verifyJWT, decoded_payload.
  destruct (split_on "." token) as [|h [|b [|s [|? ?]]]]; try done.
  destruct (importKey secret) as [key|]; [|done].
  destruct (b64urlDecode s) as [sg|]; [|done].
  simpl. intros ->. simpl. by destruct (b64urlDecode b).
Qed.

(** A token with other than three segments is rejected, without raising. *)
Lemma verifyJWT_segments (token secret : list ascii) (clock : Z) :
  length (split_on "." token) <> 3%nat ->
  verifyJWT token secret clock = Return JNull.
Proof.
  unfold verifyJWT.
  by destruct (split_on "." token) as [|h [|b [|s [|? ?]]]].
Qed.

(** With three segments, [verifyJWT] raises exactly when the key cannot be
    imported or the third segment is not base64: these two steps are
    outside its [try]. *)
Lemma verifyJWT_raises (h b s secret : list ascii) (clock : Z) (token : list ascii) :
  split_on "." token = [h; b; s] ->
  returns (verifyJWT token secret clock)
  = returns (importKey secret) && returns (b64urlDecode s).
Proof.
  intros Hs. unfold verifyJWT. rewrite Hs.
  destruct (importKey secret) as [key|]; [|done].
  destruct (b64urlDecode s) as [sg|]; [|done]. simpl.
  destruct (negb _); [done|].
  by destruct (_ <- b64urlDecode b ;; _).
Qed.

(** C3. The claim is that [verifyJWT] never raises, in particular on a
    token of three segments that are not base64url. The code decodes the
    third segment before its [try]: on the token [a.b.c], which has three
    segments, [atob] raises and so does [verifyJWT]. *)
Theorem verifyJWT_raises_on_signature_segment :
  length (split_on "." "a.b.c"%string) = 3%nat /\
  verifyJWT "a.b.c"%string "s"%string 0 = Throw InvalidCharacterError.
Proof. split; reflexivity. Qed.




(** C9. A token with a right signature whose payload has no [exp], or an
    [exp] that is not a number, is accepted at every time. *)
Theorem verifyJWT_without_numeric_exp (token secret : list ascii)
    (payload : json) (x : option json) :
  signature_ok token secret = true ->
  decoded_payload token = Return payload ->
  get_prop payload "exp"%string = Return x ->
  is_number x = false ->
  forall clock : Z, verifyJWT token secret clock = Return payload.
Proof.
  intros Hsig Hdec Hexp Hnum clock.
  rewrite verifyJWT_signed by done.
  rewrite Hdec. cbn [rbind]. rewrite Hexp. cbn [rbind]. by rewrite Hnum.
Qed.

Lemma verifyJWT_without_numeric_exp_witness :
  let p1 := JObj [("sub"%string : list ascii, JStr "u1"%string)] in
  let p2 := JObj [("sub"%string : list ascii, JStr "u1"%string);
                  ("exp"%string : list ascii, JStr "1"%string)] in
  (forall clock, verifyJWT (token_of (signJWT p1 "secret"%string)) "secret"%string clock
                 = Return p1) /\
  (forall clock, verifyJWT (token_of (signJWT p2 "secret"%string)) "secret"%string clock
                 = Return p2).
Proof.
  split.
  - apply (verifyJWT_without_numeric_exp _ _ _ None); vm_compute; reflexivity.
  - apply (verifyJWT_without_numeric_exp _ _ _ (Some (JStr "1"%string)));
      vm_compute; reflexivity.
Defined.

(** ** The auth gate and [/me] *)

Ltac case_result :=
  match goal with
  | |- context [match ?r with Return _ => _ | Throw _ => _ end] => destruct r eqn:?
  | |- context [rbind ?r _] => destruct r eqn:?; cbn [rbind]
  end.

(** The decision that [requireAuth] and [me] share: a refusal, a raise, or
    the user the token names. *)
Lemma requireAuth_cases (env : Env) (db : D1Database) (clock : Z)
    (cookie : option (list ascii)) :
  let header := match cookie with Some h => h | None => [] end in
  (exists m1 m2 : string,
      me env db clock cookie = Return (me_error m1) /\
      forall next, requireAuth env db clock cookie next = Return (unauthorized m2))
  \/ (exists e,
      me env db clock cookie = Throw e /\
      forall next, requireAuth env db clock cookie next = Throw e)
  \/ (exists token payload uid user,
      match_session header = Some token /\
      verifyJWT token (JWT_SECRET env) clock = Return payload /\
      falsy payload = false /\
      get_prop payload "sub"%string = Return (Some (JStr uid)) /\
      select_user db uid = Some user /\
      me env db clock cookie
      = Return (c_json (JObj [("ok"%string : list ascii, JBool true);
                              ("user"%string : list ascii, user_json user)]) 200) /\
      forall next, requireAuth env db clock cookie next = next user).
Proof.
  intros header. unfold me, requireAuth. fold header.
  destruct (match_session header) as [token|] eqn:Hm; [|left; by eexists _, _].
  destruct (verifyJWT token (JWT_SECRET env) clock) as [payload|e] eqn:Hv;
    cbn [rbind]; [|right; left; by eexists].
  destruct (falsy payload) eqn:Hf; [left; by eexists _, _|].
  destruct (get_prop payload "sub"%string) as [sub|e] eqn:Hs;
    cbn [rbind]; [|right; left; by eexists].
  destruct sub as [[| | | |uid| |]|]; try (left; by eexists _, _).
  destruct (select_user db uid) as [user|] eqn:Hu; [|left; by eexists _, _].
  right; right. by eexists token, payload, uid, user.
Qed.

(** C10. [/auth/me] and [requireAuth] decide alike: both answer 401, or
    both raise, or both resolve the same user record, which [/me] returns
    and [requireAuth] hands to the wrapped operation. *)
Theorem me_requireAuth_agree (env : Env) (db : D1Database) (clock : Z)
    (cookie : option (list ascii)) :
  (exists r1 r2,
      me env db clock cookie = Return r1 /\ status r1 = 401 /\
      (forall next, requireAuth env db clock cookie next = Return r2) /\
      status r2 = 401)
  \/ (exists e,
      me env db clock cookie = Throw e /\
      forall next, requireAuth env db clock cookie next = Throw e)
  \/ (exists user,
      me env db clock cookie
      = Return (c_json (JObj [("ok"%string : list ascii, JBool true);
                              ("user"%string : list ascii, user_json user)]) 200) /\
      forall next, requireAuth env db clock cookie next = next user).
Proof.
  destruct (requireAuth_cases env db clock cookie)
    as [(m1 & m2 & H1 & H2)|[(e & H1 & H2)|(t & p & uid & u & _ & _ & _ & _ & _ & H1 & H2)]].
  - left. by exists (me_error m1), (unauthorized m2).
  - right; left. by exists e.
  - right; right. by exists u.
Qed.

(** A token with three segments whose third one decodes to something else
    than the code of the first two is rejected. *)
Lemma verifyJWT_wrong_signature (token secret h b s sg : list ascii) (clock : Z) :
  secret <> [] ->
  split_on "." token = [h; b; s] ->
  b64urlDecode s = Return sg ->
  subtle_verify secret sg (Utf8.encode (h ++ "."%string ++ b)) = false ->
  verifyJWT token secret clock = Return JNull.
Proof.
  intros Hne Hs Hd Hv. unfold verifyJWT. rewrite Hs.
  unfold importKey, Utf8.encode. destruct secret as [|c secret]; [done|].
  cbn [rbind]. rewrite Hd. cbn [rbind]. unfold Utf8.encode in Hv. by rewrite Hv.
Qed.

(** A property read is only possible on a value that is not [null]; of
    the values with a property, none is falsy. *)
Lemma get_prop_some_truthy (v : json) (k : list ascii) (x : json) :
  get_prop v k = Return (Some x) -> falsy v = false.
Proof. by destruct v as [| | | | | |l]. Qed.

(** C6. The auth gate answers the unauthenticated failure when the session
    cookie is missing, when its token has three segments and a wrong
    signature, and when its token is accepted but names no stored user; in
    every case the gate either refuses or raises, whatever the wrapped
    operation is, or hands it the stored user that the verified token names. *)
Theorem requireAuth_gate (env : Env) (db : D1Database) (clock : Z)
    (cookie : option (list ascii)) :
  let header := match cookie with Some h => h | None => [] end in
  (match_session header = None ->
   forall next,
     requireAuth env db clock cookie next = Return (unauthorized "Not authenticated"))
  /\ (forall token h b s sg,
         match_session header = Some token ->
         JWT_SECRET env <> [] ->
         split_on "." token = [h; b; s] ->
         b64urlDecode s = Return sg ->
         subtle_verify (JWT_SECRET env) sg (Utf8.encode (h ++ "."%string ++ b)) = false ->
         forall next,
           requireAuth env db clock cookie next = Return (unauthorized "Invalid session"))
  /\ (forall token payload uid,
         match_session header = Some token ->
         verifyJWT token (JWT_SECRET env) clock = Return payload ->
         get_prop payload "sub"%string = Return (Some (JStr uid)) ->
         select_user db uid = None ->
         forall next,
           requireAuth env db clock cookie next = Return (unauthorized "User not found"))
  /\ ((exists m : string,
          forall next, requireAuth env db clock cookie next = Return (unauthorized m))
      \/ (exists e, forall next, requireAuth env db clock cookie next = Throw e)
      \/ (exists token payload uid user,
             match_session header = Some token /\
             verifyJWT token (JWT_SECRET env) clock = Return payload /\
             falsy payload = false /\
             get_prop payload "sub"%string = Return (Some (JStr uid)) /\
             select_user db uid = Some user /\
             forall next, requireAuth env db clock cookie next = next user)).
Proof.
  intros header. split; [|split; [|split]].
  - intros Hm next. unfold requireAuth. fold header. by rewrite Hm.
  - intros token h b s sg Hm Hne Hs Hd Hv next. unfold requireAuth. fold header.
    rewrite Hm, (verifyJWT_wrong_signature token _ h b s sg) by done. done.
  - intros token payload uid Hm Hv Hsub Hu next. unfold requireAuth. fold header.
    rewrite Hm, Hv. cbn [rbind].
    rewrite (get_prop_some_truthy _ _ _ Hsub), Hsub. cbn [rbind]. by rewrite Hu.
  - destruct (requireAuth_cases env db clock cookie)
      as [(m1 & m2 & _ & H)|[(e & _ & H)|(t & p & uid & u & ? & ? & ? & ? & ? & _ & H)]].
    + left. by exists m2.
    + right; left. by exists e.
    + right; right. by exists t, p, uid, u.
Qed.

Lemma requireAuth_gate_witness :
  let wrong := token_of (signJWT (session_payload "u1"%string 605800) "other"%string) in
  let ghost := token_of (signJWT (session_payload "u2"%string 605800) "secret"%string) in
  let good := token_of (signJWT (session_payload "u1"%string 605800) "secret"%string) in
  (forall next,
      requireAuth sample_env sample_db 0 None next
      = Return (unauthorized "Not authenticated"))
  /\ (forall next,
      requireAuth sample_env sample_db 0 (cookie_of wrong) next
      = Return (unauthorized "Invalid session"))
  /\ (forall next,
      requireAuth sample_env sample_db 0 (cookie_of ghost) next
      = Return (unauthorized "User not found"))
  /\ (forall next,
      requireAuth sample_env sample_db 0 (cookie_of good) next
      = next {| au_id := "u1"%string; au_email := Some ("a@example.org"%string : list ascii);
                au_username := Some ("ann"%string : list ascii);
                au_display_name := None; au_avatar_url := None |}).
Proof.
  intros wrong ghost good. split; [|split; [|split]].
  - apply (requireAuth_gate sample_env sample_db 0 None). reflexivity.
  - pose proof (proj1 (proj2 (requireAuth_gate sample_env sample_db 0 (cookie_of wrong)))) as H.
    eapply (H wrong); [vm_compute; reflexivity | done | vm_compute; reflexivity
                      | vm_compute; reflexivity | vm_compute; reflexivity].
  - pose proof (proj1 (proj2 (proj2
        (requireAuth_gate sample_env sample_db 0 (cookie_of ghost))))) as H.
    eapply (H ghost (session_payload "u2"%string 605800) "u2"%string);
      vm_compute; reflexivity.
  - intros next. vm_compute. reflexivity.
Defined.

(** ** The nonce store *)

Lemma consumeState_absent (kv : gmap (list ascii) kv_entry) (state : list ascii) (clock : Z) :
  kv !! state_key state = None -> consumeState kv state clock = (false, kv).
Proof. intros H. unfold consumeState, kv_get. by rewrite H. Qed.

Lemma consumeState_false (kv : gmap (list ascii) kv_entry) (state : list ascii) (clock : Z) :
  fst (consumeState kv state clock) = false -> consumeState kv state clock = (false, kv).
Proof.
  unfold consumeState. by destruct (kv_get kv (state_key state) clock) as [[|c v]|].
Qed.

Lemma consumeState_true (kv : gmap (list ascii) kv_entry) (state : list ascii) (clock : Z) :
  fst (consumeState kv state clock) = true ->
  consumeState kv state clock = (true, delete (state_key state) kv).
Proof.
  unfold consumeState. by destruct (kv_get kv (state_key state) clock) as [[|c v]|].
Qed.

(** ** The callbacks *)

Lemma keeps_kv_ret {A} (a : A) : keeps_kv (mret a).
Proof. done. Qed.

Lemma keeps_kv_lift {A} (r : result A) : keeps_kv (lift r).
Proof. done. Qed.

Lemma keeps_kv_fetch {A} (c : upstream_call) (r : result A) : keeps_kv (fetch c r).
Proof. done. Qed.

Lemma keeps_kv_upsert p pid prof token uuid1 uuid2 clock :
  keeps_kv (upsert p pid prof token uuid1 uuid2 clock).
Proof. intros w. unfold upsert. by destruct (upsertUser _ _ _ _ _ _ _ _). Qed.

Lemma keeps_kv_bind {A B} (m : M A) (k : A -> M B) :
  keeps_kv m -> (forall a, keeps_kv (k a)) -> keeps_kv (mbind' m k).
Proof.
  intros Hm Hk w. unfold mbind'. specialize (Hm w).
  destruct (m w) as [[a|e] w']; simpl in *; [|done]. by rewrite Hk.
Qed.

Lemma keeps_kv_if {A} (b : bool) (m1 m2 : M A) :
  keeps_kv m1 -> keeps_kv m2 -> keeps_kv (if b then m1 else m2).
Proof. by destruct b. Qed.

Ltac keeps_kv :=
  repeat first
    [ apply keeps_kv_ret | apply keeps_kv_lift | apply keeps_kv_fetch
    | apply keeps_kv_upsert | apply keeps_kv_if
    | apply keeps_kv_bind; [|intros ?] ].

(** A handler that checks the parameters, consumes the state and only then
    goes on, with steps that leave the key-value store alone. *)
Lemma guards_upstream_intro
    (h : option (list ascii) -> option (list ascii) -> Z -> M response)
    (rest : option (list ascii) -> Z -> M response) :
  (forall code state clock,
      h code state clock =
        if missing code || missing state then mret (error_json "Missing code or state")
        else mbind' (consume (unwrap state) clock)
               (fun ok => if negb ok then mret (error_json "Invalid state")
                          else rest code clock)) ->
  (forall code clock, keeps_kv (rest code clock)) ->
  guards_upstream h.
Proof.
  intros Hh Hrest code state clock w. rewrite Hh.
  assert (Hfalse : missing code || missing state = false ->
                   fst (consumeState (w_kv w) (unwrap state) clock) = false ->
                   mbind' (consume (unwrap state) clock)
                     (fun ok => if negb ok then mret (error_json "Invalid state")
                                else rest code clock) w
                   = (Return (error_json "Invalid state"), w)).
  { intros _ Hc. unfold mbind', consume. rewrite (consumeState_false _ _ _ Hc).
    by destruct w. }
  split; [|split; [|split]].
  - by intros ->.
  - intros Hm Hk. rewrite Hm. apply Hfalse; [done|].
    by rewrite consumeState_absent.
  - intros Hm Hc. rewrite Hm. by apply Hfalse.
  - destruct (missing code || missing state) eqn:Hm; [done|].
    apply orb_false_iff in Hm as [Hm1 Hm2].
    destruct (fst (consumeState (w_kv w) (unwrap state) clock)) eqn:Hc.
    + intros _. repeat split; try done.
      unfold mbind', consume. rewrite (consumeState_true _ _ _ Hc). cbn [negb].
      rewrite Hrest. cbn [w_kv]. apply lookup_delete_eq.
    + rewrite Hfalse by (done || by rewrite Hm1, Hm2).
      cbn [snd]. intros H. by destruct H.
Qed.

Lemma github_callback_guards (env : Env) (up : upstream) (uuid1 uuid2 : list ascii) :
  guards_upstream (fun code state clock =>
                     github_callback env up code state uuid1 uuid2 clock).
Proof.
  eapply guards_upstream_intro with
    (rest := fun code clock => mbind' (fetch _ _) _).
  - intros code state clock. unfold github_callback. reflexivity.
  - intros code clock. keeps_kv.
Qed.

Lemma google_callback_guards (env : Env) (up : upstream) (uuid1 uuid2 : list ascii) :
  guards_upstream (fun code state clock =>
                     google_callback env up code state uuid1 uuid2 clock).
Proof.
  eapply guards_upstream_intro with
    (rest := fun code clock => mbind' (fetch _ _) _).
  - intros code state clock. unfold google_callback. reflexivity.
  - intros code clock. keeps_kv.
Qed.

Lemma discord_callback_guards (env : Env) (up : upstream) (uuid1 uuid2 : list ascii) :
  guards_upstream (fun code state clock =>
                     discord_callback env up code state uuid1 uuid2 clock).
Proof.
  eapply guards_upstream_intro with
    (rest := fun code clock => mbind' (fetch _ _) _).
  - intros code state clock. unfold discord_callback. reflexivity.
  - intros code clock. keeps_kv.
Qed.

(** C8. In each of the three callbacks a request without [code] or [state],
    or with a [state] that was never issued or cannot be consumed, gets the
    client failure and no provider is called; a provider is called only
    after the state nonce has been consumed. *)
Theorem callbacks_guard_upstream (env : Env) (up : upstream) (uuid1 uuid2 : list ascii) :
  guards_upstream (fun code state clock =>
                     github_callback env up code state uuid1 uuid2 clock)
  /\ guards_upstream (fun code state clock =>
                        google_callback env up code state uuid1 uuid2 clock)
  /\ guards_upstream (fun code state clock =>
                        discord_callback env up code state uuid1 uuid2 clock).
Proof.
  split; [|split].
  - apply github_callback_guards.
  - apply google_callback_guards.
  - apply discord_callback_guards.
Qed.

Lemma callbacks_guard_upstream_witness :
  let issued := generateState ∅ "0123456789abcdef"%string 0 in
  let w := {| w_kv := snd issued; w_db := empty_db; w_calls := [] |} in
  github_callback sample_env offline (Some ("c"%string : list ascii))
    (Some ("never-issued"%string : list ascii)) [] [] 0 empty_world
  = (Return (error_json "Invalid state"), empty_world)
  /\ google_callback sample_env offline None (Some (fst issued)) [] [] 0 w
     = (Return (error_json "Missing code or state"), w)
  /\ (w_calls (snd (discord_callback sample_env offline (Some ("c"%string : list ascii))
                      (Some (fst issued)) [] [] 1 w)) = [TokenExchange discord "c"%string]
      /\ fst (consumeState (w_kv w) (fst issued) 1) = true
      /\ w_kv (snd (discord_callback sample_env offline (Some ("c"%string : list ascii))
                      (Some (fst issued)) [] [] 1 w)) !! state_key (fst issued) = None).
Proof.
  intros issued w.
  destruct (callbacks_guard_upstream sample_env offline [] []) as (Hgh & Hgo & Hdi).
  split; [|split; [|split]].
  - apply (proj1 (proj2 (Hgh (Some ("c"%string : list ascii))
                              (Some ("never-issued"%string : list ascii)) 0 empty_world)));
      [reflexivity | apply lookup_empty].
  - apply (proj1 (Hgo None (Some (fst issued)) 0 w)). reflexivity.
  - vm_compute. reflexivity.
  - apply (proj2 (proj2 (proj2 (Hdi (Some ("c"%string : list ascii))
                                     (Some (fst issued)) 1 w)))).
    vm_compute. discriminate.
Defined.





Lemma state_key_inj (s n : list ascii) : state_key s = state_key n -> s = n.
Proof. unfold state_key. apply app_inv_head. Qed.

Lemma generateState_lookup (kv : gmap (list ascii) kv_entry) (rnd : list ascii) (t : Z) :
  snd (generateState kv rnd t) !! state_key (fst (generateState kv rnd t))
  = Some {| kv_value := "1"%string; kv_expiration := t + 600 * 1000 |}.
Proof. unfold generateState, kv_put. cbn [fst snd]. apply lookup_insert_eq. Qed.

(** A call that does not issue [n] leaves the entry of [n] as it is or
    removes it; one that does not consume [n] either leaves it as it is. *)
Lemma run_op_lookup (kv : gmap (list ascii) kv_entry) (o : nonce_op * Z) (n : list ascii) :
  ~ issues n o ->
  (run_op kv o !! state_key n = None \/ run_op kv o !! state_key n = kv !! state_key n)
  /\ (~ consumes n o -> run_op kv o !! state_key n = kv !! state_key n).
Proof.
  destruct o as [[rnd|s] t]; cbn [issues consumes run_op]; intros Hi.
  - assert (state_key (concat (map hex2 rnd)) <> state_key n)
      by (intros H; by apply state_key_inj in H).
    unfold generateState, kv_put. cbn [snd fst] in *.
    rewrite lookup_insert_ne by done. auto.
  - unfold consumeState.
    destruct (kv_get kv (state_key s) t) as [[|c v]|]; cbn [snd]; auto.
    unfold kv_delete. split.
    + destruct (decide (state_key s = state_key n)) as [->|Hne].
      * left. apply lookup_delete_eq.
      * right. by apply lookup_delete_ne.
    + intros Hc. apply lookup_delete_ne. intros H. by apply state_key_inj in H.
Qed.

Lemma run_ops_lookup_same (ops : list (nonce_op * Z)) (kv : gmap (list ascii) kv_entry)
    (n : list ascii) :
  Forall (fun o => ~ issues n o /\ ~ consumes n o) ops ->
  run_ops kv ops !! state_key n = kv !! state_key n.
Proof.
  revert kv. induction ops as [|o ops IH]; intros kv Hf; [done|].
  apply Forall_cons in Hf as [[Hi Hc] Hf]. unfold run_ops. cbn [fold_left].
  fold (run_ops (run_op kv o) ops). rewrite IH by done.
  by apply run_op_lookup.
Qed.

Lemma run_ops_lookup_weak (ops : list (nonce_op * Z)) (kv : gmap (list ascii) kv_entry)
    (n : list ascii) :
  Forall (fun o => ~ issues n o) ops ->
  run_ops kv ops !! state_key n = None \/
  run_ops kv ops !! state_key n = kv !! state_key n.
Proof.
  revert kv. induction ops as [|o ops IH]; intros kv Hf; [by right|].
  apply Forall_cons in Hf as [Hi Hf]. unfold run_ops. cbn [fold_left].
  fold (run_ops (run_op kv o) ops).
  destruct (IH (run_op kv o) Hf) as [H|H]; [by left|]. rewrite H.
  by apply run_op_lookup.
Qed.

Lemma consumeState_expired (kv : gmap (list ascii) kv_entry) (n : list ascii) (t : Z)
    (e : kv_entry) :
  kv !! state_key n = Some e -> kv_expiration e <= t -> consumeState kv n t = (false, kv).
Proof.
  intros H Ht. unfold consumeState, kv_get. rewrite H.
  destruct (Z.ltb_spec t (kv_expiration e)); [lia|done].
Qed.

(** C4. A nonce that [generateState] has returned is consumed once: the
    first [consumeState] for it, before its 600 seconds are over, returns
    true and removes its key; every later one returns false, as long as the
    same nonce is not issued again. A nonce whose time is over, or that was
    never issued, is not consumed. Other nonces may be issued and consumed
    in between. *)
Theorem nonce_consumed_once (kv : gmap (list ascii) kv_entry) (rnd : list ascii) (t0 : Z) :
  let n := fst (generateState kv rnd t0) in
  let kv1 := snd (generateState kv rnd t0) in
  (forall ops t1,
      Forall (fun o => ~ issues n o /\ ~ consumes n o) ops ->
      t1 < t0 + 600 * 1000 ->
      let kv2 := run_ops kv1 ops in
      consumeState kv2 n t1 = (true, kv_delete kv2 (state_key n)) /\
      kv_delete kv2 (state_key n) !! state_key n = None /\
      forall ops' t2,
        Forall (fun o => ~ issues n o) ops' ->
        let kv3 := run_ops (kv_delete kv2 (state_key n)) ops' in
        consumeState kv3 n t2 = (false, kv3))
  /\ (forall ops t1,
         Forall (fun o => ~ issues n o) ops ->
         t0 + 600 * 1000 <= t1 ->
         consumeState (run_ops kv1 ops) n t1 = (false, run_ops kv1 ops))
  /\ (forall ops m t,
         Forall (fun o => ~ issues m o) ops ->
         consumeState (run_ops ∅ ops) m t = (false, run_ops ∅ ops)).
Proof.
  intros n kv1.
  pose proof (generateState_lookup kv rnd t0) as Hk. fold n kv1 in Hk.
  split; [|split].
  - intros ops t1 Hops Ht1 kv2.
    assert (Hk2 : kv2 !! state_key n = Some {| kv_value := "1"%string;
                                               kv_expiration := t0 + 600 * 1000 |})
      by (unfold kv2; by rewrite run_ops_lookup_same).
    split; [|split].
    + unfold consumeState, kv_get. rewrite Hk2. cbn [kv_expiration kv_value].
      destruct (Z.ltb_spec t1 (t0 + 600 * 1000)); [done|lia].
    + apply lookup_delete_eq.
    + intros ops' t2 Hops' kv3. apply consumeState_absent.
      destruct (run_ops_lookup_weak ops' (kv_delete kv2 (state_key n)) n Hops') as [H|H];
        [done|]. fold kv3 in H. rewrite H. apply lookup_delete_eq.
  - intros ops t1 Hops Ht1.
    destruct (run_ops_lookup_weak ops kv1 n Hops) as [H|H].
    + by apply consumeState_absent.
    + rewrite Hk in H. by eapply consumeState_expired.
  - intros ops m t Hops. apply consumeState_absent.
    destruct (run_ops_lookup_weak ops ∅ m Hops) as [H|H]; [done|].
    rewrite H. apply lookup_empty.
Qed.

Lemma nonce_consumed_once_witness :
  let rnd : list ascii := "0123456789abcdef"%string in
  let n := fst (generateState ∅ rnd 0) in
  let kv1 := snd (generateState ∅ rnd 0) in
  let between := [(Issue "fedcba9876543210"%string, 5); (Consume "00"%string, 6)] in
  let kv2 := run_ops kv1 between in
  let later := [(Consume n, 8); (Issue "ffffffffffffffff"%string, 9)] in
  n = "30313233343536373839616263646566"%string
  /\ consumeState kv2 n 599999 = (true, kv_delete kv2 (state_key n))
  /\ (let kv3 := run_ops (kv_delete kv2 (state_key n)) later in
      consumeState kv3 n 10 = (false, kv3))
  /\ consumeState (run_ops kv1 between) n 600000 = (false, run_ops kv1 between)
  /\ consumeState (run_ops ∅ between) n 7 = (false, run_ops ∅ between).
Proof.
  intros rnd n kv1 between kv2 later.
  destruct (nonce_consumed_once ∅ rnd 0) as (H1 & H2 & H3).
  assert (Hb : Forall (fun o => ~ issues n o /\ ~ consumes n o) between)
    by (repeat constructor; vm_compute; intros H; first [discriminate H | exact H]).
  assert (Hb' : Forall (fun o => ~ issues n o) between)
    by (repeat constructor; vm_compute; intros H; first [discriminate H | exact H]).
  assert (Hl : Forall (fun o => ~ issues n o) later)
    by (repeat constructor; vm_compute; intros H; first [discriminate H | exact H]).
  destruct (H1 between 599999 Hb) as (Ha & _ & Hc); [lia|].
  split; [reflexivity|]. split; [exact Ha|]. split; [exact (Hc later 10 Hl)|].
  split; [apply (H2 between 600000 Hb'); lia | exact (H3 between n 7 Hb')].
Defined.

(** ** The relational store *)

Lemma existsb_false_iff {A} (f : A -> bool) (l : list A) :
  existsb f l = false <-> forall x, x ∈ l -> f x = false.
Proof.
  induction l as [|y l IH]; simpl.
  - split; [|done]. intros _ x Hx. by apply elem_of_nil in Hx.
  - rewrite orb_false_iff, IH. split.
    + intros [Hy Hl] x Hx. apply elem_of_cons in Hx as [->|Hx]; auto.
    + intros H. split; [|intros x Hx]; apply H; [left|by right].
Qed.

Lemma existsb_true_iff {A} (f : A -> bool) (l : list A) :
  existsb f l = true <-> exists x, x ∈ l /\ f x = true.
Proof.
  rewrite existsb_exists. by setoid_rewrite list_elem_of_In.
Qed.

Lemma opt_eqb_eq (a b : option (list ascii)) : opt_eqb a b = true <-> a = b.
Proof.
  destruct a, b; simpl; try (split; done).
  rewrite bytes_eqb_eq. split; congruence.
Qed.

Lemma provider_eqb_eq (p q : provider) : provider_eqb p q = true <-> p = q.
Proof. destruct p, q; simpl; split; done. Qed.

Lemma account_matches_iff (p : provider) (pid : list ascii) (a : account_row) :
  account_matches p pid a = true <->
  (a_provider a, a_provider_user_id a) = (p, pid).
Proof.
  unfold account_matches. rewrite andb_true_iff, provider_eqb_eq, bytes_eqb_eq.
  split; [by intros [-> ->]|by intros [= -> ->]].
Qed.

Lemma email_taken_false (rows : list user_row) (uid x : list ascii) :
  email_taken rows uid (Some x) = false <->
  forall r, r ∈ rows -> u_email r = Some x -> u_id r = uid.
Proof.
  unfold email_taken. rewrite existsb_false_iff. split; intros H r Hr.
  - intros He. specialize (H r Hr). rewrite He in H.
    rewrite (proj2 (opt_eqb_eq _ _) eq_refl), andb_true_r in H.
    apply negb_false_iff in H. by apply bytes_eqb_eq.
  - destruct (opt_eqb (u_email r) (Some x)) eqn:He; [|by rewrite andb_false_r].
    apply opt_eqb_eq in He. rewrite (H r Hr He), bytes_eqb_refl. done.
Qed.

Lemma emails_elem (rows : list user_row) (x : list ascii) :
  x ∈ emails rows <-> exists r, r ∈ rows /\ u_email r = Some x.
Proof. unfold emails. rewrite list_elem_of_omap. naive_solver. Qed.

Lemma db_ok_empty : db_ok empty_db.
Proof. split; simpl; constructor. Qed.

Lemma update_access_token_ok (db : D1Database) (token : list ascii) (p : provider)
    (pid : list ascii) :
  db_ok db -> db_ok (update_access_token db token p pid).
Proof.
  intros [H1 H2 H3 H4 H5].
  set (f := fun a : account_row =>
              if account_matches p pid a then
                {| a_id := a_id a; a_user_id := a_user_id a; a_provider := a_provider a;
                   a_provider_user_id := a_provider_user_id a;
                   a_access_token := Some token;
                   a_refresh_token := a_refresh_token a; a_created_at := a_created_at a |}
              else a).
  assert (Hf : forall a, a_id (f a) = a_id a /\ a_user_id (f a) = a_user_id a /\
                         a_provider (f a) = a_provider a /\
                         a_provider_user_id (f a) = a_provider_user_id a).
  { intros a. unfold f. by destruct (account_matches p pid a). }
  unfold update_access_token. fold f. split; cbn [users oauth_accounts]; try done.
  - rewrite map_map. erewrite map_ext; [done|]. intros a. apply Hf.
  - rewrite map_map. erewrite map_ext; [done|]. intros a. cbn beta.
    destruct (Hf a) as (_ & _ & -> & ->). done.
  - apply Forall_forall. intros a' Ha'. apply list_elem_of_In, in_map_iff in Ha'.
    destruct Ha' as (a & <- & Ha). destruct (Hf a) as (_ & -> & _).
    rewrite Forall_forall in H5. by apply H5, list_elem_of_In.
Qed.

(** The profile update, as a function on rows. *)
Lemma update_user_profile_rows (db db' : D1Database)
    (e dn av : option (list ascii)) (uid : list ascii) (clock : Z) :
  update_user_profile db e dn av uid clock = Return db' ->
  oauth_accounts db' = oauth_accounts db /\
  map u_id (users db') = map u_id (users db) /\
  exists f : user_row -> user_row,
    users db' = map f (users db) /\
    (forall r, u_id (f r) = u_id r) /\
    (forall r, u_id r <> uid -> f r = r) /\
    (forall r, u_id r = uid ->
               u_email (f r) = coalesce e (u_email r) /\
               u_username (f r) = u_username r /\
               u_display_name (f r) = coalesce dn (u_display_name r) /\
               u_avatar_url (f r) = coalesce av (u_avatar_url r)).
Proof.
  unfold update_user_profile. destruct (_ && _); [done|]. intros [= <-].
  cbn [users oauth_accounts].
  set (f := fun r : user_row => if bytes_eqb (u_id r) uid then _ else r).
  assert (Hid : forall r, u_id (f r) = u_id r)
    by (intros r; unfold f; by destruct (bytes_eqb (u_id r) uid)).
  split; [done|]. split.
  - rewrite map_map. by apply map_ext.
  - exists f. split; [done|]. split; [done|]. split.
    + intros r Hr. unfold f. by rewrite (proj2 (bytes_eqb_neq _ _) Hr).
    + intros r Hr. unfold f. by rewrite (proj2 (bytes_eqb_eq _ _) Hr).
Qed.



Lemma emails_cons (r : user_row) (rows : list user_row) :
  emails (r :: rows) =
    match u_email r with Some x => x :: emails rows | None => emails rows end.
Proof. done. Qed.

(** Uniqueness of the e-mail addresses after the update of one row. *)
Lemma emails_after_update (rows : list user_row) (f : user_row -> user_row)
    (uid : list ascii) (e : option (list ascii)) :
  NoDup (map u_id rows) ->
  NoDup (emails rows) ->
  (forall r, u_id r <> uid -> f r = r) ->
  (forall r, u_id r = uid -> u_email (f r) = coalesce e (u_email r)) ->
  (forall x, e = Some x -> forall r, r ∈ rows -> u_email r = Some x -> u_id r = uid) ->
  NoDup (emails (map f rows)).
Proof.
  intros Hids Hem Hother Hself Hfree.
  destruct e as [x|].
  2:{ assert (Heq : emails (map f rows) = emails rows); [|by rewrite Heq].
      clear Hids Hem Hfree.
      induction rows as [|r rows IH]; [done|]. cbn [map]. rewrite !emails_cons.
      assert (u_email (f r) = u_email r) as ->; [|by rewrite IH].
      destruct (decide (u_id r = uid)) as [H|H].
      - by rewrite Hself.
      - by rewrite Hother. }
  specialize (Hfree x eq_refl).
  induction rows as [|r rows IH]; [constructor|].
  cbn [map] in *. rewrite emails_cons in *.
  apply NoDup_cons in Hids as [Hr Hids].
  assert (Hrows : forall y, y ∈ emails (map f rows) -> y = x \/ y ∈ emails rows).
  { intros y Hy. apply emails_elem in Hy as (r' & Hr' & Hy).
    apply list_elem_of_In, in_map_iff in Hr'. destruct Hr' as (r0 & <- & Hr0).
    apply list_elem_of_In in Hr0.
    destruct (decide (u_id r0 = uid)) as [H|H].
    - rewrite Hself in Hy by done. left. simpl in Hy. congruence.
    - rewrite Hother in Hy by done. right. apply emails_elem. eauto. }
  assert (Htail : NoDup (emails (map f rows))).
  { apply IH; [done| |].
    - destruct (u_email r); [by apply NoDup_cons in Hem as [_ ?]|done].
    - intros r' Hr'. apply Hfree. by right. }
  destruct (decide (u_id r = uid)) as [Hu|Hu].
  - rewrite Hself by done. cbn [coalesce]. apply NoDup_cons. split; [|done].
    intros Hx. apply emails_elem in Hx as (r' & Hr' & Hx).
    apply list_elem_of_In, in_map_iff in Hr'. destruct Hr' as (r0 & <- & Hr0).
    apply list_elem_of_In in Hr0.
    assert (u_id r0 <> uid).
    { intros H0. apply Hr. rewrite Hu, <- H0. apply list_elem_of_In, in_map.
      by apply list_elem_of_In. }
    rewrite Hother in Hx by done.
    apply (Hfree r0) in Hx; [done|by right].
  - rewrite Hother by done. destruct (u_email r) as [y|] eqn:Hy; [|done].
    apply NoDup_cons. split; [|done].
    intros Hin. apply Hrows in Hin as [->|Hin].
    + apply Hu. apply Hfree; [by left|done].
    + by apply NoDup_cons in Hem as [? _].
Qed.

Lemma update_user_profile_ok (db db' : D1Database)
    (e dn av : option (list ascii)) (uid : list ascii) (clock : Z) :
  db_ok db ->
  update_user_profile db e dn av uid clock = Return db' ->
  db_ok db'.
Proof.
  intros [H1 H2 H3 H4 H5] Hup.
  assert (Hfree : email_taken (users db) uid e = false
                  \/ existsb (fun r => bytes_eqb (u_id r) uid) (users db) = false).
  { unfold update_user_profile in Hup.
    destruct (existsb _ (users db)); [|by right].
    destruct (email_taken _ _ _); [done|by left]. }
  destruct (update_user_profile_rows _ _ _ _ _ _ _ Hup)
    as (Hacc & Hids & f & Hf & Hfid & Hother & Hself).
  split; rewrite ?Hacc, ?Hids; try done.
  rewrite Hf. destruct Hfree as [Hfree|Hnone].
  - apply (emails_after_update _ f uid e); try done.
    + intros r Hr. by apply Hself.
    + intros x ->. by apply email_taken_false.
  - assert (Heq : map f (users db) = users db); [|by rewrite Heq].
    rewrite existsb_false_iff in Hnone.
    rewrite <- (map_id (users db)) at 2. apply map_ext_in.
    intros r Hr. apply Hother. intros Hu.
    apply list_elem_of_In, Hnone in Hr. by rewrite Hu, bytes_eqb_refl in Hr.
Qed.

Lemma emails_app (l1 l2 : list user_row) : emails (l1 ++ l2) = emails l1 ++ emails l2.
Proof.
  induction l1 as [|r l1 IH]; [done|].
  cbn [app]. rewrite !emails_cons, IH. by destruct (u_email r).
Qed.

Lemma insert_user_inv (db db' : D1Database) (uid : list ascii)
    (e un dn av : option (list ascii)) (clock : Z) :
  insert_user db uid e un dn av clock = Return db' ->
  (uid ∉ map u_id (users db)) /\
  (forall x, e = Some x -> x ∉ emails (users db)) /\
  oauth_accounts db' = oauth_accounts db /\
  users db' =
    users db ++ [{| u_id := uid; u_email := e; u_username := un; u_display_name := dn;
                    u_avatar_url := av; u_created_at := clock; u_updated_at := clock |}].
Proof.
  unfold insert_user.
  destruct (existsb _ (users db)) eqn:Hid; [done|].
  destruct (email_taken (users db) uid e) eqn:He; [done|]. intros [= <-].
  cbn [users oauth_accounts]. rewrite existsb_false_iff in Hid.
  split; [|split; [|done]].
  - intros Hin. apply list_elem_of_In, in_map_iff in Hin. destruct Hin as (r & Hr & Hin).
    apply list_elem_of_In, Hid in Hin. by rewrite Hr, bytes_eqb_refl in Hin.
  - intros x -> Hin. apply emails_elem in Hin as (r & Hr & Hx).
    rewrite email_taken_false in He. specialize (He r Hr Hx).
    apply Hid in Hr. by rewrite He, bytes_eqb_refl in Hr.
Qed.

Lemma insert_user_ok (db db' : D1Database) (uid : list ascii)
    (e un dn av : option (list ascii)) (clock : Z) :
  db_ok db -> insert_user db uid e un dn av clock = Return db' -> db_ok db'.
Proof.
  intros [H1 H2 H3 H4 H5] Hins.
  destruct (insert_user_inv _ _ _ _ _ _ _ _ Hins) as (Hid & He & Hacc & Hus).
  split; rewrite ?Hacc, ?Hus; try done.
  - rewrite map_app. apply NoDup_app. split; [done|]. split.
    + intros x Hx. cbn. intros Hin. apply list_elem_of_singleton in Hin. by subst.
    + cbn. apply NoDup_singleton.
  - rewrite emails_app. apply NoDup_app. split; [done|]. split.
    + intros x Hx. unfold emails. cbn. destruct e as [y|]; [|by intros ?%elem_of_nil].
      intros Hin. apply list_elem_of_singleton in Hin. subst. by eapply He.
    + unfold emails. cbn. destruct e; [apply NoDup_singleton|constructor].
  - eapply Forall_impl; [done|]. intros a Ha. cbn beta in *.
    rewrite map_app. apply elem_of_app. by left.
Qed.

Lemma insert_account_inv (db db' : D1Database) (aid uid : list ascii) (p : provider)
    (pid token : list ascii) (clock : Z) :
  insert_account db aid uid p pid token clock = Return db' ->
  (aid ∉ map a_id (oauth_accounts db)) /\
  ((p, pid) ∉ map (fun a => (a_provider a, a_provider_user_id a)) (oauth_accounts db)) /\
  uid ∈ map u_id (users db) /\
  users db' = users db /\
  oauth_accounts db' =
    oauth_accounts db ++
      [{| a_id := aid; a_user_id := uid; a_provider := p; a_provider_user_id := pid;
          a_access_token := Some token; a_refresh_token := None;
          a_created_at := clock |}].
Proof.
  unfold insert_account.
  destruct (existsb _ (oauth_accounts db)) eqn:Hid; [done|].
  destruct (existsb (account_matches p pid) _) eqn:Hp; [done|].
  destruct (existsb _ (users db)) eqn:Hu; [|done]. intros [= <-].
  cbn [users oauth_accounts]. rewrite existsb_false_iff in Hid, Hp.
  apply existsb_true_iff in Hu as (r & Hr & Hu). apply bytes_eqb_eq in Hu.
  split; [|split; [|split; [|done]]].
  - intros Hin. apply list_elem_of_In, in_map_iff in Hin. destruct Hin as (a & Ha & Hin).
    apply list_elem_of_In, Hid in Hin. by rewrite Ha, bytes_eqb_refl in Hin.
  - intros Hin. apply list_elem_of_In, in_map_iff in Hin. destruct Hin as (a & Ha & Hin).
    apply list_elem_of_In, Hp in Hin. by rewrite (proj2 (account_matches_iff _ _ _) Ha) in Hin.
  - rewrite <- Hu. apply list_elem_of_In, in_map. by apply list_elem_of_In.
Qed.

Lemma insert_account_ok (db db' : D1Database) (aid uid : list ascii) (p : provider)
    (pid token : list ascii) (clock : Z) :
  db_ok db -> insert_account db aid uid p pid token clock = Return db' -> db_ok db'.
Proof.
  intros [H1 H2 H3 H4 H5] Hins.
  destruct (insert_account_inv _ _ _ _ _ _ _ _ Hins) as (Hid & Hp & Hu & Hus & Hacc).
  split; rewrite ?Hacc, ?Hus; try done.
  - rewrite map_app. apply NoDup_app. split; [done|]. split.
    + intros x Hx. cbn. intros Hin. apply list_elem_of_singleton in Hin. by subst.
    + cbn. apply NoDup_singleton.
  - rewrite map_app. apply NoDup_app. split; [done|]. split.
    + intros x Hx. cbn. intros Hin. apply list_elem_of_singleton in Hin. by subst.
    + cbn. apply NoDup_singleton.
  - apply Forall_app. split; [done|]. by repeat constructor.
Qed.

(** Every call of [upsertUser] keeps the constraints of the schema, also
    when it raises. *)
Lemma upsertUser_ok (db : D1Database) (p : provider) (pid : list ascii) (prof : profile)
    (token uuid1 uuid2 : list ascii) (clock : Z) :
  db_ok db -> db_ok (snd (upsertUser db p pid prof token uuid1 uuid2 clock)).
Proof.
  intros Hok. unfold upsertUser.
  destruct (select_account db p pid) as [uid|].
  - pose proof (update_access_token_ok db token p pid Hok) as Hok1.
    destruct (update_user_profile _ _ _ _ _ _) as [db2|e] eqn:Hup; cbn [snd]; [|done].
    by eapply update_user_profile_ok.
  - destruct (insert_user _ _ _ _ _ _ _) as [db1|e] eqn:Hi; cbn [snd]; [|done].
    pose proof (insert_user_ok _ _ _ _ _ _ _ _ Hok Hi) as Hok1.
    destruct (insert_account _ _ _ _ _ _ _) as [db2|e] eqn:Ha; cbn [snd]; [|done].
    by eapply insert_account_ok.
Qed.

Lemma run_upserts_ok (cs : list upsert_call) (db : D1Database) :
  db_ok db -> db_ok (run_upserts db cs).
Proof.
  revert db. induction cs as [|c cs IH]; intros db Hok; [done|].
  unfold run_upserts. cbn [fold_left]. apply IH. by apply upsertUser_ok.
Qed.




Lemma select_account_accounts_of (db : D1Database) (p : provider) (pid uid : list ascii) :
  select_account db p pid = Some uid <->
  exists a l, accounts_of db p pid = a :: l /\ a_user_id a = uid.
Proof.
  unfold select_account, accounts_of.
  destruct (List.filter _ _) as [|a l]; split.
  - done.
  - by intros (? & ? & ? & _).
  - intros [= <-]. by eexists _, _.
  - intros (? & ? & [= <- <-] & <-). done.
Qed.

Lemma select_account_user (db : D1Database) (p : provider) (pid uid : list ascii) :
  db_ok db -> select_account db p pid = Some uid -> uid ∈ map u_id (users db).
Proof.
  intros Hok Hs. apply select_account_accounts_of in Hs as (a & l & Ha & <-).
  assert (Hin : In a (accounts_of db p pid)) by (rewrite Ha; by left).
  apply filter_In in Hin as [Hin _].
  pose proof (ok_references db Hok) as Hf. rewrite Forall_forall in Hf.
  by apply Hf, list_elem_of_In.
Qed.

(** The identity that an account binds stays bound to the same user in
    every later call, for this or another identity. *)
Lemma select_account_stable (db : D1Database) (p q : provider) (pid qid uid : list ascii)
    (prof : profile) (token uuid1 uuid2 : list ascii) (clock : Z) :
  select_account db p pid = Some uid ->
  select_account (snd (upsertUser db q qid prof token uuid1 uuid2 clock)) p pid = Some uid.
Proof.
  intros Hs.
  assert (Hupd : select_account (update_access_token db token q qid) p pid = Some uid).
  { revert Hs. unfold select_account, update_access_token. cbn [oauth_accounts].
    induction (oauth_accounts db) as [|a l IH]; [done|]. cbn [map List.filter].
    assert (Hm : forall b : account_row,
               account_matches p pid
                 (if account_matches q qid b then
                    {| a_id := a_id b; a_user_id := a_user_id b;
                       a_provider := a_provider b;
                       a_provider_user_id := a_provider_user_id b;
                       a_access_token := Some token;
                       a_refresh_token := a_refresh_token b;
                       a_created_at := a_created_at b |}
                  else b) = account_matches p pid b)
      by (intros b; by destruct (account_matches q qid b)).
    rewrite Hm. destruct (account_matches p pid a); [|done].
    by destruct (account_matches q qid a). }
  assert (Hins : forall d d' aid u, select_account d p pid = Some uid ->
                   insert_account d aid u q qid token clock = Return d' ->
                   select_account d' p pid = Some uid).
  { intros d d' aid u Hd Hi.
    apply insert_account_inv in Hi as (_ & _ & _ & _ & Hacc).
    revert Hd. unfold select_account. rewrite Hacc, List.filter_app.
    by destruct (List.filter _ (oauth_accounts d)). }
  unfold upsertUser. destruct (select_account db q qid) as [existing|].
  - destruct (update_user_profile _ _ _ _ _ _) as [db2|e] eqn:Hup; cbn [snd]; [|done].
    apply update_user_profile_rows in Hup as (Hacc & _).
    revert Hupd. unfold select_account. by rewrite Hacc.
  - destruct (insert_user _ _ _ _ _ _ _) as [db1|e] eqn:Hi; cbn [snd]; [|done].
    apply insert_user_inv in Hi as (_ & _ & Hacc & _).
    assert (Hs1 : select_account db1 p pid = Some uid)
      by (revert Hs; unfold select_account; by rewrite Hacc).
    destruct (insert_account _ _ _ _ _ _ _) as [db2|e] eqn:Ha; cbn [snd]; [|done].
    by eapply Hins.
Qed.





(** A call that returns leaves the identity bound to the user id it returns. *)
Lemma upsertUser_binds (db : D1Database) (p : provider) (pid uid : list ascii)
    (prof : profile) (token uuid1 uuid2 : list ascii) (clock : Z) :
  fst (upsertUser db p pid prof token uuid1 uuid2 clock) = Return uid ->
  select_account (snd (upsertUser db p pid prof token uuid1 uuid2 clock)) p pid = Some uid.
Proof.
  intros Hr. destruct (select_account db p pid) as [existing|] eqn:Hs.
  - assert (existing = uid) as ->.
    { revert Hr. unfold upsertUser. rewrite Hs.
      destruct (update_user_profile _ _ _ _ _ _); cbn [fst]; congruence. }
    by apply select_account_stable.
  - revert Hr. unfold upsertUser. rewrite Hs.
    destruct (insert_user _ _ _ _ _ _ _) as [db1|e] eqn:Hi; cbn [fst snd]; [|done].
    destruct (insert_account _ _ _ _ _ _ _) as [db2|e] eqn:Ha; cbn [fst snd]; [|done].
    intros [= <-]. apply insert_user_inv in Hi as (_ & _ & Hacc1 & _).
    apply insert_account_inv in Ha as (_ & _ & _ & _ & Hacc).
    unfold select_account in *. rewrite Hacc, List.filter_app, Hacc1.
    destruct (List.filter _ (oauth_accounts db)); [|done].
    cbn [List.filter app]. unfold account_matches. cbn [a_provider a_provider_user_id].
    by rewrite (proj2 (provider_eqb_eq p p) eq_refl), bytes_eqb_refl.
Qed.




(** ** Base64 *)

Lemma list_ind3 {A} (P : list A -> Prop) :
  P [] -> (forall a, P [a]) -> (forall a b, P [a; b]) ->
  (forall a b c l, P l -> P (a :: b :: c :: l)) ->
  forall l, P l.
Proof.
  intros H0 H1 H2 H3.
  fix IH 1. intros [|a [|b [|c l]]]; [apply H0 | apply H1 | apply H2 | apply H3, IH].
Qed.

Lemma sextet_cases (P : Z -> Prop) :
  (forall n : nat, (n < 64)%nat -> P (Z.of_nat n)) -> forall s, 0 <= s < 64 -> P s.
Proof.
  intros H s Hs. rewrite <- (Z2Nat.id s) by lia. apply H. lia.
Qed.

Ltac sextet s Hs :=
  revert s Hs; apply sextet_cases; intros n Hn;
  do 64 (destruct n as [|n]; [vm_compute; try reflexivity; try done|]); lia.

Lemma sextets_range (bs : list ascii) : Forall (fun s => 0 <= s < 64) (Base64.sextets bs).
Proof.
  induction bs as [|a|a b|a b c l IH] using list_ind3; cbn [Base64.sextets app].
  - constructor.
  - pose proof (code_range a). repeat constructor; lia.
  - pose proof (code_range a). pose proof (code_range b). repeat constructor; lia.
  - pose proof (code_range a). pose proof (code_range b). pose proof (code_range c).
    repeat (constructor; [lia|]). done.
Qed.

Lemma unsextets_sextets (bs : list ascii) : Base64.unsextets (Base64.sextets bs) = bs.
Proof.
  induction bs as [|a|a b|a b c l IH] using list_ind3; cbn [Base64.sextets app].
  - done.
  - pose proof (code_range a). cbn [Base64.unsextets].
    replace (code a / 4 * 4 + code a mod 4 * 16 / 16) with (code a) by lia.
    by rewrite chr_code.
  - pose proof (code_range a). pose proof (code_range b). cbn [Base64.unsextets].
    replace (code a / 4 * 4 + (code a mod 4 * 16 + code b / 16) / 16) with (code a) by lia.
    replace ((code a mod 4 * 16 + code b / 16) mod 16 * 16 + code b mod 16 * 4 / 4)
      with (code b) by lia.
    by rewrite !chr_code.
  - pose proof (code_range a). pose proof (code_range b). pose proof (code_range c).
    cbn [Base64.unsextets app].
    replace (code a / 4 * 4 + (code a mod 4 * 16 + code b / 16) / 16) with (code a) by lia.
    replace ((code a mod 4 * 16 + code b / 16) mod 16 * 16
             + (code b mod 16 * 4 + code c / 64) / 4) with (code b) by lia.
    replace ((code b mod 16 * 4 + code c / 64) mod 4 * 64 + code c mod 64)
      with (code c) by lia.
    by rewrite !chr_code, IH.
Qed.

Lemma sextets_length (bs : list ascii) :
  (length (Base64.sextets bs) mod 4 <> 1)%nat /\
  ((length (Base64.sextets bs) mod 4 = 0)%nat -> Base64.padding (length bs) = []).
Proof.
  induction bs as [|a|a b|a b c l [IH1 IH2]] using list_ind3;
    cbn [Base64.sextets app length]; try (split; done).
  replace (S (S (S (S (length (Base64.sextets l)))))) with
    (length (Base64.sextets l) + 1 * 4)%nat by lia.
  rewrite Nat.Div0.mod_add. split; [done|].
  intros H. unfold Base64.padding in *.
  replace (S (S (S (length l)))) with (length l + 1 * 3)%nat by lia.
  rewrite Nat.Div0.mod_add. by apply IH2.
Qed.

Lemma replace_all_app (c : ascii) (r a b : list ascii) :
  replace_all c r (a ++ b) = replace_all c r a ++ replace_all c r b.
Proof.
  induction a as [|x a IH]; [done|]. cbn [replace_all app]. by rewrite IH, app_assoc.
Qed.

Lemma replace_all_map (c : ascii) (r : list ascii) (f g : Z -> ascii) (ss : list Z) :
  Forall (fun s => replace_all c r [f s] = [g s]) ss ->
  replace_all c r (map f ss) = map g ss.
Proof.
  induction 1 as [|s ss Hs _ IH]; [done|].
  cbn [map]. change (f s :: map f ss) with ([f s] ++ map f ss).
  by rewrite replace_all_app, Hs, IH.
Qed.

Lemma padding_cases (n : nat) :
  Base64.padding n = [] \/ Base64.padding n = "="%string \/ Base64.padding n = "=="%string.
Proof.
  unfold Base64.padding. destruct (n mod 3)%nat as [|[|[|?]]]; auto.
Qed.

Lemma Forall_sextets (P : Z -> Prop) (bs : list ascii) :
  (forall s, 0 <= s < 64 -> P s) -> Forall P (Base64.sextets bs).
Proof. intros H. eapply Forall_impl; [apply sextets_range|]. exact H. Qed.

(** [b64url] writes the six-bit groups in the URL-safe alphabet, without
    padding. *)
Lemma b64url_chars (bs : list ascii) : b64url bs = map url_char (Base64.sextets bs).
Proof.
  unfold b64url, Base64.btoa. rewrite !replace_all_app.
  assert (replace_all "=" [] (replace_all "/" "_"%string
            (replace_all "+" "-"%string (Base64.padding (length bs)))) = []) as ->.
  { by destruct (padding_cases (length bs)) as [->|[->| ->]]. }
  rewrite app_nil_r.
  rewrite (replace_all_map _ _ _
             (fun s => if s =? 62 then "-"%char else Base64.char_of s)).
  2:{ apply Forall_sextets. intros s Hs. sextet s Hs. }
  rewrite (replace_all_map _ _ _ url_char).
  2:{ apply Forall_sextets. intros s Hs. sextet s Hs. }
  apply replace_all_map, Forall_sextets. intros s Hs. sextet s Hs.
Qed.

Lemma b64url_unurl (bs : list ascii) :
  replace_all "_" "/"%string (replace_all "-" "+"%string (b64url bs))
  = map Base64.char_of (Base64.sextets bs).
Proof.
  rewrite b64url_chars.
  rewrite (replace_all_map _ _ _
             (fun s => if s =? 62 then "+"%char else url_char s)).
  2:{ apply Forall_sextets. intros s Hs. sextet s Hs. }
  apply replace_all_map, Forall_sextets. intros s Hs. sextet s Hs.
Qed.

Lemma filter_map_all {A B} (f : A -> B) (test : B -> bool) (l : list A) :
  Forall (fun a => test (f a) = true) l -> List.filter test (map f l) = map f l.
Proof.
  induction 1 as [|a l Ha _ IH]; [done|]. cbn [map List.filter]. by rewrite Ha, IH.
Qed.

Lemma values_of_chars (ss : list Z) :
  Forall (fun s => 0 <= s < 64) ss ->
  Base64.values_of (map Base64.char_of ss) = Some ss.
Proof.
  induction 1 as [|s ss Hs _ IH]; [done|]. cbn [map Base64.values_of]. rewrite IH.
  assert (Base64.value_of (Base64.char_of s) = Some s) as ->; [|done].
  sextet s Hs.
Qed.

Lemma strip_padding_chars (ss : list Z) :
  Forall (fun s => 0 <= s < 64) ss ->
  Base64.strip_padding (map Base64.char_of ss) = map Base64.char_of ss.
Proof.
  intros Hss. unfold Base64.strip_padding. rewrite <- map_rev.
  apply Forall_rev in Hss. destruct (rev ss) as [|s r]; [done|].
  apply Forall_cons in Hss as [Hs _]. cbn [map].
  generalize (map Base64.char_of r), (map Base64.char_of ss). intros t u.
  sextet s Hs.
Qed.

(** The forgiving decoding undoes the encoding, padded or not. *)
Lemma atob_chars (bs : list ascii) :
  Base64.atob (map Base64.char_of (Base64.sextets bs)) = Return bs.
Proof.
  unfold Base64.atob.
  rewrite filter_map_all by (apply Forall_sextets; intros s Hs; sextet s Hs).
  destruct (sextets_length bs) as [H1 _].
  assert (Hd : (if (length (map Base64.char_of (Base64.sextets bs)) mod 4 =? 0)%nat
                then Base64.strip_padding (map Base64.char_of (Base64.sextets bs))
                else map Base64.char_of (Base64.sextets bs))
               = map Base64.char_of (Base64.sextets bs)).
  { destruct (_ =? 0)%nat; [|done]. apply strip_padding_chars, sextets_range. }
  rewrite Hd, length_map.
  destruct (Nat.eqb_spec (length (Base64.sextets bs) mod 4) 1); [done|].
  by rewrite values_of_chars, unsextets_sextets by apply sextets_range.
Qed.

Lemma b64urlDecode_b64url (bs : list ascii) : b64urlDecode (b64url bs) = Return bs.
Proof. unfold b64urlDecode. rewrite b64url_unurl. apply atob_chars. Qed.

(** A segment has no dot, so that a token splits back into its segments. *)
Lemma b64url_no_dot (bs : list ascii) : Forall (fun c => c <> "."%char) (b64url bs).
Proof.
  rewrite b64url_chars. apply Forall_forall. intros c Hc.
  apply list_elem_of_In, in_map_iff in Hc. destruct Hc as (s & <- & Hs).
  pose proof (sextets_range bs) as Hr. rewrite Forall_forall in Hr.
  apply list_elem_of_In, Hr in Hs. sextet s Hs.
Qed.

Lemma split_on_no_sep (c : ascii) (s : list ascii) :
  Forall (fun x => x <> c) s -> split_on c s = [s].
Proof.
  induction 1 as [|x s Hx _ IH]; [done|]. cbn [split_on].
  by rewrite (proj2 (ascii_eqb_neq _ _) Hx), IH.
Qed.

Lemma split_on_app (c : ascii) (a b : list ascii) :
  Forall (fun x => x <> c) a -> split_on c (a ++ c :: b) = a :: split_on c b.
Proof.
  induction 1 as [|x s Hx _ IH]; cbn [split_on app].
  - by rewrite ascii_eqb_refl.
  - by rewrite (proj2 (ascii_eqb_neq _ _) Hx), IH.
Qed.

(** ** UTF-8 *)

Lemma lead_single (b : ascii) : code b <= 127 -> Utf8.lead b = Utf8.Single.
Proof. intros H. unfold Utf8.lead. destruct (Z.leb_spec (code b) 127); [done|lia]. Qed.

Lemma lead_Lead_inv (b : ascii) (n : nat) (lo hi : Z) :
  Utf8.lead b = Utf8.Lead n lo hi ->
  194 <= code b <= 244 /\ (1 <= n <= 3)%nat /\ 128 <= lo /\ hi <= 191.
Proof.
  unfold Utf8.lead.
  destruct (Z.leb_spec (code b) 127); [done|].
  destruct (Z.leb_spec 194 (code b)), (Z.leb_spec (code b) 223); cbn [andb].
  1:{ intros [= <- <- <-]. lia. }
  all: destruct (Z.leb_spec 224 (code b)), (Z.leb_spec (code b) 239); cbn [andb].
  all: try (intros [= <- <- <-];
            destruct (Z.eqb_spec (code b) 224), (Z.eqb_spec (code b) 237); lia).
  all: destruct (Z.leb_spec 240 (code b)), (Z.leb_spec (code b) 244); cbn [andb];
    try done.
  all: intros [= <- <- <-];
    destruct (Z.eqb_spec (code b) 240), (Z.eqb_spec (code b) 244); lia.
Qed.

Lemma dec_step (b : ascii) (bs pend : list ascii) (n : nat) (lo hi : Z) :
  lo <= code b <= hi ->
  Utf8.dec (b :: bs) pend (S n) lo hi
  = match n with
    | O => pend ++ [b] ++ Utf8.dec bs [] 0 128 191
    | S _ => Utf8.dec bs (pend ++ [b]) n 128 191
    end.
Proof.
  intros H. cbn [Utf8.dec].
  destruct (Z.leb_spec lo (code b)), (Z.leb_spec (code b) hi); try lia. done.
Qed.

Lemma dec_first (b : ascii) (bs : list ascii) (lo hi : Z) :
  Utf8.dec (b :: bs) [] 0 lo hi
  = match Utf8.lead b with
    | Utf8.Single => b :: Utf8.dec bs [] 0 128 191
    | Utf8.Lead n l h => Utf8.dec bs [b] n l h
    | Utf8.Invalid => Utf8.replacement ++ Utf8.dec bs [] 0 128 191
    end.
Proof. done. Qed.

(** Inside a sequence, bytes in range are kept until the sequence is
    complete. *)
Lemma dec_continue (cs : list ascii) (c : ascii) (s pend : list ascii) (lo hi : Z) :
  lo <= code c <= hi ->
  Forall Utf8.continuation cs ->
  Utf8.dec (c :: cs ++ s) pend (S (length cs)) lo hi
  = pend ++ c :: cs ++ Utf8.dec s [] 0 128 191.
Proof.
  revert c pend lo hi. induction cs as [|c' cs IH]; intros c pend lo hi Hc Hcs.
  - cbn [length app]. by rewrite dec_step.
  - apply Forall_cons in Hcs as [Hc' Hcs].
    cbn [length]. rewrite dec_step by done. rewrite <- app_comm_cons.
    rewrite IH by done. by rewrite <- app_assoc.
Qed.

(** The decoder leaves well-formed text as it is. *)
Lemma dec_well_formed (s : list ascii) :
  Utf8.well_formed s -> Utf8.dec s [] 0 128 191 = s.
Proof.
  induction 1 as [|b s Hb _ IH|b n lo hi c cs s Hl Hc Hcs Hn _ IH].
  - done.
  - by rewrite dec_first, lead_single, IH.
  - rewrite dec_first, Hl. subst n. cbn [length].
    rewrite dec_continue by done. by rewrite IH.
Qed.

Lemma well_formed_app (a b : list ascii) :
  Utf8.well_formed a -> Utf8.well_formed b -> Utf8.well_formed (a ++ b).
Proof.
  intros Ha Hb. induction Ha as [|x s Hx _ IH|x n lo hi c cs s Hl Hc Hcs Hn _ IH].
  - done.
  - cbn [app]. by constructor.
  - cbn [app]. rewrite <- app_assoc. by econstructor.
Qed.

Lemma well_formed_ascii (s : list ascii) :
  Forall (fun c => code c <= 127) s -> Utf8.well_formed s.
Proof. induction 1; by constructor. Qed.

Lemma decode_well_formed (c : ascii) (s : list ascii) :
  code c <= 127 -> Utf8.well_formed (c :: s) -> Utf8.decode (c :: s) = c :: s.
Proof.
  intros Hc Hwf. unfold Utf8.decode.
  assert (strip_prefix Utf8.bom (c :: s) = None) as ->; [|by apply dec_well_formed].
  unfold Utf8.bom. cbn [strip_prefix].
  destruct (ascii_eqb (chr 239) c) eqn:He; [|done].
  apply ascii_eqb_eq in He. subst c. vm_compute in Hc. done.
Qed.

(** ** JSON: numbers *)

Lemma chars_uint_chars (d : Decimal.uint) : Json.chars_uint (Json.uint_chars d) = d.
Proof. induction d; cbn [Json.uint_chars Json.chars_uint]; rewrite IHd || idtac; done. Qed.

Lemma uint_chars_digits (d : Decimal.uint) : Forall (fun c => Json.is_digit c = true) (Json.uint_chars d).
Proof. induction d; cbn [Json.uint_chars]; constructor; done. Qed.

Lemma span_digits_app (ds rest : list ascii) :
  Forall (fun c => Json.is_digit c = true) ds ->
  no_digit rest ->
  Json.span_digits (ds ++ rest) = (ds, rest).
Proof.
  intros Hds Hrest. induction Hds as [|c ds Hc _ IH].
  - destruct rest as [|c rest]; [done|]. cbn in *. by rewrite Hrest.
  - cbn [app Json.span_digits]. by rewrite Hc, IH.
Qed.

Lemma undigits_digits (n : Z) : 0 <= n -> Json.undigits (Json.digits n) = n.
Proof.
  intros Hn. unfold Json.undigits, Json.digits.
  rewrite chars_uint_chars, DecimalN.Unsigned.of_to. lia.
Qed.

(** The digits of a number are not empty and start with a zero only for
    zero itself. *)
Lemma digits_head (n : Z) :
  exists c ds,
    Json.digits n = c :: ds /\ Json.is_digit c = true /\
    (ascii_eqb c "0" && negb (Nat.eqb (length ds) 0) = false).
Proof.
  unfold Json.digits. set (m := Z.to_N n).
  assert (Hnorm : Decimal.unorm (N.to_uint m) = N.to_uint m).
  { rewrite <- (DecimalN.Unsigned.of_to m) at 2. symmetry. apply DecimalN.Unsigned.to_of. }
  assert (Hnz : forall d', N.to_uint m = Decimal.D0 d' -> d' = Decimal.Nil).
  { intros d' Hd. rewrite Hd in Hnorm. unfold Decimal.unorm in Hnorm.
    destruct (Decimal.nzhead (Decimal.D0 d')) eqn:Hh; try congruence.
    exfalso. apply (nzhead_nonzero (Decimal.D0 d') d'). congruence. }
  destruct (N.to_uint m) as [|d|d|d|d|d|d|d|d|d|d] eqn:Hd;
    [discriminate Hnorm | rewrite (Hnz d eq_refl); by eexists _, _ | ..];
    cbn [Json.uint_chars]; eexists _, _; (split; [reflexivity|]); done.
Qed.

Lemma digits_all (n : Z) : Forall (fun c => Json.is_digit c = true) (Json.digits n).
Proof. apply uint_chars_digits. Qed.

Ltac ascii_cases c := destruct c as [[] [] [] [] [] [] [] []].

Lemma delimited_no_digit (rest : list ascii) : delimited rest -> no_digit rest.
Proof. destruct rest as [|c rest]; [done|]. by intros [->|[->| ->]]. Qed.

Lemma number_value_int (neg : bool) (ds : list ascii) (n : Z) :
  (if neg then - Json.undigits ds else Json.undigits ds) = n ->
  Json.number_value neg ds 0 = JNum n.
Proof.
  intros H. unfold Json.number_value. rewrite H.
  destruct (Z.eqb_spec n 0) as [->|_]; [done|].
  cbn [Z.leb Z.compare]. by rewrite Z.pow_0_r, Z.mul_1_r.
Qed.

(** After the digits of an integer, at a delimiter, the number ends: no
    fraction and no exponent follow. *)
Lemma parse_number_tail (neg : bool) (n : Z) (c : ascii) (ds rest : list ascii) :
  Json.digits (Z.abs n) = c :: ds ->
  (if neg then - Z.abs n else Z.abs n) = n ->
  delimited rest ->
  (let '(ip, s2) := Json.span_digits ((c :: ds) ++ rest) in
   match ip with
   | [] => None
   | d :: ds' =>
       if ascii_eqb d "0" && negb (Nat.eqb (length ds') 0) then None
       else
         let frac :=
           match s2 with
           | "."%char :: r =>
               let '(fp, s3) := Json.span_digits r in
               match fp with [] => None | _ => Some (fp, s3) end
           | _ => Some ([], s2)
           end in
         match frac with
         | None => None
         | Some (fp, s3) =>
             let expo :=
               match s3 with
               | c :: r =>
                   if ascii_eqb c "e" || ascii_eqb c "E" then
                     let '(eneg, r1) :=
                       match r with
                       | "-"%char :: r' => (true, r')
                       | "+"%char :: r' => (false, r')
                       | _ => (false, r)
                       end in
                     let '(ep, s4) := Json.span_digits r1 in
                     match ep with
                     | [] => None
                     | _ => Some (if eneg then - Json.undigits ep else Json.undigits ep, s4)
                     end
                   else Some (0, s3)
               | [] => Some (0, s3)
               end in
             match expo with
             | None => None
             | Some (e, s4) =>
                 Some (Json.number_value neg (ip ++ fp) (e - Z.of_nat (length fp)), s4)
             end
         end
   end) = Some (JNum n, rest).
Proof.
  intros Hd Hn Hrest.
  destruct (digits_head (Z.abs n)) as (c' & ds' & Hd' & _ & Hz).
  rewrite Hd in Hd'. injection Hd' as <- <-.
  rewrite span_digits_app.
  2:{ rewrite <- Hd. apply digits_all. }
  2:{ by apply delimited_no_digit. }
  rewrite Hz.
  assert (Hv : Json.number_value neg ((c :: ds) ++ []) (0 - Z.of_nat (length (@nil ascii)))
               = JNum n).
  { rewrite app_nil_r. apply number_value_int.
    rewrite <- Hd, undigits_digits by lia. done. }
  destruct rest as [|x rest]; [cbv beta iota zeta; by rewrite Hv|].
  destruct Hrest as [->|[->| ->]]; cbn [ascii_eqb Ascii.eqb Bool.eqb orb andb];
    cbv beta iota zeta; by rewrite Hv.
Qed.

Lemma parse_number_print (n : Z) (rest : list ascii) :
  delimited rest ->
  Json.parse_number (Json.print_int n ++ rest) = Some (JNum n, rest).
Proof.
  intros Hrest. unfold Json.print_int.
  destruct (digits_head (Z.abs n)) as (c & ds & Hd & Hc & _).
  destruct (Z.ltb_spec n 0) as [Hn|Hn].
  - rewrite Hd. unfold Json.parse_number.
    change (("-"%string : list ascii) ++ c :: ds) with ("-"%char :: c :: ds).
    cbn [app]. change (c :: ds ++ rest) with ((c :: ds) ++ rest).
    apply parse_number_tail; [done|lia|done].
  - rewrite Hd. cbn [app]. unfold Json.parse_number.
    assert (Hm : forall (X : Type) (a : list ascii -> X) (b : X) (t : list ascii),
               match c :: t with "-"%char :: r => a r | _ => b end = b).
    { intros X a b t. revert Hc. clear. ascii_cases c; try discriminate; done. }
    rewrite Hm. change (c :: ds ++ rest) with ((c :: ds) ++ rest).
    apply parse_number_tail; [done|lia|done].
Qed.

(** ** JSON: strings *)

Lemma lex_escape (c : ascii) (tail : list ascii) :
  Json.lex_string Json.SNormal (Json.escape_char c ++ tail)
  = Json.cons_item (item_of c) (Json.lex_string Json.SNormal tail).
Proof. ascii_cases c; reflexivity. Qed.

Lemma lex_string_escaped (s rest : list ascii) :
  Json.lex_string Json.SNormal (concat (map Json.escape_char s) ++ chr 34 :: rest)
  = Some (map item_of s, rest).
Proof.
  induction s as [|c s IH]; [done|].
  cbn [map concat]. by rewrite <- app_assoc, lex_escape, IH.
Qed.

Lemma items_bytes_unit (u : Z) (r : list Json.item) :
  Json.is_high u = false ->
  Json.items_bytes (Json.Unit16 u :: r) = Utf8.of_code_point u ++ Json.items_bytes r.
Proof.
  intros H. cbn [Json.items_bytes]. rewrite H. by destruct r as [|[|] r].
Qed.

Lemma items_bytes_item_of (c : ascii) (r : list Json.item) :
  Json.items_bytes (item_of c :: r) = c :: Json.items_bytes r.
Proof.
  ascii_cases c;
    match goal with
    | |- context [item_of ?x] =>
        let i := eval vm_compute in (item_of x) in change (item_of x) with i
    end;
    first [reflexivity | rewrite items_bytes_unit by reflexivity; reflexivity].
Qed.

Lemma items_bytes_items (s : list ascii) : Json.items_bytes (map item_of s) = s.
Proof.
  induction s as [|c s IH]; [done|]. cbn [map]. by rewrite items_bytes_item_of, IH.
Qed.

Lemma parse_string_quote (s rest : list ascii) :
  Json.parse_string (concat (map Json.escape_char s) ++ chr 34 :: rest) = Some (s, rest).
Proof.
  unfold Json.parse_string. by rewrite lex_string_escaped, items_bytes_items.
Qed.

Lemma quote_cons (s : list ascii) :
  Json.quote s = chr 34 :: concat (map Json.escape_char s) ++ [chr 34].
Proof. done. Qed.

Lemma escape_char_ascii (c : ascii) :
  code c <= 127 -> Forall (fun x => code x <= 127) (Json.escape_char c).
Proof.
  intros H.
  assert (Hb : (code c <=? 127) = true ->
               forallb (fun x => code x <=? 127) (Json.escape_char c) = true).
  { clear H. ascii_cases c; vm_compute; intros H; first [discriminate H | reflexivity]. }
  apply Forall_forall. intros x Hx. apply Z.leb_le.
  rewrite forallb_forall in Hb. apply Hb; [by apply Z.leb_le|by apply list_elem_of_In].
Qed.

Lemma escape_char_high (c : ascii) : 128 <= code c -> Json.escape_char c = [c].
Proof.
  intros H. apply Z.leb_le in H. revert H.
  ascii_cases c; vm_compute; intros H; first [discriminate H | reflexivity].
Qed.

Lemma escaped_well_formed (s : list ascii) :
  Utf8.well_formed s -> Utf8.well_formed (concat (map Json.escape_char s)).
Proof.
  induction 1 as [|b s Hb _ IH|b n lo hi c cs s Hl Hc Hcs Hn _ IH].
  - constructor.
  - cbn [map concat]. apply well_formed_app; [|done].
    by apply well_formed_ascii, escape_char_ascii.
  - apply lead_Lead_inv in Hl as Hr. destruct Hr as (Hb & _ & Hlo & Hhi).
    assert (Hcat : concat (map Json.escape_char (b :: c :: cs ++ s))
                   = b :: c :: cs ++ concat (map Json.escape_char s)).
    { cbn [map concat]. rewrite !escape_char_high by lia. cbn [app]. do 2 f_equal.
      rewrite map_app, concat_app. f_equal.
      clear -Hcs. induction Hcs as [|x cs Hx _ IH]; [done|].
      cbn [map concat]. unfold Utf8.continuation in Hx.
      by rewrite escape_char_high, IH by lia. }
    rewrite Hcat. by econstructor.
Qed.

Lemma quote_well_formed (s : list ascii) :
  Utf8.well_formed s -> Utf8.well_formed (Json.quote s).
Proof.
  intros H. rewrite quote_cons.
  apply (well_formed_app [chr 34]); [by apply well_formed_ascii; repeat constructor|].
  apply well_formed_app; [by apply escaped_well_formed|].
  by apply well_formed_ascii; repeat constructor.
Qed.

(** ** JSON: values *)

Lemma json_ind' (P : json -> Prop) :
  P JNull -> (forall b, P (JBool b)) -> (forall n, P (JNum n)) ->
  (forall m k, P (JDec m k)) -> (forall s, P (JStr s)) ->
  (forall l, Forall P l -> P (JArr l)) ->
  (forall l, Forall (fun kv => P (snd kv)) l -> P (JObj l)) ->
  forall v, P v.
Proof.
  intros Hnull Hbool Hnum Hdec Hstr Harr Hobj.
  fix IH 1. intros [| b | n | m k | s | l | l].
  - apply Hnull.
  - apply Hbool.
  - apply Hnum.
  - apply Hdec.
  - apply Hstr.
  - apply Harr. induction l as [|x l IHl]; constructor; [apply IH | apply IHl].
  - apply Hobj. induction l as [|[k x] l IHl]; constructor; [apply IH | apply IHl].
Qed.

Lemma wf_json_arr (l : list json) : wf_json (JArr l) <-> Forall wf_json l.
Proof.
  cbn [wf_json]. induction l as [|x l IH].
  - split; [constructor|done].
  - rewrite Forall_cons, <- IH. done.
Qed.

Lemma wf_json_obj (l : list (list ascii * json)) :
  wf_json (JObj l) <->
  NoDup (map fst l) /\
  Forall (fun kv => Utf8.well_formed (fst kv) /\ wf_json (snd kv)) l.
Proof.
  cbn [wf_json]. apply and_iff_compat_l.
  induction l as [|[k x] l IH].
  - split; [constructor|done].
  - rewrite Forall_cons, <- IH. cbn [fst snd]. tauto.
Qed.

Lemma json_size_arr (l : list json) : json_size (JArr l) = S (elems_size l).
Proof.
  cbn [json_size]. f_equal.
Qed.

Lemma json_size_obj (l : list (list ascii * json)) :
  json_size (JObj l) = S (members_size l).
Proof.
  cbn [json_size]. f_equal. induction l as [|[k x] l IH]; [done|].
  cbn [members_size fold_right snd]. do 2 f_equal. exact IH.
Qed.

Lemma stringify_arr (l : list json) :
  Json.stringify (JArr l) = "["%char :: elems_text l ++ "]"%string.
Proof. done. Qed.

Lemma stringify_obj (l : list (list ascii * json)) :
  Json.stringify (JObj l) = "{"%char :: members_text l ++ "}"%string.
Proof. done. Qed.

Lemma elems_text_cons (x y : json) (l : list json) :
  elems_text (x :: y :: l) = Json.stringify x ++ ","%char :: elems_text (y :: l).
Proof. done. Qed.

Lemma members_text_cons (k : list ascii) (x : json) (kv : list ascii * json)
    (l : list (list ascii * json)) :
  members_text ((k, x) :: kv :: l)
  = Json.quote k ++ ":"%char :: Json.stringify x ++ ","%char :: members_text (kv :: l).
Proof. done. Qed.

(** The first character of a written value tells what it is. *)
Lemma stringify_head (v : json) :
  wf_json v -> exists c t, Json.stringify v = c :: t /\ value_start c = true.
Proof.
  destruct v as [| [|] | n | m k | s | l | l]; intros Hwf;
    try (eexists _, _; split; [reflexivity|reflexivity]).
  2:{ destruct Hwf. }
  cbn [Json.stringify]. unfold Json.print_int.
  destruct (Z.ltb_spec n 0); [by eexists _, _|].
  destruct (digits_head (Z.abs n)) as (c & ds & -> & Hc & _).
  exists c, ds. split; [done|]. unfold value_start. rewrite Hc. by rewrite !orb_true_r.
Qed.

Lemma value_start_facts (c : ascii) :
  value_start c = true ->
  Json.is_ws c = false /\ code c <= 127 /\
  (forall (X : Type) (a b : X), match c with "]"%char => a | _ => b end = b) /\
  (forall (X : Type) (a b : X), match c with "}"%char => a | _ => b end = b).
Proof.
  intros H.
  assert (Hb : value_start c = true ->
               Json.is_ws c = false /\ (code c <=? 127) = true /\
               ascii_eqb c "]" = false /\ ascii_eqb c "}" = false).
  { clear H. ascii_cases c; vm_compute; intros H; first [discriminate H | done]. }
  destruct (Hb H) as (H1 & H2 & H3 & H4).
  split; [done|]. split; [by apply Z.leb_le|].
  apply ascii_eqb_neq in H3, H4. clear -H3 H4.
  split; intros X a b; ascii_cases c; done.
Qed.

Lemma skip_ws_start (c : ascii) (t : list ascii) :
  Json.is_ws c = false -> Json.skip_ws (c :: t) = c :: t.
Proof. intros H. cbn [Json.skip_ws]. by rewrite H. Qed.

Lemma dispatch_number (c : ascii) (X : Type) (a1 a2 a3 a4 a5 a6 a7 a8 : X) :
  (code c =? 45) || Json.is_digit c = true ->
  (if code c =? 110 then a1 else if code c =? 116 then a2
   else if code c =? 102 then a3 else if code c =? 34 then a4
   else if code c =? 91 then a5 else if code c =? 123 then a6
   else if (code c =? 45) || Json.is_digit c then a7 else a8) = a7.
Proof.
  ascii_cases c; vm_compute; intros H; first [discriminate H | reflexivity].
Qed.

Lemma obj_set_fresh (k : list ascii) (v : json) (acc : list (list ascii * json)) :
  k ∉ map fst acc -> obj_set k v acc = acc ++ [(k, v)].
Proof.
  induction acc as [|[k' v'] acc IH]; [done|]. cbn [map fst obj_set app]. intros Hk.
  apply not_elem_of_cons in Hk as [Hne Hk].
  rewrite (proj2 (bytes_eqb_neq k' k)) by congruence. by rewrite IH.
Qed.

Lemma fold_obj_set (l acc : list (list ascii * json)) :
  NoDup (map fst (acc ++ l)) ->
  fold_left (fun o kv => obj_set (fst kv) (snd kv) o) l acc = acc ++ l.
Proof.
  revert acc. induction l as [|[k v] l IH]; intros acc Hnd; [by rewrite app_nil_r|].
  cbn [fold_left fst snd].
  rewrite obj_set_fresh.
  - rewrite IH; rewrite <- app_assoc; done.
  - rewrite map_app in Hnd. apply NoDup_app in Hnd as (_ & Hd & _).
    intros Hk. apply (Hd k Hk). cbn. by left.
Qed.

Lemma elems_read (l : list json) :
  l <> [] ->
  Forall reads_back l ->
  forall fuel rest,
    (elems_size l <= fuel)%nat ->
    Json.parse_elems fuel (elems_text l ++ "]"%char :: rest) = Some (l, rest).
Proof.
  intros Hne Hl. induction Hl as [|x l Hx Hl IH]; [done|]. clear Hne.
  intros fuel rest Hfuel. cbn [elems_size fold_right] in Hfuel.
  destruct fuel as [|f]; [lia|]. destruct l as [|y l].
  - change (elems_text [x]) with (Json.stringify x).
    cbn [Json.parse_elems]. rewrite Hx; [|lia|by right; left]. done.
  - rewrite elems_text_cons, <- app_assoc, <- app_comm_cons.
    cbn [Json.parse_elems]. rewrite Hx; [|lia|by left].
    cbn [Json.skip_ws Json.is_ws]. change (Json.is_ws ","%char) with false. cbv iota.
    rewrite IH; [done|done|]. fold (elems_size (y :: l)) in Hfuel. lia.
Qed.

Lemma members_read (l : list (list ascii * json)) :
  l <> [] ->
  Forall (fun kv => reads_back (snd kv)) l ->
  forall fuel rest,
    (members_size l <= fuel)%nat ->
    Json.parse_members fuel (members_text l ++ "}"%char :: rest) = Some (l, rest).
Proof.
  intros Hne Hl. induction Hl as [|[k x] l Hx Hl IH]; [done|]. clear Hne.
  intros fuel rest Hfuel. cbn [members_size fold_right snd] in Hfuel, Hx.
  destruct fuel as [|f]; [lia|].
  assert (Hstep : forall tail,
             Json.parse_members (S f) (Json.quote k ++ ":"%char :: tail)
             = match Json.parse_value f tail with
               | Some (v, r3) =>
                   match Json.skip_ws r3 with
                   | ","%char :: r4 =>
                       match Json.parse_members f r4 with
                       | Some (kvs, rest) => Some ((k, v) :: kvs, rest)
                       | None => None
                       end
                   | "}"%char :: rest => Some ([(k, v)], rest)
                   | _ => None
                   end
               | None => None
               end).
  { intros tail. rewrite quote_cons. cbn [app]. rewrite <- app_assoc.
    cbn [Json.parse_members]. change (Json.skip_ws (chr 34 :: ?t)) with (chr 34 :: t).
    change (code (chr 34) =? 34) with true. cbv iota.
    cbn [app]. rewrite parse_string_quote. done. }
  destruct l as [|kv l].
  - change (members_text [(k, x)]) with (Json.quote k ++ ":"%char :: Json.stringify x).
    rewrite <- app_assoc, <- app_comm_cons, Hstep.
    rewrite Hx; [|lia|by right; right]. done.
  - rewrite members_text_cons, <- app_assoc, <- app_comm_cons, Hstep.
    rewrite <- app_assoc, <- app_comm_cons.
    rewrite Hx; [|lia|by left].
    change (Json.skip_ws (","%char :: ?t)) with (","%char :: t). cbv iota.
    rewrite IH; [done|done|]. fold (members_size (kv :: l)) in Hfuel. lia.
Qed.

(** The reader gives back every well-formed value from its written form. *)
Lemma parse_value_stringify (v : json) : wf_json v -> reads_back v.
Proof.
  induction v as [| b | n | m k | s | l IH | l IH] using json_ind';
    intros Hwf fuel rest Hfuel Hrest.
  - destruct fuel as [|f]; [cbn in Hfuel; lia|]. reflexivity.
  - destruct fuel as [|f]; [cbn in Hfuel; lia|]. by destruct b.
  - destruct fuel as [|f]; [cbn in Hfuel; lia|].
    destruct (stringify_head (JNum n) Hwf) as (c & t & Hs & Hc).
    pose proof (parse_number_print n rest Hrest) as Hp.
    cbn [Json.stringify] in *. rewrite Hs in *. cbn [app] in *.
    cbn [Json.parse_value].
    rewrite skip_ws_start by (by apply value_start_facts).
    rewrite dispatch_number; [done|].
    revert Hs. unfold Json.print_int. destruct (n <? 0).
    + by intros [= <- _].
    + destruct (digits_head (Z.abs n)) as (c' & ds & -> & Hd & _).
      intros [= -> _]. by rewrite Hd, orb_true_r.
  - destruct Hwf.
  - destruct fuel as [|f]; [cbn in Hfuel; lia|].
    cbn [Json.stringify]. rewrite quote_cons. cbn [app]. rewrite <- app_assoc.
    change (Json.parse_value (S f) (chr 34 :: ?t))
      with (match Json.parse_string t with
            | Some (x, r) => Some (JStr x, r)
            | None => None
            end).
    cbn [app]. by rewrite parse_string_quote.
  - rewrite json_size_arr in Hfuel. destruct fuel as [|f]; [lia|].
    rewrite stringify_arr. apply wf_json_arr in Hwf.
    destruct l as [|x l]; [reflexivity|].
    assert (Hrb : Forall reads_back (x :: l)).
    { apply Forall_forall. intros y Hy. rewrite Forall_forall in IH, Hwf. auto. }
    apply Forall_cons in Hwf as [Hx _].
    destruct (stringify_head x Hx) as (c & t & Hs & Hc).
    destruct (value_start_facts c Hc) as (Hws & _ & Hb & _).
    cbn [app]. rewrite <- app_assoc.
    change (Json.parse_value (S f) ("["%char :: ?r))
      with (match Json.skip_ws r with
            | "]"%char :: rest0 => Some (JArr [], rest0)
            | _ => match Json.parse_elems f r with
                   | Some (vs, rest0) => Some (JArr vs, rest0)
                   | None => None
                   end
            end).
    assert (Hh : exists t', elems_text (x :: l) ++ "]"%string ++ rest = c :: t').
    { destruct l as [|y l].
      - change (elems_text [x]) with (Json.stringify x). rewrite Hs. by eexists.
      - rewrite elems_text_cons, Hs. by eexists. }
    destruct Hh as [t' Ht']. rewrite Ht' at 1.
    rewrite skip_ws_start, Hb by done.
    change ("]"%string ++ rest) with ("]"%char :: rest).
    by rewrite elems_read by (done || lia).
  - rewrite json_size_obj in Hfuel. destruct fuel as [|f]; [lia|].
    rewrite stringify_obj. apply wf_json_obj in Hwf as [Hnd Hwf].
    destruct l as [|[k x] l]; [reflexivity|].
    assert (Hrb : Forall (fun kv => reads_back (snd kv)) ((k, x) :: l)).
    { apply Forall_forall. intros y Hy. rewrite Forall_forall in IH, Hwf.
      apply IH; [done|]. by apply Hwf. }
    cbn [app]. rewrite <- app_assoc.
    change (Json.parse_value (S f) ("{"%char :: ?r))
      with (match Json.skip_ws r with
            | "}"%char :: rest0 => Some (JObj [], rest0)
            | _ => match Json.parse_members f r with
                   | Some (kvs, rest0) =>
                       Some (JObj (fold_left (fun o kv => obj_set (fst kv) (snd kv) o)
                                     kvs []), rest0)
                   | None => None
                   end
            end).
    assert (Hh : exists t', members_text ((k, x) :: l) ++ "}"%string ++ rest
                            = chr 34 :: t').
    { destruct l as [|y l].
      - change (members_text [(k, x)]) with (Json.quote k ++ ":"%char :: Json.stringify x).
        rewrite quote_cons. by eexists.
      - rewrite members_text_cons, quote_cons. by eexists. }
    destruct Hh as [t' Ht']. rewrite Ht' at 1.
    change (Json.skip_ws (chr 34 :: t')) with (chr 34 :: t'). cbv iota.
    change (match chr 34 :: t' with "}"%char :: _ => _ | _ => ?b end) with b.
    change ("}"%string ++ rest) with ("}"%char :: rest).
    rewrite members_read by (done || lia).
    by rewrite (fold_obj_set _ []).
Qed.

Lemma is_digit_ascii (c : ascii) : Json.is_digit c = true -> code c <= 127.
Proof. unfold Json.is_digit. lia. Qed.

Lemma print_int_well_formed (n : Z) : Utf8.well_formed (Json.print_int n).
Proof.
  apply well_formed_ascii. unfold Json.print_int. apply Forall_app. split.
  - destruct (n <? 0); by repeat constructor.
  - eapply Forall_impl; [apply digits_all|]. apply is_digit_ascii.
Qed.

(** The written form of a well-formed value is well-formed text. *)
Lemma stringify_well_formed (v : json) : wf_json v -> Utf8.well_formed (Json.stringify v).
Proof.
  induction v as [| b | n | m k | s | l IH | l IH] using json_ind'; intros Hwf.
  - by apply well_formed_ascii; repeat constructor.
  - destruct b; by apply well_formed_ascii; repeat constructor.
  - apply print_int_well_formed.
  - destruct Hwf.
  - by apply quote_well_formed.
  - rewrite stringify_arr. apply wf_json_arr in Hwf.
    apply (well_formed_app ["["%char]); [by apply well_formed_ascii; repeat constructor|].
    apply well_formed_app; [|by apply well_formed_ascii; repeat constructor].
    induction l as [|x l IHl]; [constructor|].
    apply Forall_cons in IH as [IHx IH]. apply Forall_cons in Hwf as [Hx Hwf].
    destruct l as [|y l]; [by apply IHx|].
    rewrite elems_text_cons. apply well_formed_app; [by apply IHx|].
    apply (well_formed_app [","%char]); [by apply well_formed_ascii; repeat constructor|].
    by apply IHl.
  - rewrite stringify_obj. apply wf_json_obj in Hwf as [_ Hwf].
    apply (well_formed_app ["{"%char]); [by apply well_formed_ascii; repeat constructor|].
    apply well_formed_app; [|by apply well_formed_ascii; repeat constructor].
    induction l as [|[k x] l IHl]; [constructor|].
    apply Forall_cons in IH as [IHx IH]. apply Forall_cons in Hwf as [[Hk Hx] Hwf].
    cbn [fst snd] in *.
    assert (Hkx : Utf8.well_formed (Json.quote k ++ ":"%char :: Json.stringify x)).
    { apply well_formed_app; [by apply quote_well_formed|].
      apply (well_formed_app [":"%char]); [by apply well_formed_ascii; repeat constructor|].
      by apply IHx. }
    destruct l as [|y l]; [done|].
    rewrite members_text_cons.
    replace (Json.quote k ++ ":"%char :: Json.stringify x ++ ","%char :: members_text (y :: l))
      with ((Json.quote k ++ ":"%char :: Json.stringify x)
              ++ [","%char] ++ members_text (y :: l))
      by (by rewrite <- app_assoc).
    apply well_formed_app; [done|].
    apply well_formed_app; [by apply well_formed_ascii; repeat constructor|].
    by apply IHl.
Qed.

Lemma json_size_length (v : json) :
  wf_json v -> (json_size v <= length (Json.stringify v))%nat.
Proof.
  induction v as [| b | n | m k | s | l IH | l IH] using json_ind'; intros Hwf.
  - cbn. lia.
  - destruct b; cbn; lia.
  - destruct (stringify_head (JNum n) Hwf) as (c & t & -> & _). cbn. lia.
  - destruct Hwf.
  - cbn [Json.stringify json_size]. rewrite quote_cons. cbn [length]. lia.
  - rewrite json_size_arr, stringify_arr. apply wf_json_arr in Hwf.
    cbn [length]. rewrite length_app.
    change (length ("]"%string : list ascii)) with 1%nat.
    enough (elems_size l <= S (length (elems_text l)))%nat by lia.
    induction l as [|x l IHl]; [cbn; lia|].
    apply Forall_cons in IH as [IHx IH]. apply Forall_cons in Hwf as [Hx Hwf].
    specialize (IHx Hx). specialize (IHl IH Hwf).
    cbn [elems_size fold_right]. fold (elems_size l).
    destruct l as [|y l].
    + change (elems_text [x]) with (Json.stringify x). cbn [elems_size fold_right]. lia.
    + rewrite elems_text_cons, length_app. cbn [length]. lia.
  - rewrite json_size_obj, stringify_obj. apply wf_json_obj in Hwf as [_ Hwf].
    cbn [length]. rewrite length_app.
    change (length ("}"%string : list ascii)) with 1%nat.
    enough (members_size l <= S (length (members_text l)))%nat by lia.
    induction l as [|[k x] l IHl]; [cbn; lia|].
    apply Forall_cons in IH as [IHx IH]. apply Forall_cons in Hwf as [[Hk Hx] Hwf].
    cbn [fst snd] in *. specialize (IHx Hx). specialize (IHl IH Hwf).
    cbn [members_size fold_right snd]. fold (members_size l).
    destruct l as [|y l].
    + change (members_text [(k, x)]) with (Json.quote k ++ ":"%char :: Json.stringify x).
      rewrite length_app. cbn [length members_size fold_right]. lia.
    + rewrite members_text_cons, length_app. cbn [length]. rewrite length_app.
      cbn [length]. lia.
Qed.

(** [JSON.parse(JSON.stringify(v))] is [v]. *)
Lemma JSON_parse_stringify (v : json) : wf_json v -> JSON_parse (JSON_stringify v) = Return v.
Proof.
  intros Hwf. unfold JSON_parse, JSON_stringify, Json.parse.
  rewrite <- (app_nil_r (Json.stringify v)) at 2.
  rewrite (parse_value_stringify v Hwf); [done| |done].
  pose proof (json_size_length v Hwf). lia.
Qed.

(** [new TextDecoder().decode(new TextEncoder().encode(JSON.stringify(v)))]
    is [JSON.stringify(v)]. *)
Lemma decode_encode_stringify (v : json) :
  wf_json v -> Utf8.decode (Utf8.encode (JSON_stringify v)) = JSON_stringify v.
Proof.
  intros Hwf. unfold Utf8.encode, JSON_stringify.
  pose proof (stringify_well_formed v Hwf) as Hw.
  destruct (stringify_head v Hwf) as (c & t & Hs & Hc). rewrite Hs in *.
  apply decode_well_formed; [|done]. by apply value_start_facts.
Qed.

(** ** Signing, then verifying *)

Lemma split_token (h b s : list ascii) :
  Forall (fun c => c <> "."%char) h ->
  Forall (fun c => c <> "."%char) b ->
  Forall (fun c => c <> "."%char) s ->
  split_on "." (h ++ "."%string ++ b ++ "."%string ++ s) = [h; b; s].
Proof.
  intros Hh Hb Hs.
  change (h ++ "."%string ++ b ++ "."%string ++ s) with (h ++ "."%char :: b ++ "."%char :: s).
  by rewrite !split_on_app, split_on_no_sep.
Qed.

Lemma importKey_nonempty (secret : list ascii) : secret <> [] -> importKey secret = Return secret.
Proof. by destruct secret. Qed.

Lemma signJWT_nonempty (payload : json) (secret : list ascii) :
  secret <> [] ->
  signJWT payload secret
  = Return (b64url (Utf8.encode (JSON_stringify jwt_header)) ++ "."%string
              ++ b64url (Utf8.encode (JSON_stringify payload)) ++ "."%string
              ++ b64url (Sha256.hmac secret (signing_input payload))).
Proof.
  intros Hne. unfold signJWT. cbv zeta. by rewrite importKey_nonempty.
Qed.

Lemma signJWT_empty (payload : json) : signJWT payload [] = Throw DataError.
Proof. done. Qed.

(** The token of [payload] under [secret], verified under [secret2]: the
    two codes of the signed text are compared, then the payload decides. *)
Lemma verifyJWT_signJWT (payload : json) (secret secret2 token : list ascii) (clock : Z) :
  wf_json payload ->
  secret2 <> [] ->
  signJWT payload secret = Return token ->
  verifyJWT token secret2 clock =
    if bytes_eqb (Sha256.hmac secret2 (signing_input payload))
                 (Sha256.hmac secret (signing_input payload))
    then if num_lt (exp_of payload) (clock / 1000) then Return JNull else Return payload
    else Return JNull.
Proof.
  intros Hwf Hne Hsign.
  destruct secret as [|c secret]; [by rewrite signJWT_empty in Hsign|].
  rewrite signJWT_nonempty in Hsign by done.
  apply (f_equal token_of) in Hsign. cbn [token_of] in Hsign. subst token.
  unfold verifyJWT.
  rewrite split_token by apply b64url_no_dot.
  rewrite importKey_nonempty by done. cbn [rbind].
  rewrite b64urlDecode_b64url. cbn [rbind].
  unfold subtle_verify. fold (signing_input payload).
  unfold Utf8.encode at 1.
  destruct (bytes_eqb _ _); [|done]. cbn [negb].
  rewrite b64urlDecode_b64url. cbn [rbind].
  rewrite decode_encode_stringify, JSON_parse_stringify by done. cbn [rbind].
  destruct payload as [| b | n | m k | s | l | l];
    cbn [get_prop rbind exp_of try_catch is_number num_lt andb];
    [done | done | done | destruct Hwf | done | done |].
  destruct (obj_get "exp"%string l) as [[]|];
    cbn [is_number num_lt andb try_catch]; try done; by destruct (_ <? _).
Qed.



Lemma sample_payload_wf : wf_json (session_payload "u1"%string 605800).
Proof.
  split; [|split; [|split; [|split; [|split]]]].
  - apply NoDup_cons. split; [|apply NoDup_singleton].
    intros H%list_elem_of_singleton. discriminate H.
  - apply well_formed_ascii. repeat constructor; by vm_compute.
  - apply well_formed_ascii. repeat constructor; by vm_compute.
  - apply well_formed_ascii. repeat constructor; by vm_compute.
  - cbn. lia.
  - done.
Qed.


(** ** A session, from login to the auth gate *)

Lemma b64url_no_semicolon (bs : list ascii) : Forall (fun c => c <> ";"%char) (b64url bs).
Proof.
  rewrite b64url_chars. apply Forall_forall. intros c Hc.
  apply list_elem_of_In, in_map_iff in Hc. destruct Hc as (s & <- & Hs).
  pose proof (sextets_range bs) as Hr. rewrite Forall_forall in Hr.
  apply list_elem_of_In, Hr in Hs. sextet s Hs.
Qed.

Lemma strip_prefix_app (p s : list ascii) : strip_prefix p (p ++ s) = Some s.
Proof.
  induction p as [|x p IH]; [done|]. cbn [strip_prefix app]. by rewrite ascii_eqb_refl.
Qed.

Lemma take_until_all (c : ascii) (s : list ascii) :
  Forall (fun x => x <> c) s -> take_until c s = s.
Proof.
  induction 1 as [|x s Hx _ IH]; [done|]. cbn [take_until].
  by rewrite (proj2 (ascii_eqb_neq _ _) Hx), IH.
Qed.

(** The cookie header that carries a token gives the token back. *)
Lemma match_session_cookie (token : list ascii) :
  token <> [] ->
  Forall (fun c => c <> ";"%char) token ->
  match_session (COOKIE_NAME ++ "="%string ++ token) = Some token.
Proof.
  intros Hne Hsemi.
  change (COOKIE_NAME ++ "="%string ++ token)
    with (("wokspec_session="%string : list ascii) ++ token).
  set (name := ("wokspec_session="%string : list ascii)).
  assert (Hname : exists c t, name ++ token = c :: t) by (by eexists _, _).
  destruct Hname as (c & t & Hct). unfold match_session. rewrite Hct.
  fold match_session. rewrite <- Hct, strip_prefix_app, take_until_all by done.
  by destruct token.
Qed.

Lemma signed_token_shape (payload : json) (secret token : list ascii) :
  signJWT payload secret = Return token ->
  token <> [] /\ Forall (fun c => c <> ";"%char) token.
Proof.
  intros Hsign. destruct secret as [|x secret]; [by rewrite signJWT_empty in Hsign|].
  rewrite signJWT_nonempty in Hsign by done.
  apply (f_equal token_of) in Hsign. cbn [token_of] in Hsign. subst token. split.
  - intros H. apply (f_equal length) in H. rewrite !length_app in H.
    change (length ("."%string : list ascii)) with 1%nat in H.
    change (length (@nil ascii)) with 0%nat in H. lia.
  - repeat (apply Forall_app; split); try apply b64url_no_semicolon;
      repeat constructor; done.
Qed.

Lemma session_payload_wf (uid : list ascii) (exp : Z) :
  Utf8.well_formed uid ->
  - (2 ^ 53 - 1) <= exp <= 2 ^ 53 - 1 ->
  wf_json (session_payload uid exp).
Proof.
  intros Huid Hexp. split; [|split; [|split; [|split; [|split]]]]; try done.
  - apply NoDup_cons. split; [|apply NoDup_singleton].
    intros H%list_elem_of_singleton. discriminate H.
  - apply well_formed_ascii. repeat constructor; by vm_compute.
  - apply well_formed_ascii. repeat constructor; by vm_compute.
Qed.

(** The session that [createSession] mints for a stored user is accepted by
    [/me] and by the auth gate up to and including the second of its
    expiry, and refused after it. *)
Theorem session_accepted_until_expiry (env : Env) (db : D1Database) (uid : list ascii)
    (user : AuthUser) (clock clock' : Z) :
  JWT_SECRET env <> [] ->
  Utf8.well_formed uid ->
  0 <= clock / 1000 <= 2 ^ 52 ->
  select_user db uid = Some user ->
  exists token,
    createSession (JWT_SECRET env) uid clock = Return token /\
    (clock' / 1000 <= clock / 1000 + SESSION_TTL ->
     me env db clock' (cookie_of token)
     = Return (c_json (JObj [("ok"%string : list ascii, JBool true);
                             ("user"%string : list ascii, user_json user)]) 200) /\
     forall next, requireAuth env db clock' (cookie_of token) next = next user) /\
    (clock / 1000 + SESSION_TTL < clock' / 1000 ->
     me env db clock' (cookie_of token) = Return (me_error "Invalid session") /\
     forall next,
       requireAuth env db clock' (cookie_of token) next
       = Return (unauthorized "Invalid session")).
Proof.
  intros Hne Huid Hclock Huser.
  set (exp := clock / 1000 + SESSION_TTL).
  assert (Hwf : wf_json (session_payload uid exp)).
  { apply session_payload_wf; [done|]. unfold exp, SESSION_TTL. lia. }
  destruct (createSession (JWT_SECRET env) uid clock) as [token|e] eqn:Hsign.
  2:{ unfold createSession in Hsign. by rewrite signJWT_nonempty in Hsign. }
  exists token. split; [done|].
  change (createSession (JWT_SECRET env) uid clock)
    with (signJWT (session_payload uid exp) (JWT_SECRET env)) in Hsign.
  destruct (signed_token_shape _ _ _ Hsign) as [Ht1 Ht2].
  pose proof (verifyJWT_signJWT _ _ (JWT_SECRET env) token clock' Hwf Hne Hsign) as Hv.
  rewrite bytes_eqb_refl in Hv.
  assert (He : exp_of (session_payload uid exp) = Some (JNum exp)) by reflexivity.
  assert (Hs : get_prop (session_payload uid exp) "sub"%string = Return (Some (JStr uid)))
    by reflexivity.
  rewrite He in Hv. cbn [num_lt] in Hv.
  unfold me, requireAuth, cookie_of. rewrite match_session_cookie by done.
  rewrite Hv. split; intros Hexp.
  - rewrite (proj2 (Z.ltb_ge exp (clock' / 1000))) by (unfold exp; lia).
    cbn [rbind]. change (falsy (session_payload uid exp)) with false. cbv iota.
    rewrite Hs. cbn [rbind]. by rewrite Huser.
  - by rewrite (proj2 (Z.ltb_lt exp (clock' / 1000))) by (unfold exp; lia).
Qed.

Lemma session_accepted_until_expiry_witness :
  let user := {| au_id := "u1"%string; au_email := Some ("a@example.org"%string : list ascii);
                 au_username := Some ("ann"%string : list ascii);
                 au_display_name := None; au_avatar_url := None |} in
  exists token,
    createSession "secret"%string "u1"%string 1000 = Return token /\
    (forall next, requireAuth sample_env sample_db 604801999 (cookie_of token) next = next user) /\
    (forall next, requireAuth sample_env sample_db 604802000 (cookie_of token) next
                  = Return (unauthorized "Invalid session")).
Proof.
  intros user.
  assert (Hne : JWT_SECRET sample_env <> []) by discriminate.
  assert (Huid : Utf8.well_formed ("u1"%string : list ascii))
    by (apply well_formed_ascii; repeat constructor; by vm_compute).
  assert (Hclock : 0 <= 1000 / 1000 <= 2 ^ 52) by (vm_compute; split; discriminate).
  assert (Huser : select_user sample_db "u1"%string = Some user) by reflexivity.
  destruct (session_accepted_until_expiry sample_env sample_db "u1"%string user
              1000 604801999 Hne Huid Hclock Huser) as (token & Hsign & Hok & _).
  destruct (session_accepted_until_expiry sample_env sample_db "u1"%string user
              1000 604802000 Hne Huid Hclock Huser) as (token' & Hsign' & _ & Hold).
  assert (token' = token) as -> by congruence.
  exists token. split; [exact Hsign|]. split.
  - apply Hok. vm_compute. discriminate.
  - apply Hold. vm_compute. reflexivity.
Defined.

(** A token that [signJWT] returns has three segments, the third of which
    is the code of the first two under the secret. *)
Theorem signJWT_well_signed (payload : json) (secret token : list ascii) :
  signJWT payload secret = Return token ->
  length (split_on "." token) = 3%nat /\ signature_ok token secret = true.
Proof.
  intros Hsign. destruct secret as [|x secret]; [by rewrite signJWT_empty in Hsign|].
  rewrite signJWT_nonempty in Hsign by done.
  apply (f_equal token_of) in Hsign. cbn [token_of] in Hsign. subst token.
  unfold signature_ok. rewrite split_token by apply b64url_no_dot.
  split; [done|]. rewrite importKey_nonempty, b64urlDecode_b64url by done.
  unfold subtle_verify. apply bytes_eqb_refl.
Qed.

Lemma signJWT_well_signed_witness :
  length (split_on "."
    (token_of (signJWT (session_payload "u1"%string 605800) "secret"%string))) = 3%nat /\
  signature_ok
    (token_of (signJWT (session_payload "u1"%string 605800) "secret"%string))
    "secret"%string = true.
Proof.
  apply (signJWT_well_signed (session_payload "u1"%string 605800) "secret"%string).
  vm_compute. reflexivity.
Defined.

Lemma verifyJWT_raises_witness :
  returns (verifyJWT "a.b.c"%string "s"%string 0) = false /\
  returns (verifyJWT "a.b.cc"%string "s"%string 0) = true /\
  returns (verifyJWT "a.b.cc"%string [] 0) = false.
Proof.
  split; [|split].
  - rewrite (verifyJWT_raises "a"%string "b"%string "c"%string) by reflexivity. reflexivity.
  - rewrite (verifyJWT_raises "a"%string "b"%string "cc"%string) by reflexivity. reflexivity.
  - rewrite (verifyJWT_raises "a"%string "b"%string "cc"%string) by reflexivity. reflexivity.
Defined.

(** Every store that calls of [upsertUser] build from the empty one meets
    the constraints of the schema. *)
Theorem reachable_store_ok (cs : list upsert_call) : db_ok (run_upserts empty_db cs).
Proof. apply run_upserts_ok, db_ok_empty. Qed.

(** ** The product registry and the status aggregator *)

Lemma find_slug_none (P : list WokProduct) (slug : list ascii) :
  slug ∉ map wp_slug P ->
  List.find (fun p => bytes_eqb (wp_slug p) slug) P = None.
Proof.
  induction P as [|q P IH]; [done|]. cbn [map List.find]. intros Hn.
  apply not_elem_of_cons in Hn as [Hne Hn].
  rewrite (proj2 (bytes_eqb_neq (wp_slug q) slug)) by congruence. auto.
Qed.

Lemma find_slug_some (P : list WokProduct) (p : WokProduct) :
  NoDup (map wp_slug P) -> p ∈ P ->
  List.find (fun q => bytes_eqb (wp_slug q) (wp_slug p)) P = Some p.
Proof.
  induction P as [|q P IH]; intros Hnd Hp; [by apply elem_of_nil in Hp|].
  cbn [map] in Hnd. apply NoDup_cons in Hnd as [Hq Hnd]. cbn [List.find].
  apply elem_of_cons in Hp as [->|Hp]; [by rewrite bytes_eqb_refl|].
  rewrite (proj2 (bytes_eqb_neq (wp_slug q) (wp_slug p))); [auto|].
  intros Heq. apply Hq. rewrite Heq. by apply (list_elem_of_fmap_2 wp_slug).
Qed.

(** Looking a product up by its slug: a slug that no entry of the registry
    has gets 404; when the slugs of the registry are distinct, the slug of
    an entry gets that entry. *)
Theorem project_route_lookup (P : list WokProduct) :
  (forall slug, slug ∉ map wp_slug P -> project_route P slug = not_found)
  /\ (NoDup (map wp_slug P) ->
      forall p, p ∈ P ->
        project_route P (wp_slug p)
        = c_json (JObj [("ok"%string : list ascii, JBool true);
                        ("project"%string : list ascii, product_json p)]) 200).
Proof.
  split.
  - intros slug Hn. unfold project_route. by rewrite find_slug_none.
  - intros Hnd p Hp. unfold project_route. by rewrite find_slug_some.
Qed.

Lemma PRODUCTS_slugs : NoDup (map wp_slug PRODUCTS).
Proof.
  cbn [map PRODUCTS wp_slug].
  repeat (apply NoDup_cons; split;
          [rewrite ?elem_of_cons, elem_of_nil; intros H; intuition discriminate|]).
  apply NoDup_nil_2.
Qed.

Lemma project_route_lookup_witness :
  project_route PRODUCTS "eral-2"%string = not_found
  /\ project_route PRODUCTS "eral"%string
     = c_json (JObj [("ok"%string : list ascii, JBool true);
                     ("project"%string : list ascii, product_json (entry 3))]) 200.
Proof.
  split.
  - apply (proj1 (project_route_lookup PRODUCTS)).
    cbn [map PRODUCTS wp_slug]. rewrite !elem_of_cons, elem_of_nil.
    intros H; intuition discriminate.
  - assert (Hin : entry 3 ∈ PRODUCTS).
    { unfold entry, PRODUCTS. cbn [nth]. rewrite !elem_of_cons. auto. }
    exact (proj2 (project_route_lookup PRODUCTS) PRODUCTS_slugs (entry 3) Hin).
Defined.

Lemma probe_status (p : WokProduct) (ob : observation) :
  hc_status (probe p ob)
  = if fine (ob_res ob) then hc_ok else if gone (ob_res ob) then hc_down else hc_degraded.
Proof.
  unfold probe, fine, gone, res_ok. destruct (ob_res ob) as [st|m]; [|done].
  destruct ((200 <=? st) && (st <=? 299)) eqn:Hok; [done|].
  by destruct (500 <=? st).
Qed.

Lemma gone_not_fine (res : fetched) : gone res = true -> fine res = false.
Proof.
  destruct res as [st|m]; [|done]. cbn [gone fine]. intros H.
  apply andb_false_iff. lia.
Qed.

Lemma existsb_imap {A B} (f : B -> bool) (g : nat -> A -> B) (l : list A) :
  existsb f (imap g l) = true <-> exists i x, l !! i = Some x /\ f (g i x) = true.
Proof.
  rewrite existsb_true_iff. split.
  - intros (y & Hy & Hf). apply elem_of_lookup_imap in Hy as (i & x & -> & Hx). eauto.
  - intros (i & x & Hx & Hf). exists (g i x). split; [|done].
    apply elem_of_lookup_imap. eauto.
Qed.

Lemma any_down (P : list WokProduct) (obs : nat -> observation) :
  existsb (fun ch => health_eqb (hc_status ch) hc_down) (imap (fun i p => probe p (obs i)) P)
  = true
  <-> exists i p, P !! i = Some p /\ gone (ob_res (obs i)) = true.
Proof.
  rewrite existsb_imap. split; intros (i & p & Hp & H); exists i, p; (split; [done|]).
  - rewrite probe_status in H. destruct (fine _); [done|]. by destruct (gone _).
  - rewrite probe_status, (gone_not_fine _ H), H. done.
Qed.

Lemma any_degraded (P : list WokProduct) (obs : nat -> observation) :
  existsb (fun ch => health_eqb (hc_status ch) hc_degraded)
    (imap (fun i p => probe p (obs i)) P) = true
  <-> exists i p, P !! i = Some p /\ fine (ob_res (obs i)) = false
                  /\ gone (ob_res (obs i)) = false.
Proof.
  rewrite existsb_imap. split; intros (i & p & Hp & H); exists i, p; (split; [done|]).
  - rewrite probe_status in H. destruct (fine _); [done|]. by destruct (gone _).
  - destruct H as [Hf Hg]. by rewrite probe_status, Hf, Hg.
Qed.

(** The status route reports the worst verdict: 503 and [down] when the
    request to some product failed or was answered with a status from 500
    on; otherwise 200, with [degraded] when some answer was outside 200 to
    299 and [ok] when none was. There is one check for every product, in
    the order of the registry. *)
Theorem status_route_worst (P : list WokProduct) (obs : nat -> observation)
    (ts : list ascii) :
  let checks := imap (fun i p => probe p (obs i)) P in
  map hc_slug checks = map wp_slug P
  /\ ((exists i p, P !! i = Some p /\ gone (ob_res (obs i)) = true) ->
      status_route P obs ts = status_answer hc_down ts checks)
  /\ ((forall i p, P !! i = Some p -> gone (ob_res (obs i)) = false) ->
      (exists i p, P !! i = Some p /\ fine (ob_res (obs i)) = false) ->
      status_route P obs ts = status_answer hc_degraded ts checks)
  /\ ((forall i p, P !! i = Some p -> fine (ob_res (obs i)) = true) ->
      status_route P obs ts = status_answer hc_ok ts checks).
Proof.
  intros checks. split; [|split; [|split]].
  - subst checks. apply list_eq. intros i.
    rewrite !list_lookup_fmap, list_lookup_imap.
    destruct (P !! i) as [p|]; [|done]. cbn.
    unfold probe. destruct (ob_res (obs i)) as [st|m]; [|done].
    destruct (res_ok st); [done|]. by destruct (500 <=? st).
  - intros Hd. apply any_down in Hd. unfold status_route, status_answer.
    fold checks in Hd |- *. rewrite Hd. done.
  - intros Hnone Hsome. unfold status_route, status_answer. fold checks.
    assert (Hd : existsb (fun ch => health_eqb (hc_status ch) hc_down) checks = false).
    { apply not_true_is_false. intros H. apply any_down in H as (i & p & Hp & Hg).
      rewrite (Hnone i p Hp) in Hg. done. }
    assert (Hg : existsb (fun ch => health_eqb (hc_status ch) hc_degraded) checks = true).
    { apply any_degraded. destruct Hsome as (i & p & Hp & Hf). exists i, p. eauto. }
    rewrite Hd, Hg. done.
  - intros Hall. unfold status_route, status_answer. fold checks.
    assert (Hd : existsb (fun ch => health_eqb (hc_status ch) hc_down) checks = false).
    { apply not_true_is_false. intros H. apply any_down in H as (i & p & Hp & Hg).
      apply gone_not_fine in Hg. rewrite (Hall i p Hp) in Hg. done. }
    assert (Hg : existsb (fun ch => health_eqb (hc_status ch) hc_degraded) checks = false).
    { apply not_true_is_false. intros H. apply any_degraded in H as (i & p & Hp & Hf & _).
      rewrite (Hall i p Hp) in Hf. done. }
    rewrite Hd, Hg. done.
Qed.

Lemma status_route_worst_witness :
  status (status_route PRODUCTS (fun i => answered (if (i =? 2)%nat then 503 else 200)) [])
  = 503
  /\ status (status_route PRODUCTS (fun i => answered (if (i =? 2)%nat then 404 else 200)) [])
     = 200
  /\ status (status_route PRODUCTS (fun _ => answered 204) []) = 200.
Proof.
  split; [|split].
  - rewrite (proj1 (proj2 (status_route_worst PRODUCTS _ []))); [reflexivity|].
    exists 2%nat. eexists. split; reflexivity.
  - rewrite (proj1 (proj2 (proj2 (status_route_worst PRODUCTS _ [])))); [reflexivity| |].
    + intros [|[|[|[|i]]]] p Hp; reflexivity.
    + exists 2%nat. eexists. split; reflexivity.
  - rewrite (proj2 (proj2 (proj2 (status_route_worst PRODUCTS _ [])))); [reflexivity|].
    intros i p _. reflexivity.
Defined.

Lemma check_members_keys (ch : HealthCheck) (b : json) :
  NoDup (map fst ([("ok"%string : list ascii, b)] ++ check_members ch)).
Proof.
  unfold check_members. destruct (hc_detail ch); cbn [map fst app];
    repeat (apply NoDup_cons; split;
            [rewrite ?elem_of_cons, elem_of_nil; intros H; intuition discriminate|]);
    apply NoDup_nil_2.
Qed.

(** The status of one product: a slug that no entry has gets 404, whatever
    would be observed; for the slug of an entry the answer holds [ok]
    followed by the properties of the check, [ok] being true exactly when
    the product answered with a status from 200 to 299, and the answer is
    503 exactly when the request failed or was answered with a status from
    500 on. *)
Theorem product_status_route_cases (P : list WokProduct) (ob : observation) :
  (forall slug, slug ∉ map wp_slug P -> product_status_route P slug ob = not_found)
  /\ (NoDup (map wp_slug P) ->
      forall p, p ∈ P ->
        product_status_route P (wp_slug p) ob
        = c_json (JObj (("ok"%string : list ascii, JBool (fine (ob_res ob)))
                          :: check_members (probe p ob)))
            (if gone (ob_res ob) then 503 else 200)).
Proof.
  split.
  - intros slug Hn. unfold product_status_route. by rewrite find_slug_none.
  - intros Hnd p Hp. unfold product_status_route. rewrite find_slug_some by done.
    cbv zeta. rewrite fold_obj_set by apply check_members_keys.
    rewrite probe_status. cbn [app].
    destruct (fine (ob_res ob)) eqn:Hf.
    + destruct (gone (ob_res ob)) eqn:Hg; [|done].
      apply gone_not_fine in Hg. congruence.
    + by destruct (gone (ob_res ob)).
Qed.

Lemma product_status_route_cases_witness :
  product_status_route PRODUCTS "nope"%string (answered 200) = not_found
  /\ status (product_status_route PRODUCTS "wokgen"%string (answered 502)) = 503.
Proof.
  split.
  - apply (proj1 (product_status_route_cases PRODUCTS (answered 200))).
    cbn [map PRODUCTS wp_slug]. rewrite !elem_of_cons, elem_of_nil.
    intros H; intuition discriminate.
  - assert (Hin : entry 0 ∈ PRODUCTS).
    { unfold entry, PRODUCTS. cbn [nth]. rewrite !elem_of_cons. auto. }
    exact (f_equal status
             (proj2 (product_status_route_cases PRODUCTS (answered 502)) PRODUCTS_slugs
                (entry 0) Hin)).
Defined.
Lemma units_lone_surrogate (b0 b1 b2 : ascii) :
  units (Utf8.of_code_point (high_surrogate b0 b1 b2)) = 1%nat.
Proof.
  pose proof (code_range b0). pose proof (code_range b1). pose proof (code_range b2).
  assert (Hr : 55232 <= high_surrogate b0 b1 b2 <= 57279) by (unfold high_surrogate; lia).
  set (h := high_surrogate b0 b1 b2) in *. unfold Utf8.of_code_point.
  destruct (Z.ltb_spec h 128); [lia|]. destruct (Z.ltb_spec h 2048); [lia|].
  destruct (Z.ltb_spec h 65536); [|lia].
  cbn [units]. unfold is_continuation. rewrite !code_chr by lia.
  assert (H224 : 224 + h / 4096 = 237) by lia. rewrite H224.
  destruct (Z.leb_spec 128 (128 + h / 64 mod 64)); [|lia].
  destruct (Z.leb_spec (128 + h / 64 mod 64) 191); [|lia].
  destruct (Z.leb_spec 128 (128 + h mod 64)); [|lia].
  destruct (Z.leb_spec (128 + h mod 64) 191); [|lia].
  reflexivity.
Qed.

Lemma units_slice (n : nat) (s : list ascii) : (units (slice n s) <= n)%nat.
Proof.
  revert n. induction s as [|c s IH]; intros n; cbn [slice units]; [lia|].
  destruct (is_continuation c) eqn:Hc.
  { cbn [units]. rewrite Hc. apply IH. }
  destruct n as [|n]; [cbn; lia|].
  destruct (code c <? 240) eqn:H240.
  { cbn [units]. rewrite Hc, H240. specialize (IH n). lia. }
  destruct n as [|n].
  - destruct s as [|b1 [|b2 s]]; [cbn; lia..|]. rewrite units_lone_surrogate. lia.
  - cbn [units]. rewrite Hc, H240. specialize (IH n). lia.
Qed.

Lemma slice_all (n : nat) (s : list ascii) : (units s <= n)%nat -> slice n s = s.
Proof.
  revert n. induction s as [|c s IH]; intros n; cbn [slice units]; [done|].
  destruct (is_continuation c) eqn:Hc.
  { intros H. f_equal. apply IH. lia. }
  destruct (code c <? 240) eqn:H240.
  { destruct n as [|n]; [lia|]. intros H. f_equal. apply IH. lia. }
  destruct n as [|[|n]]; [lia..|]. intros H. f_equal. apply IH. lia.
Qed.

(** What a probe reports of a request that failed with an error: the
    product is down, and the detail is the message when that has at most
    120 code units, and never has more than 120. No probe reports
    [unknown], and there is a detail exactly when the product is not [ok]. *)
Theorem probe_detail (product : WokProduct) (ob : observation) :
  hc_status (probe product ob) <> hc_unknown
  /\ (hc_detail (probe product ob) = None <-> hc_status (probe product ob) = hc_ok)
  /\ forall message, ob_res ob = Failed (Some message) ->
       hc_status (probe product ob) = hc_down /\
       exists d, hc_detail (probe product ob) = Some d /\
                 (units d <= 120)%nat /\
                 ((units message <= 120)%nat -> d = message).
Proof.
  split; [|split].
  - rewrite probe_status. destruct (fine _); [done|]. by destruct (gone _).
  - unfold probe. destruct (ob_res ob) as [st|m]; [|done].
    destruct (res_ok st); [done|]. by destruct (500 <=? st).
  - intros message Hm. unfold probe. rewrite Hm. cbn. split; [done|].
    eexists. split; [done|]. split; [apply units_slice|apply slice_all].
Qed.

Lemma probe_detail_witness :
  hc_detail (probe (entry 0)
               {| ob_checked_at := []; ob_start := 0;
                  ob_res := Failed (Some ("timeout"%string : list ascii));
                  ob_finish := 5000 |})
  = Some ("timeout"%string : list ascii).
Proof.
  destruct (proj2 (proj2 (probe_detail (entry 0)
               {| ob_checked_at := []; ob_start := 0;
                  ob_res := Failed (Some ("timeout"%string : list ascii));
                  ob_finish := 5000 |})) "timeout"%string eq_refl)
    as (_ & d & Hd & _ & Hall).
  rewrite Hd. f_equal. apply Hall. vm_compute. lia.
Defined.
(** ** The form serializer and the login routes *)

Lemma usv_cons (a : ascii) (t : list ascii) : code a <> 237 -> usv (a :: t) = a :: usv t.
Proof.
  intros H. cbn [usv]. destruct t as [|b [|c t]]; [done..|].
  destruct (Z.eqb_spec (code a) 237); [done|]. done.
Qed.

Lemma usv_continuations (cs s : list ascii) :
  Forall Utf8.continuation cs -> usv (cs ++ s) = cs ++ usv s.
Proof.
  induction 1 as [|c cs Hc _ IH]; [done|]. cbn [app].
  rewrite usv_cons by (unfold Utf8.continuation in Hc; lia). by rewrite IH.
Qed.

Lemma lead_237 (b : ascii) (n : nat) (lo hi : Z) :
  Utf8.lead b = Utf8.Lead n lo hi -> code b = 237 -> hi = 159.
Proof.
  unfold Utf8.lead. intros H Hb. rewrite Hb in H. cbn in H. by injection H as _ _ <-.
Qed.

Lemma usv_well_formed (s : list ascii) : Utf8.well_formed s -> usv s = s.
Proof.
  induction 1 as [|b s Hb _ IH|b n lo hi c cs s Hl Hc Hcs Hn _ IH]; [done| |].
  - rewrite usv_cons by lia. by rewrite IH.
  - assert (Hstep : usv (b :: c :: cs ++ s) = b :: usv (c :: cs ++ s)).
    { destruct (Z.eq_dec (code b) 237) as [Hb|Hb]; [|by apply usv_cons].
      pose proof (lead_237 _ _ _ _ Hl Hb) as ->.
      cbn [usv]. destruct (cs ++ s) as [|d t]; [done|].
      destruct (Z.leb_spec 160 (code c)); [lia|]. by rewrite andb_false_r. }
    rewrite Hstep.
    change (c :: cs ++ s) with ((c :: cs) ++ s).
    rewrite usv_continuations, IH; [done|].
    constructor; [|done].
    unfold Utf8.continuation. unfold Utf8.lead in Hl.
    repeat match type of Hl with
           | (if ?x then _ else _) = _ => destruct x eqn:?; try discriminate Hl
           end; injection Hl as _ <- <-;
    repeat match type of Hc with
           | context [if ?x then _ else _] => destruct x
           end; lia.
Qed.

Lemma form_byte_chars (c : ascii) : forallb form_char (form_byte c) = true.
Proof. ascii_cases c; vm_compute; reflexivity. Qed.

Lemma form_unescape_byte (c : ascii) (rest : list ascii) :
  form_unescape (form_byte c ++ rest) = c :: form_unescape rest.
Proof. ascii_cases c; reflexivity. Qed.

Lemma form_unescape_encode (s : list ascii) :
  form_unescape (form_encode s) = usv s.
Proof.
  unfold form_encode, Utf8.encode. induction (usv s) as [|c t IH]; [done|].
  cbn [map concat]. by rewrite form_unescape_byte, IH.
Qed.

Lemma form_decode_encode (s : list ascii) :
  Utf8.well_formed s -> form_decode (form_encode s) = s.
Proof.
  intros H. unfold form_decode.
  by rewrite form_unescape_encode, usv_well_formed, dec_well_formed.
Qed.

Lemma form_encode_chars (s : list ascii) :
  Forall (fun c => form_char c = true) (form_encode s).
Proof.
  unfold form_encode, Utf8.encode. induction (usv s) as [|c t IH]; [constructor|].
  cbn [map concat]. apply Forall_app. split; [|done].
  apply Forall_forall. intros x Hx. pose proof (form_byte_chars c) as H.
  rewrite forallb_forall in H. apply H. by apply list_elem_of_In.
Qed.

Lemma form_char_not (c x : ascii) :
  form_char x = false -> Forall (fun c => form_char c = true) [c] -> c <> x.
Proof. intros Hx Hc ->. apply Forall_inv in Hc. congruence. Qed.

Lemma form_encode_without (x : ascii) (s : list ascii) :
  form_char x = false -> Forall (fun c => c <> x) (form_encode s).
Proof.
  intros Hx. eapply Forall_impl; [apply form_encode_chars|].
  intros c Hc ->. cbv beta in Hc. congruence.
Qed.

Lemma take_until_app (c : ascii) (a b : list ascii) :
  Forall (fun x => x <> c) a -> take_until c (a ++ c :: b) = a.
Proof.
  induction 1 as [|x a Hx _ IH]; cbn [app take_until].
  - unfold ascii_eqb. by rewrite Ascii.eqb_refl.
  - rewrite (proj2 (ascii_eqb_neq x c)) by done. by rewrite IH.
Qed.

(** The piece that the serializer writes for one pair. *)
Lemma pair_read (k v : list ascii) :
  Utf8.well_formed k -> Utf8.well_formed v ->
  let piece := form_encode k ++ "="%string ++ form_encode v in
  (form_decode (take_until "=" piece),
   form_decode (drop (S (length (take_until "=" piece))) piece)) = (k, v).
Proof.
  intros Hk Hv piece. subst piece.
  change ("="%string ++ form_encode v) with ("="%char :: form_encode v).
  rewrite take_until_app by (by apply form_encode_without).
  rewrite form_decode_encode by done. f_equal.
  change (S (length (form_encode k))) with (length (form_encode k) + 1)%nat
    || replace (S (length (form_encode k))) with (length (form_encode k) + 1)%nat by lia.
  rewrite <- drop_drop, drop_app_length. cbn [drop]. by apply form_decode_encode.
Qed.

Lemma URLSearchParams_cons (k v : list ascii) (rest : list (list ascii * list ascii)) :
  rest <> [] ->
  URLSearchParams ((k, v) :: rest)
  = (form_encode k ++ "="%string ++ form_encode v) ++ "&"%char :: URLSearchParams rest.
Proof.
  intros H. cbn [URLSearchParams]. destruct rest; [done|]. by rewrite <- !app_assoc.
Qed.

Lemma piece_without_ampersand (k v : list ascii) :
  Forall (fun c => c <> "&"%char) (form_encode k ++ "="%string ++ form_encode v).
Proof.
  apply Forall_app. split; [by apply form_encode_without|].
  apply Forall_app. split; [by repeat constructor|by apply form_encode_without].
Qed.

Lemma split_URLSearchParams (params : list (list ascii * list ascii)) :
  params <> [] ->
  split_on "&" (URLSearchParams params)
  = map (fun kv => form_encode (fst kv) ++ "="%string ++ form_encode (snd kv)) params.
Proof.
  induction params as [|[k v] rest IH]; [done|]. intros _.
  destruct rest as [|kv rest].
  - cbn [URLSearchParams map fst snd]. rewrite !app_nil_r.
    apply split_on_no_sep. pose proof (piece_without_ampersand k v) as H.
    by rewrite app_nil_r in H || exact H.
  - rewrite URLSearchParams_cons by done.
    rewrite split_on_app by apply piece_without_ampersand.
    rewrite IH by done. done.
Qed.

(** Reading what the serializer wrote gives the pairs back: no name and no
    value can add a pair or change another one. *)
Lemma parse_query_URLSearchParams (params : list (list ascii * list ascii)) :
  Forall (fun kv => Utf8.well_formed (fst kv) /\ Utf8.well_formed (snd kv)) params ->
  parse_query (URLSearchParams params) = params.
Proof.
  intros Hwf. unfold parse_query. destruct (decide (params = [])) as [->|Hne]; [done|].
  rewrite split_URLSearchParams by done. clear Hne.
  induction Hwf as [|[k v] rest [Hk Hv] _ IH]; [done|].
  cbn [map fst snd List.filter].
  assert (Hne : bytes_eqb (form_encode k ++ "="%string ++ form_encode v) [] = false).
  { apply bytes_eqb_neq. intros H. apply app_eq_nil in H as [_ H]. discriminate H. }
  rewrite Hne. cbn [negb map]. rewrite IH. f_equal. by apply pair_read.
Qed.
Lemma hex2_ascii (b : ascii) : forallb (fun c => code c <=? 127) (hex2 b) = true.
Proof. ascii_cases b; reflexivity. Qed.

Lemma state_well_formed (rnd : list ascii) : Utf8.well_formed (concat (map hex2 rnd)).
Proof.
  apply well_formed_ascii. induction rnd as [|b rnd IH]; [constructor|].
  cbn [map concat]. apply Forall_app. split; [|done].
  apply Forall_forall. intros x Hx. apply Z.leb_le.
  pose proof (hex2_ascii b) as H. rewrite forallb_forall in H.
  apply H. by apply list_elem_of_In.
Qed.

Lemma state_length (rnd : list ascii) :
  length (concat (map hex2 rnd)) = (2 * length rnd)%nat.
Proof. induction rnd as [|b rnd IH]; [done|]. cbn [map concat length hex2 app]. lia. Qed.

Lemma ascii_well_formed (s : list ascii) :
  forallb (fun c => code c <=? 127) s = true -> Utf8.well_formed s.
Proof.
  intros H. apply well_formed_ascii, Forall_forall. intros x Hx. apply Z.leb_le.
  rewrite forallb_forall in H. apply H. by apply list_elem_of_In.
Qed.

(** A login route stores a fresh state for 600 seconds and redirects to
    the consent page of its provider; the query of the address reads back
    as the client identifier, the callback address, the scope and the
    state, whatever the configured identifier contains, and calls no
    provider. *)
Theorem login_route_redirects (p : provider) (env : Env) (rnd : list ascii) (clock : Z)
    (w : world) :
  Utf8.well_formed (client_id p env) ->
  let state := concat (map hex2 rnd) in
  exists query,
    login_route p env rnd clock w
    = (Return (c_redirect (authorize_url p ++ "?"%string ++ query)),
       {| w_kv := kv_put (w_kv w) (state_key state) "1"%string 600 clock;
          w_db := w_db w; w_calls := w_calls w |})
    /\ parse_query query = authorize_params p env state
    /\ Forall (fun c => form_char c = true \/ c = "="%char \/ c = "&"%char) query
    /\ length state = (2 * length rnd)%nat.
Proof.
  intros Hid state. exists (URLSearchParams (authorize_params p env state)).
  split; [|split; [|split]].
  - destruct p; reflexivity.
  - apply parse_query_URLSearchParams.
    pose proof (state_well_formed rnd) as Hs. fold state in Hs.
    destruct p; cbn [authorize_params];
      repeat (apply Forall_cons; split;
              [split; cbn [fst snd];
               first [assumption | apply ascii_well_formed; reflexivity]|]);
      apply Forall_nil_2.
  - generalize (authorize_params p env state). intros params.
    induction params as [|[k v] rest IH]; [constructor|]. cbn [URLSearchParams].
    assert (Henc : forall s, Forall (fun c => form_char c = true \/ c = "="%char
                                              \/ c = "&"%char) (form_encode s)).
    { intros s. eapply Forall_impl; [apply form_encode_chars|]. auto. }
    apply Forall_app. split; [apply Henc|].
    apply Forall_cons. split; [auto|].
    apply Forall_app. split; [apply Henc|].
    destruct rest; [constructor|]. apply Forall_cons. split; [auto|done].
  - apply state_length.
Qed.

Lemma login_route_redirects_witness :
  fst (login_route google sample_env "0123456789abcdef"%string 0 empty_world)
  = Return
      (c_redirect
         ("https://accounts.google.com/o/oauth2/v2/auth?client_id=g-id&redirect_uri=https%3A%2F%2Fapi.wokspec.org%2Fv1%2Fauth%2Fgoogle%2Fcallback&scope=openid+email+profile&response_type=code&state=30313233343536373839616263646566"%string)).
Proof.
  destruct (login_route_redirects google sample_env "0123456789abcdef"%string 0 empty_world)
    as (query & Hq & _).
  { apply ascii_well_formed. reflexivity. }
  reflexivity.
Defined.
Lemma appends_ret {A} (a : A) : appends (mret a).
Proof. intros w. exists []. by rewrite app_nil_r. Qed.

Lemma appends_lift {A} (r : result A) : appends (lift r).
Proof. intros w. exists []. by rewrite app_nil_r. Qed.

Lemma appends_fetch {A} (c : upstream_call) (r : result A) : appends (fetch c r).
Proof. intros w. by exists [c]. Qed.

Lemma appends_upsert p pid prof token uuid1 uuid2 clock :
  appends (upsert p pid prof token uuid1 uuid2 clock).
Proof.
  intros w. exists []. unfold upsert.
  destruct (upsertUser _ _ _ _ _ _ _ _). by rewrite app_nil_r.
Qed.

Lemma appends_bind {A B} (m : M A) (k : A -> M B) :
  appends m -> (forall a, appends (k a)) -> appends (mbind' m k).
Proof.
  intros Hm Hk w. unfold mbind'. destruct (Hm w) as [l Hl].
  destruct (m w) as [[a|e] w']; cbn [snd] in *; [|by exists l].
  destruct (Hk a w') as [l' Hl']. exists (l ++ l'). by rewrite Hl', Hl, app_assoc.
Qed.

Lemma appends_if {A} (b : bool) (m1 m2 : M A) :
  appends m1 -> appends m2 -> appends (if b then m1 else m2).
Proof. by destruct b. Qed.

Ltac appends :=
  repeat first
    [ apply appends_ret | apply appends_lift | apply appends_fetch
    | apply appends_upsert | apply appends_if
    | apply appends_bind; [|intros ?] ].

(** After its checks a callback exchanges the code, and goes on with steps
    that leave the key-value store alone and only add to the calls made. *)
Lemma callback_route_shape (q : provider) (env : Env) (up : upstream)
    (uuid1 uuid2 : list ascii) (clock : Z) :
  exists k : token_data -> M response,
    (forall a, keeps_kv (k a)) /\ (forall a, appends (k a)) /\
    forall code state,
      callback_route q env up code state uuid1 uuid2 clock
      = if missing code || missing state then mret (error_json "Missing code or state")
        else mbind' (consume (unwrap state) clock)
               (fun ok => if negb ok then mret (error_json "Invalid state")
                          else mbind' (fetch (TokenExchange q (unwrap code))
                                         (exchange up q (unwrap code))) k).
Proof.
  destruct q; eexists; (split; [|split]).
  3, 6, 9: intros code state; reflexivity.
  all: intros a; first [progress keeps_kv | progress appends].
Qed.

Lemma callback_route_guards (q : provider) (env : Env) (up : upstream)
    (uuid1 uuid2 : list ascii) :
  guards_upstream (fun code state clock =>
                     callback_route q env up code state uuid1 uuid2 clock).
Proof.
  destruct q;
    [apply github_callback_guards|apply google_callback_guards
    |apply discord_callback_guards].
Qed.

Lemma login_route_world (p : provider) (env : Env) (rnd : list ascii) (clock : Z)
    (w : world) :
  snd (login_route p env rnd clock w)
  = {| w_kv := kv_put (w_kv w) (state_key (concat (map hex2 rnd))) "1"%string 600 clock;
       w_db := w_db w; w_calls := w_calls w |}.
Proof. by destruct p. Qed.

(** A state that a login route has issued is accepted by the callback of
    any provider, once and within 600 seconds: that callback goes on to
    exchange the code, and a later callback with the same state answers
    the state failure. *)
Theorem issued_state_accepted_once (p q q' : provider) (env : Env) (up up' : upstream)
    (rnd code code' uuid1 uuid2 uuid1' uuid2' : list ascii) (t0 t1 t2 : Z) (w : world) :
  rnd <> [] -> code <> [] -> code' <> [] ->
  t1 < t0 + 600 * 1000 ->
  let state := concat (map hex2 rnd) in
  let w1 := snd (login_route p env rnd t0 w) in
  let w2 := snd (callback_route q env up (Some code) (Some state) uuid1 uuid2 t1 w1) in
  (exists rest, w_calls w2 = w_calls w ++ TokenExchange q code :: rest)
  /\ callback_route q' env up' (Some code') (Some state) uuid1' uuid2' t2 w2
     = (Return (error_json "Invalid state"), w2).
Proof.
  intros Hrnd Hcode Hcode' Ht state w1 w2.
  assert (Hstate : missing (Some state) = false).
  { subst state. destruct rnd as [|b rnd]; [done|]. reflexivity. }
  assert (Hm : missing (Some code) || missing (Some state) = false).
  { rewrite Hstate. by destruct code. }
  assert (Hm' : missing (Some code') || missing (Some state) = false).
  { rewrite Hstate. by destruct code'. }
  assert (Hw1 : w1 = {| w_kv := kv_put (w_kv w) (state_key state) "1"%string 600 t0;
                        w_db := w_db w; w_calls := w_calls w |})
    by apply login_route_world.
  assert (Hc : consumeState (w_kv w1) state t1
               = (true, delete (state_key state) (w_kv w1))).
  { apply consumeState_true. rewrite Hw1. cbn [w_kv].
    unfold consumeState, kv_get, kv_put. rewrite lookup_insert_eq. cbn [kv_expiration kv_value].
    destruct (Z.ltb_spec t1 (t0 + 600 * 1000)); [done|lia]. }
  destruct (callback_route_shape q env up uuid1 uuid2 t1) as (k & Hkv & Happ & Hshape).
  assert (Hw2 : (exists rest, w_calls w2 = w_calls w ++ TokenExchange q code :: rest)
                /\ w_kv w2 !! state_key state = None).
  { assert (Hrun : callback_route q env up (Some code) (Some state) uuid1 uuid2 t1 w1
                   = mbind' (fetch (TokenExchange q code) (exchange up q code)) k
                       {| w_kv := delete (state_key state) (w_kv w1); w_db := w_db w1;
                          w_calls := w_calls w1 |}).
    { rewrite Hshape, Hm. unfold mbind' at 1. unfold consume. cbn [unwrap].
      rewrite Hc. reflexivity. }
    subst w2. rewrite Hrun. unfold mbind', fetch. cbn [w_kv w_db w_calls].
    destruct (exchange up q code) as [a|e]; cbn [snd w_calls w_kv].
    - rewrite Hkv. cbn [w_kv]. split; [|apply lookup_delete_eq].
      destruct (Happ a {| w_kv := delete (state_key state) (w_kv w1); w_db := w_db w1;
                          w_calls := w_calls w1 ++ [TokenExchange q code] |}) as [l Hl].
      exists l. rewrite Hl. cbn [w_calls]. rewrite Hw1. cbn [w_calls].
      by rewrite <- app_assoc.
    - split; [|apply lookup_delete_eq]. exists []. by rewrite Hw1. }
  split; [apply Hw2|].
  apply (proj1 (proj2 (callback_route_guards q' env up' uuid1' uuid2'
                         (Some code') (Some state) t2 w2))); [done|apply Hw2].
Qed.

Lemma issued_state_accepted_once_witness :
  let w2 :=
    snd (callback_route discord sample_env offline (Some ("c"%string : list ascii))
           (Some ("3031"%string : list ascii)) [] [] 599999
           (snd (login_route github sample_env "01"%string 0 empty_world))) in
  w_calls w2 = [TokenExchange discord "c"%string]
  /\ callback_route google sample_env offline (Some ("c"%string : list ascii))
       (Some ("3031"%string : list ascii)) [] [] 600000 w2
     = (Return (error_json "Invalid state"), w2).
Proof.
  intros w2. split; [reflexivity|].
  apply (issued_state_accepted_once github discord google sample_env offline offline
           "01"%string "c"%string "c"%string [] [] [] [] 0 599999 600000 empty_world);
    [discriminate..|reflexivity].
Defined.
(** ** A first login *)

Lemma filter_absent (uid : list ascii) (rows : list user_row) :
  uid ∉ map u_id rows -> List.filter (fun r => bytes_eqb (u_id r) uid) rows = [].
Proof.
  induction rows as [|r rows IH]; [done|]. cbn [map List.filter]. intros Hn.
  apply not_elem_of_cons in Hn as [Hne Hn].
  rewrite (proj2 (bytes_eqb_neq (u_id r) uid)) by congruence. auto.
Qed.

Lemma existsb_user_absent (uid : list ascii) (rows : list user_row) :
  uid ∉ map u_id rows -> existsb (fun r => bytes_eqb (u_id r) uid) rows = false.
Proof.
  intros Hn. apply existsb_false_iff. intros r Hr. apply bytes_eqb_neq. intros Heq.
  apply Hn. rewrite <- Heq. by apply (list_elem_of_fmap_2 u_id).
Qed.

Lemma existsb_account_absent (aid : list ascii) (rows : list account_row) :
  aid ∉ map a_id rows -> existsb (fun a => bytes_eqb (a_id a) aid) rows = false.
Proof.
  intros Hn. apply existsb_false_iff. intros r Hr. apply bytes_eqb_neq. intros Heq.
  apply Hn. rewrite <- Heq. by apply (list_elem_of_fmap_2 a_id).
Qed.

Lemma existsb_account_present (aid : list ascii) (rows : list account_row) :
  aid ∈ map a_id rows -> existsb (fun a => bytes_eqb (a_id a) aid) rows = true.
Proof.
  intros Hin. apply list_elem_of_fmap in Hin as (a & -> & Ha).
  apply existsb_true_iff. exists a. split; [done|apply bytes_eqb_refl].
Qed.

Lemma select_account_none (db : D1Database) (p : provider) (pid : list ascii) :
  select_account db p pid = None ->
  existsb (account_matches p pid) (oauth_accounts db) = false.
Proof.
  unfold select_account. intros H. apply existsb_false_iff. intros a Ha.
  destruct (account_matches p pid a) eqn:Hm; [|done].
  assert (Hin : a ∈ List.filter (account_matches p pid) (oauth_accounts db)).
  { apply list_elem_of_In, filter_In. split; [by apply list_elem_of_In|done]. }
  destruct (List.filter _ _); [by apply elem_of_nil in Hin|done].
Qed.

(** The first login of an identity, in a store that meets the schema. With
    fresh identifiers and an e-mail address that no user holds, the call
    returns the new user id, has added one user row and one account row,
    and the user can be read back with the profile given. When a user
    already holds the e-mail address, the call raises and the store is as
    before: the identity is not linked to that user. When only the account
    identifier is taken, the call raises after the user row was written,
    and the row stays without an account. *)
Theorem upsertUser_first_login (db : D1Database) (p : provider) (pid : list ascii)
    (prof : profile) (token uuid1 uuid2 : list ascii) (clock : Z) :
  select_account db p pid = None ->
  let uid := replace_all "-" [] uuid1 in
  let aid := replace_all "-" [] uuid2 in
  let r := upsertUser db p pid prof token uuid1 uuid2 clock in
  (uid ∉ map u_id (users db) ->
   email_taken (users db) uid (p_email prof) = false ->
   aid ∉ map a_id (oauth_accounts db) ->
   r = (Return uid,
        {| users := users db ++ [new_user_row uid prof clock];
           oauth_accounts :=
             oauth_accounts db ++ [new_account_row aid uid p pid token clock] |})
   /\ select_account (snd r) p pid = Some uid
   /\ select_user (snd r) uid
      = Some {| au_id := uid; au_email := p_email prof; au_username := p_username prof;
                au_display_name := p_displayName prof;
                au_avatar_url := p_avatarUrl prof |})
  /\ (email_taken (users db) uid (p_email prof) = true ->
      r = (Throw ConstraintError, db))
  /\ (uid ∉ map u_id (users db) ->
      email_taken (users db) uid (p_email prof) = false ->
      aid ∈ map a_id (oauth_accounts db) ->
      r = (Throw ConstraintError,
           {| users := users db ++ [new_user_row uid prof clock];
              oauth_accounts := oauth_accounts db |})).
Proof.
  intros Hsel uid aid r.
  pose proof (select_account_none _ _ _ Hsel) as Hnone.
  split; [|split].
  - intros Huid Hemail Haid.
    assert (Hr : r = (Return uid,
        {| users := users db ++ [new_user_row uid prof clock];
           oauth_accounts :=
             oauth_accounts db ++ [new_account_row aid uid p pid token clock] |})).
    { subst r. unfold upsertUser. rewrite Hsel. fold uid aid.
      unfold insert_user. rewrite existsb_user_absent, Hemail by done. cbn [orb].
      unfold insert_account. cbn [users oauth_accounts].
      rewrite existsb_account_absent, Hnone by done. cbn [orb].
      rewrite existsb_app. cbn [existsb]. rewrite bytes_eqb_refl, orb_true_r. done. }
    split; [done|]. rewrite Hr. cbn [snd]. split.
    + unfold select_account. cbn [oauth_accounts]. rewrite List.filter_app.
      assert (Hf : List.filter (account_matches p pid) (oauth_accounts db) = []).
      { destruct (List.filter _ _) as [|a l] eqn:Hf; [done|].
        assert (Ha : In a (List.filter (account_matches p pid) (oauth_accounts db)))
          by (rewrite Hf; by left).
        apply filter_In in Ha as [Ha Hm].
        rewrite existsb_false_iff in Hnone.
        rewrite (Hnone a) in Hm by (by apply list_elem_of_In). done. }
      rewrite Hf. cbn [List.filter app new_account_row].
      unfold account_matches. cbn [a_provider a_provider_user_id].
      rewrite bytes_eqb_refl. by destruct p.
    + unfold select_user. cbn [users]. rewrite List.filter_app, filter_absent by done.
      cbn [List.filter app new_user_row u_id]. by rewrite bytes_eqb_refl.
  - intros Hemail. subst r. unfold upsertUser. rewrite Hsel. fold uid.
    unfold insert_user. by rewrite Hemail, orb_true_r.
  - intros Huid Hemail Haid. subst r. unfold upsertUser. rewrite Hsel. fold uid aid.
    unfold insert_user. rewrite existsb_user_absent, Hemail by done. cbn [orb].
    unfold insert_account. cbn [users oauth_accounts].
    by rewrite existsb_account_present.
Qed.

Lemma upsertUser_first_login_witness :
  fst (run_upsert sample_db (bob_login (Some ("a@example.org"%string : list ascii))))
  = Throw ConstraintError
  /\ fst (run_upsert sample_db (bob_login None)) = Return ("bbbb0001"%string : list ascii).
Proof.
  split.
  - exact (f_equal fst
             (proj1 (proj2 (upsertUser_first_login sample_db discord "77"%string
                              (uc_profile (bob_login (Some ("a@example.org"%string
                                                              : list ascii))))
                              "t2"%string "bbbb-0001"%string "bbbb-0002"%string 2
                              eq_refl)) eq_refl)).
  - refine (f_equal fst
              (proj1 (proj1 (upsertUser_first_login sample_db discord "77"%string
                               (uc_profile (bob_login None))
                               "t2"%string "bbbb-0001"%string "bbbb-0002"%string 2
                               eq_refl) _ eq_refl _))).
    + cbn. rewrite elem_of_cons, elem_of_nil. intros H; intuition discriminate.
    + cbn. rewrite elem_of_cons, elem_of_nil. intros H; intuition discriminate.
Defined.

(** ** The token codec at its edges *)

Lemma without_space_replace (c r : ascii) (s : list ascii) :
  Base64.is_ascii_whitespace c = false ->
  Base64.is_ascii_whitespace r = false ->
  without_space (replace_all c [r] s) = replace_all c [r] (without_space s).
Proof.
  intros Hc Hr. unfold without_space. induction s as [|x s IH]; [done|].
  cbn [replace_all List.filter]. destruct (ascii_eqb x c) eqn:Hx.
  - apply ascii_eqb_eq in Hx as ->. cbn [app List.filter]. rewrite Hr, Hc. cbn [negb].
    cbn [replace_all]. rewrite ascii_eqb_refl. cbn [app]. by rewrite IH.
  - cbn [app List.filter]. destruct (Base64.is_ascii_whitespace x); cbn [negb]; [done|].
    cbn [replace_all]. rewrite Hx. cbn [app]. by rewrite IH.
Qed.

Lemma b64urlDecode_space (s s' : list ascii) :
  without_space s' = without_space s -> b64urlDecode s' = b64urlDecode s.
Proof.
  intros H. unfold b64urlDecode, Base64.atob.
  fold (without_space (replace_all "_" "/"%string (replace_all "-" "+"%string s'))).
  fold (without_space (replace_all "_" "/"%string (replace_all "-" "+"%string s))).
  change ("/"%string : list ascii) with ["/"%char].
  change ("+"%string : list ascii) with ["+"%char].
  rewrite !without_space_replace by reflexivity. by rewrite H.
Qed.

(** The text of a token is not canonical: white space in the third segment
    is passed over, so two tokens that differ only there are accepted or
    refused alike. *)
Theorem verifyJWT_passes_over_space (h b s s' secret : list ascii) (clock : Z) :
  Forall (fun c => c <> "."%char) h ->
  Forall (fun c => c <> "."%char) b ->
  Forall (fun c => c <> "."%char) s ->
  Forall (fun c => c <> "."%char) s' ->
  without_space s' = without_space s ->
  verifyJWT (h ++ "."%string ++ b ++ "."%string ++ s') secret clock
  = verifyJWT (h ++ "."%string ++ b ++ "."%string ++ s) secret clock.
Proof.
  intros Hh Hb Hs Hs' Heq. unfold verifyJWT. rewrite !split_token by done.
  by rewrite (b64urlDecode_space s s').
Qed.

Lemma verifyJWT_passes_over_space_witness :
  verifyJWT ("a.b.c d"%string) "s"%string 0 = verifyJWT ("a.b.cd"%string) "s"%string 0.
Proof.
  apply (verifyJWT_passes_over_space "a"%string "b"%string "cd"%string "c d"%string);
    try reflexivity; repeat constructor; discriminate.
Defined.

(** The first segment of a token is signed but never read: whatever it
    holds, a payload signed together with it is accepted, up to its expiry. *)
Theorem verifyJWT_header_unread (h : list ascii) (payload : json) (secret : list ascii)
    (clock : Z) :
  Forall (fun c => c <> "."%char) h ->
  wf_json payload ->
  secret <> [] ->
  let body := b64url (Utf8.encode (JSON_stringify payload)) in
  let sig := b64url (subtle_sign secret (Utf8.encode (h ++ "."%string ++ body))) in
  verifyJWT (h ++ "."%string ++ body ++ "."%string ++ sig) secret clock
  = if num_lt (exp_of payload) (clock / 1000) then Return JNull else Return payload.
Proof.
  intros Hh Hwf Hne body sig. unfold verifyJWT.
  rewrite split_token by (done || apply b64url_no_dot).
  rewrite importKey_nonempty by done. cbn [rbind].
  unfold sig. rewrite b64urlDecode_b64url. cbn [rbind].
  unfold subtle_verify, subtle_sign. rewrite bytes_eqb_refl. cbn [negb].
  unfold body. rewrite b64urlDecode_b64url. cbn [rbind].
  rewrite decode_encode_stringify, JSON_parse_stringify by done. cbn [rbind].
  destruct payload as [| x | n | m k | x | l | l];
    cbn [get_prop rbind exp_of try_catch is_number num_lt andb];
    [done | done | done | destruct Hwf | done | done |].
  destruct (obj_get "exp"%string l) as [[]|];
    cbn [is_number num_lt andb try_catch]; try done; by destruct (_ <? _).
Qed.

Lemma verifyJWT_header_unread_witness :
  let body := b64url (Utf8.encode (JSON_stringify (session_payload "u1"%string 605800))) in
  let sig := b64url (subtle_sign "secret"%string
                       (Utf8.encode ("none"%string ++ "."%string ++ body))) in
  verifyJWT ("none"%string ++ "."%string ++ body ++ "."%string ++ sig) "secret"%string 0
  = Return (session_payload "u1"%string 605800).
Proof.
  intros body sig.
  assert (Hh : Forall (fun c => c <> "."%char) ("none"%string : list ascii))
    by (repeat constructor; discriminate).
  assert (Hne : ("secret"%string : list ascii) <> []) by discriminate.
  exact (verifyJWT_header_unread "none"%string (session_payload "u1"%string 605800)
           "secret"%string 0 Hh sample_payload_wf Hne).
Defined.

(** ** The session cookie among others *)

Lemma strip_prefix_long (p a b : list ascii) :
  (length p <= length a)%nat ->
  strip_prefix p a = None -> strip_prefix p (a ++ b) = None.
Proof.
  revert a. induction p as [|x p IH]; intros [|y a]; cbn [strip_prefix length app];
    try done; try lia.
  intros Hl. destruct (ascii_eqb x y); [|done]. apply IH. lia.
Qed.

Lemma match_session_step (x : ascii) (s : list ascii) :
  strip_prefix "wokspec_session="%string (x :: s) = None ->
  match_session (x :: s) = match_session s.
Proof. intros H. cbn [match_session]. by rewrite H. Qed.

Lemma match_session_here (token rest : list ascii) :
  token <> [] ->
  Forall (fun c => c <> ";"%char) token ->
  rest = [] \/ (exists rest', rest = ";"%char :: rest') ->
  match_session (("wokspec_session="%string : list ascii) ++ token ++ rest) = Some token.
Proof.
  intros Hne Hsemi Hrest.
  set (name := ("wokspec_session="%string : list ascii)).
  assert (Hname : exists c t, name ++ token ++ rest = c :: t) by (by eexists _, _).
  destruct Hname as (c & t & Hct). unfold match_session. rewrite Hct.
  fold match_session. rewrite <- Hct, strip_prefix_app.
  assert (Ht : take_until ";" (token ++ rest) = token).
  { destruct Hrest as [->|[rest' ->]].
    - rewrite app_nil_r. by apply take_until_all.
    - by apply take_until_app. }
  rewrite Ht. by destruct token.
Qed.

(** The session cookie is found wherever it stands in the header: before
    it there may be anything in which the name followed by an equals sign
    does not occur, after it nothing or a semicolon and anything. The
    name is not matched as a whole cookie name: it may be the end of a
    longer one. *)
Theorem match_session_among (before token rest : list ascii) :
  occurs "wokspec_session="%string (before ++ "wokspec_session"%string) = false ->
  token <> [] ->
  Forall (fun c => c <> ";"%char) token ->
  rest = [] \/ (exists rest', rest = ";"%char :: rest') ->
  match_session (before ++ "wokspec_session="%string ++ token ++ rest) = Some token.
Proof.
  intros Hocc Hne Hsemi Hrest. induction before as [|x before IH].
  - by apply match_session_here.
  - cbn [app] in Hocc |- *. cbn [occurs] in Hocc.
    destruct (strip_prefix "wokspec_session="%string
                (x :: before ++ "wokspec_session"%string)) eqn:Hp; [done|].
    rewrite match_session_step; [by apply IH|].
    change (x :: before ++ "wokspec_session="%string ++ token ++ rest)
      with ((x :: before ++ "wokspec_session"%string) ++ "="%string ++ token ++ rest)
      || replace (x :: before ++ "wokspec_session="%string ++ token ++ rest)
           with ((x :: before ++ "wokspec_session"%string) ++ "="%string ++ token ++ rest)
           by (cbn [app]; rewrite <- app_assoc; reflexivity).
    apply strip_prefix_long; [|done].
    cbn [length]. rewrite length_app.
    change (length ("wokspec_session="%string : list ascii)) with 16%nat.
    change (length ("wokspec_session"%string : list ascii)) with 15%nat. lia.
Qed.

Lemma match_session_among_witness :
  match_session "theme=dark; xwokspec_session=abc.def.ghi; lang=en"%string
  = Some ("abc.def.ghi"%string : list ascii).
Proof.
  apply (match_session_among "theme=dark; x"%string "abc.def.ghi"%string "; lang=en"%string).
  - reflexivity.
  - discriminate.
  - repeat constructor; discriminate.
  - right. by eexists.
Defined.
(** ** From the callback to the session *)

Lemma replace_all_well_formed (c : ascii) (s : list ascii) :
  code c <= 127 -> Utf8.well_formed s -> Utf8.well_formed (replace_all c [] s).
Proof.
  intros Hc. induction 1 as [|b s Hb _ IH|b n lo hi x cs s Hl Hx Hcs Hn _ IH];
    [constructor| |].
  - cbn [replace_all]. destruct (ascii_eqb b c); [done|]. by constructor.
  - assert (Hhigh : forall y l, 128 <= code y ->
                      replace_all c [] (y :: l) = y :: replace_all c [] l).
    { intros y l Hy. cbn [replace_all].
      rewrite (proj2 (ascii_eqb_neq y c)); [done|]. intros ->. lia. }
    assert (Hlead : 128 <= code b).
    { unfold Utf8.lead in Hl. destruct (Z.leb_spec (code b) 127); [done|lia]. }
    assert (Hx' : 128 <= code x).
    { unfold Utf8.lead in Hl.
      repeat match type of Hl with
             | (if ?t then _ else _) = _ => destruct t eqn:?; try discriminate Hl
             end; injection Hl as _ <- <-;
      repeat match type of Hx with
             | context [if ?t then _ else _] => destruct t
             end; lia. }
    rewrite Hhigh, Hhigh by done.
    assert (Hrest : replace_all c [] (cs ++ s) = cs ++ replace_all c [] s).
    { clear Hn. induction Hcs as [|y cs Hy _ IHcs]; [done|]. cbn [app].
      rewrite Hhigh by (unfold Utf8.continuation in Hy; lia). by rewrite IHcs. }
    rewrite Hrest. by econstructor.
Qed.

Lemma upsertUser_user_ids (db : D1Database) (p : provider) (pid : list ascii)
    (prof : profile) (token uuid1 uuid2 : list ascii) (clock : Z) (x : list ascii) :
  x ∈ map u_id (users (snd (upsertUser db p pid prof token uuid1 uuid2 clock))) ->
  x ∈ map u_id (users db) \/ x = replace_all "-" [] uuid1.
Proof.
  unfold upsertUser. destruct (select_account db p pid) as [uid|].
  - destruct (update_user_profile _ _ _ _ _ _) as [db2|e] eqn:Hup; cbn [snd]; [|auto].
    apply update_user_profile_rows in Hup as (_ & Hids & _). rewrite Hids. auto.
  - destruct (insert_user _ _ _ _ _ _ _) as [db1|e] eqn:Hi; cbn [snd]; [|auto].
    apply insert_user_inv in Hi as (_ & _ & _ & Hu).
    assert (Hin : x ∈ map u_id (users db1) ->
                  x ∈ map u_id (users db) \/ x = replace_all "-" [] uuid1).
    { rewrite Hu, map_app. cbn [map u_id]. rewrite elem_of_app, list_elem_of_singleton.
      auto. }
    destruct (insert_account _ _ _ _ _ _ _) as [db2|e] eqn:Ha; cbn [snd]; [|done].
    apply insert_account_inv in Ha as (_ & _ & _ & Hu2 & _). by rewrite Hu2.
Qed.

Lemma select_user_found (db : D1Database) (uid : list ascii) :
  uid ∈ map u_id (users db) ->
  exists user, select_user db uid = Some user /\ au_id user = uid.
Proof.
  unfold select_user. intros Hin. apply list_elem_of_fmap in Hin as (r & -> & Hr).
  destruct (List.filter _ _) as [|r' l] eqn:Hf.
  - assert (Hin : In r (List.filter (fun r0 => bytes_eqb (u_id r0) (u_id r)) (users db))).
    { apply filter_In. split; [by apply list_elem_of_In|apply bytes_eqb_refl]. }
    rewrite Hf in Hin. destruct Hin.
  - eexists. split; [done|]. cbn [au_id].
    assert (Hin : In r' (List.filter (fun r0 => bytes_eqb (u_id r0) (u_id r)) (users db)))
      by (rewrite Hf; by left).
    apply filter_In in Hin as [_ Hb]. by apply bytes_eqb_eq.
Qed.

Lemma createSession_returns (secret uid token : list ascii) (clock : Z) :
  createSession secret uid clock = Return token -> secret <> [].
Proof. intros H ->. unfold createSession in H. by rewrite signJWT_empty in H. Qed.

(** A session just minted for a stored user passes [/me] and the gate. *)
Lemma session_accepted (env : Env) (db : D1Database) (uid token : list ascii)
    (user : AuthUser) (clock clock' : Z) :
  Utf8.well_formed uid ->
  0 <= clock / 1000 <= 2 ^ 52 ->
  select_user db uid = Some user ->
  createSession (JWT_SECRET env) uid clock = Return token ->
  clock' / 1000 <= clock / 1000 + SESSION_TTL ->
  me env db clock' (cookie_of token)
  = Return (c_json (JObj [("ok"%string : list ascii, JBool true);
                          ("user"%string : list ascii, user_json user)]) 200)
  /\ forall next, requireAuth env db clock' (cookie_of token) next = next user.
Proof.
  intros Huid Hclock Huser Hsign Hexp.
  pose proof (createSession_returns _ _ _ _ Hsign) as Hne.
  set (exp := clock / 1000 + SESSION_TTL) in *.
  assert (Hwf : wf_json (session_payload uid exp)).
  { apply session_payload_wf; [done|]. unfold exp, SESSION_TTL. lia. }
  change (createSession (JWT_SECRET env) uid clock)
    with (signJWT (session_payload uid exp) (JWT_SECRET env)) in Hsign.
  destruct (signed_token_shape _ _ _ Hsign) as [Ht1 Ht2].
  pose proof (verifyJWT_signJWT _ _ (JWT_SECRET env) token clock' Hwf Hne Hsign) as Hv.
  rewrite bytes_eqb_refl in Hv.
  assert (He : exp_of (session_payload uid exp) = Some (JNum exp)) by reflexivity.
  assert (Hs : get_prop (session_payload uid exp) "sub"%string = Return (Some (JStr uid)))
    by reflexivity.
  rewrite He in Hv. cbn [num_lt] in Hv.
  unfold me, requireAuth, cookie_of. rewrite match_session_cookie by done.
  rewrite Hv. rewrite (proj2 (Z.ltb_ge exp (clock' / 1000))) by lia.
  cbn [rbind]. change (falsy (session_payload uid exp)) with false. cbv iota.
  rewrite Hs. cbn [rbind]. by rewrite Huser.
Qed.

Ltac crunch H :=
  repeat match type of H with
         | context [match ?x with _ => _ end] =>
             let E := fresh "E" in destruct x eqn:E; cbn [negb] in H
         end.

(** A callback that answers with the redirect has upserted the identity
    and minted a session for the user id that this returned. *)
Lemma callback_route_success (q : provider) (env : Env) (up : upstream)
    (code state : option (list ascii)) (uuid1 uuid2 : list ascii) (clock : Z)
    (w w' : world) (r : response) :
  callback_route q env up code state uuid1 uuid2 clock w = (Return r, w') ->
  status r = 302 ->
  exists pid prof tok uid token,
    upsertUser (w_db w) q pid prof tok uuid1 uuid2 clock = (Return uid, w_db w')
    /\ createSession (JWT_SECRET env) uid clock = Return token
    /\ r = logged_in token.
Proof.
  intros H Hst.
  destruct q; cbn [callback_route] in H;
    unfold github_callback, google_callback, discord_callback in H;
    unfold mbind', mret, consume, fetch, upsert, lift in H;
    cbn [w_kv w_db w_calls] in H;
    crunch H;
    try (injection H as <- <-; discriminate Hst);
    try discriminate H;
    injection H as <- <-;
    repeat match goal with
           | E : (let '(_, _) := ?x in _) = _ |- _ => destruct x eqn:?
           | E : (if ?b then _ else _) _ = _ |- _ => destruct b
           | E : match ?x with _ => _ end = (_, _) |- _ => destruct x eqn:?
           | E : (_, _) = (_, _) |- _ => injection E as ? ?; subst
           end;
    cbn [w_kv w_db w_calls] in *;
    do 5 eexists; (split; [eassumption|split; [eassumption|reflexivity]]).
Qed.

(** Every callback that answers with the redirect has set a session cookie
    whose token [/me] and the gate accept for seven days, in the store it
    leaves, as the user that the identity is linked to. *)
Theorem login_opens_session (q : provider) (env : Env) (up : upstream)
    (code state : option (list ascii)) (uuid1 uuid2 : list ascii) (clock : Z)
    (w w' : world) (r : response) :
  db_ok (w_db w) ->
  Forall Utf8.well_formed (map u_id (users (w_db w))) ->
  Utf8.well_formed uuid1 ->
  0 <= clock / 1000 <= 2 ^ 52 ->
  callback_route q env up code state uuid1 uuid2 clock w = (Return r, w') ->
  status r = 302 ->
  exists token user pid,
    r = logged_in token
    /\ select_account (w_db w') q pid = Some (au_id user)
    /\ select_user (w_db w') (au_id user) = Some user
    /\ forall clock',
         clock' / 1000 <= clock / 1000 + SESSION_TTL ->
         me env (w_db w') clock' (cookie_of token)
         = Return (c_json (JObj [("ok"%string : list ascii, JBool true);
                                 ("user"%string : list ascii, user_json user)]) 200)
         /\ forall next, requireAuth env (w_db w') clock' (cookie_of token) next = next user.
Proof.
  intros Hok Hids Huuid Hclock Hrun Hst.
  destruct (callback_route_success _ _ _ _ _ _ _ _ _ _ _ Hrun Hst)
    as (pid & prof & tok & uid & token & Hup & Hsign & ->).
  pose proof (upsertUser_ok (w_db w) q pid prof tok uuid1 uuid2 clock Hok) as Hok'.
  pose proof (upsertUser_binds (w_db w) q pid uid prof tok uuid1 uuid2 clock) as Hbind.
  pose proof (upsertUser_user_ids (w_db w) q pid prof tok uuid1 uuid2 clock uid) as Hid.
  rewrite Hup in Hok', Hbind, Hid. cbn [fst snd] in *.
  specialize (Hbind eq_refl).
  pose proof (select_account_user _ _ _ _ Hok' Hbind) as Hin.
  destruct (select_user_found _ _ Hin) as (user & Huser & Hau).
  assert (Hwf : Utf8.well_formed uid).
  { destruct (Hid Hin) as [Hold| ->].
    - rewrite Forall_forall in Hids. by apply Hids.
    - by apply replace_all_well_formed. }
  exists token, user, pid. rewrite Hau. split; [done|]. split; [done|]. split; [done|].
  intros clock' Hexp. by apply (session_accepted env (w_db w') uid token user clock clock').
Qed.
Lemma login_opens_session_witness :
  let w := {| w_kv := snd (generateState ∅ "0123456789abcdef"%string 0);
              w_db := empty_db; w_calls := [] |} in
  let run := callback_route github sample_env online (Some ("c"%string : list ascii))
               (Some (fst (generateState ∅ "0123456789abcdef"%string 0)))
               "aaaa-0001"%string "aaaa-0002"%string 1000 w in
  exists token user,
    fst run = Return (logged_in token)
    /\ select_user (w_db (snd run)) "aaaa0001"%string = Some user
    /\ me sample_env (w_db (snd run)) 2000 (cookie_of token)
       = Return (c_json (JObj [("ok"%string : list ascii, JBool true);
                               ("user"%string : list ascii, user_json user)]) 200).
Proof.
  intros w run.
  assert (Hrun : exists r w', run = (Return r, w') /\ status r = 302
                   /\ map u_id (users (w_db w')) = ["aaaa0001"%string : list ascii]).
  { vm_compute. eexists _, _. split; [reflexivity|]. split; reflexivity. }
  destruct Hrun as (r & w' & Hrun & Hst & Hids).
  destruct (login_opens_session github sample_env online (Some ("c"%string : list ascii))
              (Some (fst (generateState ∅ "0123456789abcdef"%string 0)))
              "aaaa-0001"%string "aaaa-0002"%string 1000 w w' r)
    as (token & user & pid & -> & Hacc & Huser & Hme).
  - apply db_ok_empty.
  - constructor.
  - apply ascii_well_formed. reflexivity.
  - vm_compute. split; discriminate.
  - exact Hrun.
  - exact Hst.
  - exists token, user. rewrite Hrun. cbn [fst snd]. split; [done|].
    assert (Hid : au_id user = "aaaa0001"%string).
    { destruct (select_user_found (w_db w') (au_id user)) as (u & Hu & _).
      - unfold select_user in Huser.
        destruct (List.filter _ _) as [|x l] eqn:Hf; [done|].
        assert (Hin : In x (List.filter (fun r => bytes_eqb (u_id r) (au_id user))
                              (users (w_db w')))) by (rewrite Hf; by left).
        apply filter_In in Hin as [Hin Hb]. apply bytes_eqb_eq in Hb. rewrite <- Hb.
        by apply (list_elem_of_fmap_2 u_id), list_elem_of_In.
      - assert (Hin : au_id user ∈ map u_id (users (w_db w'))).
        { unfold select_user in Huser.
          destruct (List.filter _ _) as [|x l] eqn:Hf; [done|].
          assert (Hin : In x (List.filter (fun r => bytes_eqb (u_id r) (au_id user))
                                (users (w_db w')))) by (rewrite Hf; by left).
          apply filter_In in Hin as [Hin Hb]. apply bytes_eqb_eq in Hb. rewrite <- Hb.
          by apply (list_elem_of_fmap_2 u_id), list_elem_of_In. }
        rewrite Hids in Hin. by apply list_elem_of_singleton in Hin. }
    rewrite <- Hid. split; [done|]. apply Hme. vm_compute. discriminate.
Defined.

(** ** The booking routes *)

(** The gate before a handler that acts decides as [requireAuth] does. *)
Lemma requireAuthT_cases (env : Env) (db : D1Database) (clock : Z)
    (cookie : option (list ascii)) (next : AuthUser -> Eff response) (tr : list action) :
  (exists m : string,
      (forall nx, requireAuth env db clock cookie nx = Return (unauthorized m))
      /\ requireAuthT env db clock cookie next tr = (Return (unauthorized m), tr))
  \/ (exists e,
         (forall nx, requireAuth env db clock cookie nx = Throw e)
         /\ requireAuthT env db clock cookie next tr = (Throw e, tr))
  \/ (exists user,
         authenticates env db clock cookie user
         /\ (forall nx, requireAuth env db clock cookie nx = nx user)
         /\ requireAuthT env db clock cookie next tr = next user tr).
Proof.
  unfold requireAuthT, requireAuth, authenticates.
  destruct (match_session _) as [token|] eqn:Hm; [|left; by exists "Not authenticated"%string].
  unfold tbind, tlift.
  destruct (verifyJWT token (JWT_SECRET env) clock) as [payload|e] eqn:Hv; cbn [rbind];
    [|right; left; by exists e].
  destruct (falsy payload) eqn:Hf; [left; by exists "Invalid session"%string|].
  destruct (get_prop payload "sub"%string) as [sub|e] eqn:Hs; cbn [rbind];
    [|right; left; by exists e].
  destruct sub as [[| | | | uid | |]|]; try (left; by exists "Invalid session"%string).
  destruct (select_user db uid) as [user|] eqn:Hu;
    [|left; by exists "User not found"%string].
  right; right. exists user. split; [|done]. by exists token, payload, uid.
Qed.

Lemma authenticates_gate (env : Env) (db : D1Database) (clock : Z)
    (cookie : option (list ascii)) (user : AuthUser) (next : AuthUser -> Eff response)
    (tr : list action) :
  authenticates env db clock cookie user ->
  requireAuthT env db clock cookie next tr = next user tr.
Proof.
  intros (token & payload & uid & Hm & Hv & Hf & Hs & Hu).
  unfold requireAuthT, tbind, tlift. by rewrite Hm, Hv, Hf, Hs, Hu.
Qed.

Lemma print_int_ascii (n : Z) : Utf8.well_formed (Json.print_int n).
Proof. apply print_int_well_formed. Qed.

Lemma checkout_form_read (price : Z) (user : AuthUser) :
  Utf8.well_formed (au_id user) ->
  (forall e, au_email user = Some e -> Utf8.well_formed e) ->
  parse_query (URLSearchParams (checkout_form price user)) = checkout_form price user.
Proof.
  intros Hid He. apply parse_query_URLSearchParams. unfold checkout_form.
  repeat (apply Forall_cons; split;
          [split; cbn [fst snd];
           first [ assumption
                 | apply print_int_well_formed
                 | apply ascii_well_formed; reflexivity
                 | idtac ]|]);
    [|apply Forall_nil_2].
  destruct (au_email user) as [e|]; [by apply He|]. apply ascii_well_formed. reflexivity.
Qed.

(** The checkout route. A request that the gate does not accept takes no
    action: it is refused or raises. For an accepted user exactly one
    request goes to Stripe, whose form reads back as the ten parameters,
    with the e-mail address of the user (the text [null] for a user
    without one) and the user id as metadata. An answer without a usable
    [url] and [id] gives 500 and no booking is recorded; otherwise the
    booking is inserted for the user and the session of the answer, and
    when that statement fails the route raises although the Stripe
    session exists. *)
Theorem checkout_cases (env : Env) (benv : BookingsEnv) (price : Z) (out : outside)
    (db : D1Database) (clock : Z) (cookie : option (list ascii)) (uuid : list ascii)
    (tr : list action) :
  let run := checkout env benv price out db clock cookie uuid tr in
  ((forall user, ~ authenticates env db clock cookie user) ->
   snd run = tr /\
   ((exists m : string, fst run = Return (unauthorized m)) \/ exists e, fst run = Throw e))
  /\ forall user,
       authenticates env db clock cookie user ->
       Utf8.well_formed (au_id user) ->
       (forall e, au_email user = Some e -> Utf8.well_formed e) ->
       let authorization := "Bearer "%string ++ STRIPE_SECRET_KEY benv in
       let form := URLSearchParams (checkout_form price user) in
       let asked := StripeCheckout authorization form in
       parse_query form = checkout_form price user
       /\ (forall e, stripe_json out authorization form = Throw e ->
             run = (Throw e, tr ++ [asked]))
       /\ (forall session url id,
             stripe_json out authorization form = Return (JObj session) ->
             obj_get "url"%string session = Some url -> falsy url = false ->
             obj_get "id"%string session = Some id -> falsy id = false ->
             let insert := InsertBooking uuid (au_id user) id in
             (d1_run out insert = Return tt ->
              run = (Return
                       (c_json
                          (JObj [("data"%string : list ascii,
                                   JObj [("checkoutUrl"%string : list ascii, url);
                                         ("sessionId"%string : list ascii, id)]);
                                 ("error"%string : list ascii, JNull)]) 200),
                     tr ++ [asked; insert]))
             /\ (forall e, d1_run out insert = Throw e ->
                   run = (Throw e, tr ++ [asked; insert])))
       /\ (forall session,
             stripe_json out authorization form = Return (JObj session) ->
             falsy_opt (obj_get "url"%string session)
             || falsy_opt (obj_get "id"%string session) = true ->
             exists message,
               run = (Return (api_error (JStr "STRIPE_ERROR"%string) message 500),
                      tr ++ [asked])
               /\ (obj_get "error"%string session = None ->
                   message = JStr "Failed to create checkout"%string)
               /\ (forall e m,
                     obj_get "error"%string session = Some (JObj e) ->
                     obj_get "message"%string e = Some (JStr m) ->
                     message = JStr m)).
Proof.
  intros run. split.
  - intros Hno. subst run. unfold checkout, rateLimit.
    match goal with
    | |- context [requireAuthT env db clock cookie ?k tr] =>
        destruct (requireAuthT_cases env db clock cookie k tr)
          as [(m & _ & ->)|[(e & _ & ->)|(user & Hu & _)]]
    end.
    + split; [done|]. left. by exists m.
    + split; [done|]. right. by exists e.
    + by destruct (Hno user).
  - intros user Hauth Hid Hemail authorization form asked.
    split; [by apply checkout_form_read|].
    assert (Hrun : run = tbind (act asked (stripe_json out authorization form))
                           (fun session =>
       url <~~ tlift (get_prop session "url"%string) ;;
       id <~~ tlift (get_prop session "id"%string) ;;
       if falsy_opt url || falsy_opt id then
         error <~~ tlift (get_prop session "error"%string) ;;
         message <~~ tlift (match error with
                            | None | Some JNull => Return None
                            | Some e => get_prop e "message"%string
                            end) ;;
         tret (api_error (JStr "STRIPE_ERROR"%string)
                 (match message with
                  | None | Some JNull => JStr "Failed to create checkout"%string
                  | Some m => m
                  end) 500)
       else
         _ <~~ act (InsertBooking uuid (au_id user) (or_null id))
                   (d1_run out (InsertBooking uuid (au_id user) (or_null id))) ;;
         tret (c_json
                 (JObj [("data"%string : list ascii,
                          JObj [("checkoutUrl"%string : list ascii, or_null url);
                                ("sessionId"%string : list ascii, or_null id)]);
                        ("error"%string : list ascii, JNull)]) 200)) tr).
    { subst run. unfold checkout, rateLimit. by rewrite (authenticates_gate _ _ _ _ user). }
    split; [|split].
    + intros e He. rewrite Hrun. unfold tbind, act. by rewrite He.
    + intros session url id Hs Hurl Hfu Hidp Hfi insert. rewrite Hrun.
      unfold tbind at 1. unfold act. rewrite Hs.
      unfold tbind, tlift, tret. cbn [get_prop]. rewrite Hurl, Hidp.
      cbn [falsy_opt or_null]. rewrite Hfu, Hfi. cbn [orb]. fold insert.
      split.
      * intros Hd. rewrite Hd. by rewrite <- app_assoc.
      * intros e Hd. rewrite Hd. by rewrite <- app_assoc.
    + intros session Hs Hf. rewrite Hrun.
      unfold tbind at 1. unfold act. rewrite Hs.
      unfold tbind, tlift, tret. cbn [get_prop]. rewrite Hf.
      destruct (obj_get "error"%string session) as [err|] eqn:Herr.
      2:{ eexists. split; [reflexivity|]. split; [done|]. intros; discriminate. }
      destruct err as [| x | n | m k | x | l | e]; cbn [get_prop];
        try (eexists; split; [reflexivity|]; split; [intros; discriminate|];
             intros; discriminate).
      destruct (obj_get "message"%string e) as [msg|] eqn:Hmsg;
        [destruct msg|];
        (eexists; split; [reflexivity|]; split; [intros; discriminate|];
         intros e' m' He' Hm'; congruence).
Qed.

Lemma checkout_cases_witness :
  let token := token_of (signJWT (session_payload "u1"%string 605800) "secret"%string) in
  checkout sample_env sample_benv 5000 quiet sample_db 0 (cookie_of token) "id-1"%string []
  = (Return
       (c_json
          (JObj [("data"%string : list ascii,
                   JObj [("checkoutUrl"%string : list ascii,
                           JStr "https://checkout.stripe.com/c/cs_1"%string);
                         ("sessionId"%string : list ascii, JStr "cs_1"%string)]);
                 ("error"%string : list ascii, JNull)]) 200),
     [StripeCheckout "Bearer sk_test"%string (URLSearchParams (checkout_form 5000 ann));
      InsertBooking "id-1"%string "u1"%string (JStr "cs_1"%string)]).
Proof.
  intros token.
  assert (Hauth : authenticates sample_env sample_db 0 (cookie_of token) ann).
  { exists token, (session_payload "u1"%string 605800), ("u1"%string : list ascii).
    vm_compute. repeat split; reflexivity. }
  assert (Hid : Utf8.well_formed (au_id ann)) by (apply ascii_well_formed; reflexivity).
  assert (He : forall e, au_email ann = Some e -> Utf8.well_formed e).
  { intros e [= <-]. apply ascii_well_formed. reflexivity. }
  destruct (proj2 (checkout_cases sample_env sample_benv 5000 quiet sample_db 0
                     (cookie_of token) "id-1"%string []) ann Hauth Hid He)
    as (_ & _ & Hok & _).
  exact (proj1 (Hok _ _ _ eq_refl eq_refl eq_refl eq_refl eq_refl) eq_refl).
Defined.
Lemma select_user_id (db : D1Database) (uid : list ascii) (user : AuthUser) :
  select_user db uid = Some user -> au_id user = uid.
Proof.
  unfold select_user. destruct (List.filter _ _) as [|r l] eqn:Hf; [done|].
  intros [= <-]. cbn [au_id].
  assert (Hin : In r (List.filter (fun r0 => bytes_eqb (u_id r0) uid) (users db)))
    by (rewrite Hf; by left).
  apply filter_In in Hin as [_ Hb]. by apply bytes_eqb_eq.
Qed.

(** The list route asks only for the bookings of the user that the session
    names: a request that the gate does not accept takes no action, and for
    an accepted user the one query is bound to the [sub] of the token. *)
Theorem list_bookings_own (env : Env) (out : outside) (db : D1Database) (clock : Z)
    (cookie : option (list ascii)) (tr : list action) :
  let run := list_bookings env out db clock cookie tr in
  ((forall user, ~ authenticates env db clock cookie user) ->
   snd run = tr /\
   ((exists m : string, fst run = Return (unauthorized m)) \/ exists e, fst run = Throw e))
  /\ forall token payload uid user,
       match_session (match cookie with Some h => h | None => [] end) = Some token ->
       verifyJWT token (JWT_SECRET env) clock = Return payload ->
       falsy payload = false ->
       get_prop payload "sub"%string = Return (Some (JStr uid)) ->
       select_user db uid = Some user ->
       snd run = tr ++ [SelectBookings uid]
       /\ fst run
          = (rows <- d1_all out uid ;;
             Return (c_json (JObj [("data"%string : list ascii, rows);
                                   ("error"%string : list ascii, JNull)]) 200)).
Proof.
  intros run. split.
  - intros Hno. subst run. unfold list_bookings.
    match goal with
    | |- context [requireAuthT env db clock cookie ?k tr] =>
        destruct (requireAuthT_cases env db clock cookie k tr)
          as [(m & _ & ->)|[(e & _ & ->)|(user & Hu & _)]]
    end.
    + split; [done|]. left. by exists m.
    + split; [done|]. right. by exists e.
    + by destruct (Hno user).
  - intros token payload uid user Hm Hv Hf Hs Hu. subst run. unfold list_bookings.
    rewrite (authenticates_gate _ _ _ _ user) by (by exists token, payload, uid).
    rewrite (select_user_id _ _ _ Hu). unfold tbind, act, tret.
    by destruct (d1_all out uid).
Qed.

Lemma list_bookings_own_witness :
  let token := token_of (signJWT (session_payload "u1"%string 605800) "secret"%string) in
  list_bookings sample_env quiet sample_db 0 (cookie_of token) []
  = (Return (c_json (JObj [("data"%string : list ascii, JArr []);
                           ("error"%string : list ascii, JNull)]) 200),
     [SelectBookings "u1"%string]).
Proof.
  intros token.
  destruct (proj2 (list_bookings_own sample_env quiet sample_db 0 (cookie_of token) [])
              token (session_payload "u1"%string 605800) "u1"%string ann)
    as [Htr Hres]; [vm_compute; reflexivity..|].
  rewrite (surjective_pairing (list_bookings _ _ _ _ _ _)), Htr, Hres. reflexivity.
Defined.

(** ** The webhook *)

Lemma round_length (st : list Z) (kw : Z * Z) :
  length st = 8%nat -> length (Sha256.round st kw) = 8%nat.
Proof.
  destruct st as [|a [|b [|c [|d [|e [|f [|g [|h [|]]]]]]]]]; try discriminate. done.
Qed.

Lemma compress_length (h block : list Z) :
  length h = 8%nat -> length (Sha256.compress h block) = 8%nat.
Proof.
  intros Hh. unfold Sha256.compress. rewrite length_map, length_combine, Hh.
  assert (Hst : forall l st, length st = 8%nat ->
                  length (fold_left Sha256.round l st) = 8%nat).
  { induction l as [|kw l IH]; intros st Hst; [done|]. cbn [fold_left].
    by apply IH, round_length. }
  by rewrite Hst.
Qed.

Lemma blocks_length (fuel : nat) (ws h : list Z) :
  length h = 8%nat -> length (Sha256.blocks fuel ws h) = 8%nat.
Proof.
  revert ws h. induction fuel as [|fuel IH]; intros ws h Hh; [done|].
  cbn [Sha256.blocks]. destruct ws; [done|]. by apply IH, compress_length.
Qed.

Lemma sha256_length (msg : list ascii) : length (Sha256.sha256 msg) = 32%nat.
Proof.
  unfold Sha256.sha256.
  pose proof (blocks_length (length (Sha256.words (Sha256.pad msg)))
                (Sha256.words (Sha256.pad msg)) Sha256.H0 eq_refl) as H.
  destruct (Sha256.blocks _ _ _) as [|a [|b [|c [|d [|e [|f [|g [|h [|]]]]]]]]];
    try discriminate. reflexivity.
Qed.

Lemma stripe_signature_length (secret timestamp body : list ascii) :
  length (stripe_signature secret timestamp body) = 64%nat.
Proof.
  unfold stripe_signature, subtle_sign, Sha256.hmac.
  by rewrite state_length, sha256_length.
Qed.


Lemma webhook_refusal_signed (benv : BookingsEnv) (clock : Z) (body signature : list ascii) :
  STRIPE_WEBHOOK_SECRET benv <> [] ->
  (signed (STRIPE_WEBHOOK_SECRET benv) clock body signature ->
   webhook_refusal benv clock body signature = None)
  /\ (~ signed (STRIPE_WEBHOOK_SECRET benv) clock body signature ->
      exists code message : string,
        webhook_refusal benv clock body signature = Some (bad_request code message)).
Proof.
  intros Hne. unfold webhook_refusal, signed.
  destruct (STRIPE_WEBHOOK_SECRET benv) as [|c secret] eqn:Hs; [done|].
  set (t := part "t"%string (sig_parts signature)).
  set (v1 := part "v1"%string (sig_parts signature)).
  split.
  - intros (t' & v' & Ht & Hv & Htne & Hst & Heq). rewrite Ht, Hv. cbn [missing unwrap].
    assert (Hv' : v' <> []).
    { intros ->. pose proof (stripe_signature_length (c :: secret) t' body) as Hl.
      by rewrite <- Heq in Hl. }
    destruct t' as [|x t']; [done|]. destruct v' as [|y v']; [done|].
    cbn [missing orb]. rewrite Hst, <- Heq, bytes_eqb_refl. done.
  - intros Hno.
    destruct t as [t'|] eqn:Ht; [|by (do 2 eexists)].
    destruct v1 as [v'|] eqn:Hv;
      [|destruct t'; by (do 2 eexists)].
    destruct t' as [|x t']; [by (do 2 eexists)|].
    destruct v' as [|y v']; [by (do 2 eexists)|].
    cbn [missing orb unwrap].
    destruct (stale clock (x :: t')) eqn:Hst; [by (do 2 eexists)|].
    destruct (bytes_eqb _ (y :: v')) eqn:Heq; cbn [negb];
      [|by (do 2 eexists)].
    exfalso. apply Hno. exists (x :: t'), (y :: v').
    apply bytes_eqb_eq in Heq. by rewrite Heq.
Qed.
(** The checks of the webhook. A request without the signature header is
    answered 400, whether or not a secret is configured. With a secret,
    the body is handled exactly when the header holds a time stamp that is
    not stale and, as its last [v1], the code of time stamp and body under
    the secret; every other request is answered 400 and nothing is done.
    Without a secret the header is not looked at: every request that has
    one is handled. The text signed is the body as decoded, which is the
    body itself when that is well-formed UTF-8 starting with an ASCII
    character. *)
Theorem webhook_signature_gate (benv : BookingsEnv) (out : outside) (clock : Z)
    (raw : list ascii) (tr : list action) :
  let body := Utf8.decode raw in
  (forall signature,
      missing signature = true ->
      webhook benv out clock raw signature tr
      = (Return (bad_request "NO_SIGNATURE" "Missing Stripe signature"), tr))
  /\ (forall s,
         s <> [] -> STRIPE_WEBHOOK_SECRET benv <> [] ->
         (signed (STRIPE_WEBHOOK_SECRET benv) clock body s ->
          webhook benv out clock raw (Some s) tr = handle_event benv out body tr)
         /\ (~ signed (STRIPE_WEBHOOK_SECRET benv) clock body s ->
             exists code message : string,
               webhook benv out clock raw (Some s) tr
               = (Return (bad_request code message), tr)))
  /\ (forall s,
         s <> [] -> STRIPE_WEBHOOK_SECRET benv = [] ->
         webhook benv out clock raw (Some s) tr = handle_event benv out body tr)
  /\ (forall c rest,
         raw = c :: rest -> code c <= 127 -> Utf8.well_formed raw -> body = raw).
Proof.
  intros body. split; [|split; [|split]].
  - intros signature Hm. unfold webhook. by rewrite Hm.
  - intros s Hs Hsec.
    assert (Hm : missing (Some s) = false) by (by destruct s).
    destruct (webhook_refusal_signed benv clock body s Hsec) as [Hyes Hno].
    split.
    + intros Hsig. unfold webhook. rewrite Hm. cbn [unwrap]. fold body.
      by rewrite (Hyes Hsig).
    + intros Hsig. destruct (Hno Hsig) as (code & message & Hr).
      exists code, message. unfold webhook. rewrite Hm. cbn [unwrap]. fold body.
      by rewrite Hr.
  - intros s Hs Hsec.
    assert (Hm : missing (Some s) = false) by (by destruct s).
    unfold webhook. rewrite Hm. cbn [unwrap]. fold body.
    unfold webhook_refusal. by rewrite Hsec.
  - intros c rest -> Hc Hwf. by apply decode_well_formed.
Qed.

Lemma webhook_signature_gate_witness :
  let header : list ascii :=
    "t=1700000000,v1="%string
      ++ stripe_signature "whsec"%string "1700000000"%string sample_event in
  webhook sample_benv quiet 1700000100000 sample_event (Some header) []
  = handle_event sample_benv quiet sample_event []
  /\ fst (webhook sample_benv quiet 1700000400000 sample_event (Some header) [])
     = Return (bad_request "EXPIRED_SIGNATURE" "Webhook timestamp too old").
Proof.
  intros header. split; [|vm_compute; reflexivity].
  assert (Hne : header <> []) by discriminate.
  assert (Hsec : STRIPE_WEBHOOK_SECRET sample_benv <> []) by discriminate.
  assert (Hbody : Utf8.decode sample_event = sample_event) by (vm_compute; reflexivity).
  assert (Hsig : signed (STRIPE_WEBHOOK_SECRET sample_benv) 1700000100000
                   (Utf8.decode sample_event) header).
  { exists ("1700000000"%string : list ascii),
      (stripe_signature "whsec"%string "1700000000"%string sample_event).
    rewrite Hbody. vm_compute. repeat split; try reflexivity. discriminate. }
  pose proof (proj1 (proj1 (proj2 (webhook_signature_gate sample_benv quiet 1700000100000
                                      sample_event [])) header Hne Hsec) Hsig) as H.
  rewrite Hbody in H. exact H.
Defined.

(** What the webhook does with a body once its checks are passed. A body
    that is not JSON is answered 400; the body [null] makes the handler
    raise; an event of another type is acknowledged and nothing is done.
    For a completed checkout the booking of the session is marked paid,
    and when that statement fails the handler raises; after it, a request
    to Resend is made exactly when a key is configured and the event holds
    a customer e-mail address, and the event is acknowledged whether or
    not that request succeeds. *)
Theorem handle_event_cases (benv : BookingsEnv) (out : outside) (body : list ascii)
    (tr : list action) :
  let run := handle_event benv out body tr in
  (forall e, JSON_parse body = Throw e ->
     run = (Return (bad_request "INVALID_BODY" "Invalid JSON"), tr))
  /\ (JSON_parse body = Return JNull -> run = (Throw TypeError, tr))
  /\ (forall event type,
        JSON_parse body = Return event ->
        get_prop event "type"%string = Return type ->
        type <> Some (JStr "checkout.session.completed"%string) ->
        run = (Return received, tr))
  /\ (forall event data session,
        JSON_parse body = Return event ->
        get_prop event "type"%string
        = Return (Some (JStr "checkout.session.completed"%string)) ->
        get_prop event "data"%string = Return (Some data) ->
        get_prop data "object"%string = Return (Some (JObj session)) ->
        let mark := MarkPaid "paid"%string
                      (or_null (obj_get "payment_intent"%string session))
                      (obj_get "id"%string session) in
        (forall e, d1_run out mark = Throw e -> run = (Throw e, tr ++ [mark]))
        /\ (d1_run out mark = Return tt ->
            (RESEND_API_KEY benv = []
             \/ falsy_opt (obj_get "customer_email"%string session) = true ->
             run = (Return received, tr ++ [mark]))
            /\ (forall email,
                  RESEND_API_KEY benv <> [] ->
                  obj_get "customer_email"%string session = Some (JStr email) ->
                  email <> [] ->
                  run = (Return received,
                         tr ++ [mark;
                                sendEmail (RESEND_API_KEY benv) (JStr email)
                                  "Booking confirmed — WokSpec consultation ✦"%string
                                  ("<p>Hi "%string ++ email
                                     ++ ",</p><p>Your WokSpec consultation has been confirmed. We'll be in touch shortly.</p>"%string)])))).
Proof.
  intros run. subst run. unfold handle_event. split; [|split; [|split]].
  - intros e ->. done.
  - intros ->. done.
  - intros event type -> Ht Hne. unfold tbind, tlift, tret. rewrite Ht.
    destruct type as [[| | | | t | |]|]; try done.
    destruct (bytes_eqb t "checkout.session.completed"%string) eqn:Hb; [|done].
    apply bytes_eqb_eq in Hb. by subst t.
  - intros event data session -> Ht Hd Ho.
    set (mark := MarkPaid "paid"%string
                   (or_null (obj_get "payment_intent"%string session))
                   (obj_get "id"%string session)).
    assert (Hshape : forall (k : unit -> Eff response),
               (type <~~ tlift (get_prop event "type"%string) ;;
                _ <~~ match type with
                      | Some (JStr t) =>
                          if bytes_eqb t "checkout.session.completed"%string
                          then completed benv out event
                          else tret tt
                      | _ => tret tt
                      end ;;
                k tt) tr
               = tbind (completed benv out event) (fun _ => k tt) tr).
    { intros k. unfold tbind at 1. unfold tlift. rewrite Ht.
      rewrite bytes_eqb_refl. reflexivity. }
    rewrite (Hshape (fun _ => tret received)). clear Hshape.
    unfold completed, tbind, tlift, tret, act, prop. rewrite Hd, Ho. cbn [get_prop].
    fold mark. split.
    + intros e He. by rewrite He.
    + intros Hok. rewrite Hok. split.
      * intros [Hkey|Hf].
        -- rewrite Hkey. by destruct (obj_get "customer_email"%string session).
        -- destruct (RESEND_API_KEY benv); [by destruct (obj_get _ session)|].
           destruct (obj_get "customer_email"%string session) as [v|]; [|done].
           cbn [falsy_opt] in Hf. by rewrite Hf.
      * intros email Hkey He Hne. rewrite He.
        destruct (RESEND_API_KEY benv) as [|c key] eqn:Hk; [done|].
        destruct email as [|x email]; [done|]. cbn [falsy].
        unfold bookingConfirmEmail, fire. cbn [to_string rbind].
        by rewrite <- app_assoc.
Qed.

Lemma handle_event_cases_witness :
  handle_event sample_benv quiet "not json"%string []
  = (Return (bad_request "INVALID_BODY" "Invalid JSON"), [])
  /\ handle_event sample_benv quiet "null"%string [] = (Throw TypeError, [])
  /\ length (snd (handle_event sample_benv quiet sample_event [])) = 2%nat.
Proof.
  split; [|split].
  - apply (proj1 (handle_event_cases sample_benv quiet "not json"%string []) SyntaxError).
    vm_compute. reflexivity.
  - apply (proj1 (proj2 (handle_event_cases sample_benv quiet "null"%string []))).
    vm_compute. reflexivity.
  - destruct (proj2 (proj2 (proj2 (handle_event_cases sample_benv quiet sample_event [])))
                _ _ _ ltac:(vm_compute; reflexivity) eq_refl eq_refl eq_refl)
      as [_ Hok].
    destruct (Hok eq_refl) as [_ Hmail].
    rewrite (Hmail "a@example.org"%string); [reflexivity|discriminate|reflexivity
                                           |discriminate].
Defined.
Lemma plain_no_comma (s : list ascii) : plain s -> Forall (fun c => c <> ","%char) s.
Proof. intros H. eapply Forall_impl; [exact H|]. by intros c [? _]. Qed.

Lemma plain_no_equals (s : list ascii) : plain s -> Forall (fun c => c <> "="%char) s.
Proof. intros H. eapply Forall_impl; [exact H|]. by intros c [_ ?]. Qed.

Lemma entry_no_comma (k v : list ascii) :
  plain k -> plain v -> Forall (fun c => c <> ","%char) (k ++ "="%string ++ v).
Proof.
  intros Hk Hv. apply Forall_app. split; [by apply plain_no_comma|].
  apply Forall_cons. split; [done|by apply plain_no_comma].
Qed.

Lemma stripe_header_cons (k v : list ascii) (rest : list (list ascii * list ascii)) :
  rest <> [] ->
  stripe_header ((k, v) :: rest)
  = (k ++ "="%string ++ v) ++ ","%char :: stripe_header rest.
Proof.
  intros H. cbn [stripe_header]. destruct rest; [done|]. by rewrite <- !app_assoc.
Qed.

Lemma split_stripe_header (entries : list (list ascii * list ascii)) :
  entries <> [] ->
  Forall (fun kv => plain (fst kv) /\ plain (snd kv)) entries ->
  split_on "," (stripe_header entries)
  = map (fun kv => fst kv ++ "="%string ++ snd kv) entries.
Proof.
  induction entries as [|[k v] rest IH]; [done|]. intros _ Hp.
  apply Forall_cons in Hp as [[Hk Hv] Hp]. cbn [fst snd] in Hk, Hv.
  destruct rest as [|kv rest].
  - cbn [stripe_header map fst snd]. rewrite !app_nil_r.
    apply split_on_no_sep. by apply entry_no_comma.
  - rewrite stripe_header_cons by done.
    rewrite split_on_app by (by apply entry_no_comma).
    by rewrite IH.
Qed.

Lemma sig_parts_stripe_header (entries : list (list ascii * list ascii)) :
  entries <> [] ->
  Forall (fun kv => plain (fst kv) /\ plain (snd kv)) entries ->
  sig_parts (stripe_header entries) = map (fun kv => (fst kv, Some (snd kv))) entries.
Proof.
  intros Hne Hp. unfold sig_parts. rewrite split_stripe_header by done.
  rewrite map_map. apply map_ext_in. intros [k v] Hin. cbn [fst snd].
  rewrite Forall_forall in Hp. destruct (Hp (k, v)) as [Hk Hv]; [by apply list_elem_of_In|].
  cbn [fst snd] in Hk, Hv.
  change (k ++ "="%string ++ v) with (k ++ "="%char :: v).
  rewrite split_on_app by (by apply plain_no_equals).
  by rewrite split_on_no_sep by (by apply plain_no_equals).
Qed.

Lemma part_app (k : list ascii) (a b : list (list ascii * option (list ascii))) :
  part k (a ++ b)
  = fold_left (fun acc kv => if bytes_eqb (fst kv) k then snd kv else acc) b (part k a).
Proof. unfold part. apply fold_left_app. Qed.

Lemma fold_part_other (k : list ascii) (l : list (list ascii * option (list ascii)))
    (acc : option (list ascii)) :
  k ∉ map fst l ->
  fold_left (fun acc kv => if bytes_eqb (fst kv) k then snd kv else acc) l acc = acc.
Proof.
  revert acc. induction l as [|[k' v'] l IH]; intros acc Hn; [done|].
  cbn [map fst] in Hn. apply not_elem_of_cons in Hn as [Hne Hn]. cbn [fold_left fst snd].
  rewrite (proj2 (bytes_eqb_neq k' k)) by congruence. by apply IH.
Qed.

(** How the signature header is read: of entries [name=value] joined by
    commas, names and values being free of commas and equals signs, the
    last entry of a name gives its value, and a name that no entry has
    gives none. Of several [v1] entries only the last is compared. *)
Theorem stripe_header_parts (front back : list (list ascii * list ascii))
    (k v : list ascii) :
  Forall (fun kv => plain (fst kv) /\ plain (snd kv)) (front ++ (k, v) :: back) ->
  (k ∉ map fst back ->
   part k (sig_parts (stripe_header (front ++ (k, v) :: back))) = Some v)
  /\ forall k', k' ∉ map fst (front ++ (k, v) :: back) ->
       part k' (sig_parts (stripe_header (front ++ (k, v) :: back))) = None.
Proof.
  intros Hp.
  assert (Hne : front ++ (k, v) :: back <> []) by (by destruct front).
  rewrite sig_parts_stripe_header by done. split.
  - intros Hk. rewrite map_app. cbn [map fst snd]. rewrite part_app.
    cbn [fold_left fst snd]. rewrite bytes_eqb_refl. apply fold_part_other.
    by rewrite map_map.
  - intros k' Hk'. unfold part. apply fold_part_other. by rewrite map_map.
Qed.

Lemma stripe_header_parts_witness :
  part "v1"%string (sig_parts "t=12,v1=aa,v1=bb,v0=cc"%string)
  = Some ("bb"%string : list ascii).
Proof.
  refine (proj1 (stripe_header_parts
                   [("t"%string : list ascii, "12"%string : list ascii);
                    ("v1"%string : list ascii, "aa"%string : list ascii)]
                   [("v0"%string : list ascii, "cc"%string : list ascii)]
                   "v1"%string "bb"%string _) _).
  - repeat (apply Forall_cons; split;
            [split; repeat (apply Forall_cons; split; [split; discriminate|]);
             apply Forall_nil_2|]).
    apply Forall_nil_2.
  - cbn. rewrite elem_of_cons, elem_of_nil. intros H; intuition discriminate.
Defined.

(** ** The replay window of the webhook, in binary64 *)

(** ** Binary64: rounding never crosses a value of 53 bits *)

Lemma pow2_pos (k : Z) : 0 <= k -> 0 < 2 ^ k.
Proof. intros H. by apply Z.pow_pos_nonneg. Qed.

Lemma pow2_add (a b : Z) : 0 <= a -> 0 <= b -> 2 ^ (a + b) = 2 ^ a * 2 ^ b.
Proof. intros Ha Hb. by apply Z.pow_add_r. Qed.

Lemma pow2_le (a b : Z) : 0 <= a <= b -> 2 ^ a <= 2 ^ b.
Proof. intros H. apply Z.pow_le_mono_r; lia. Qed.

Lemma pow2_lt (a b : Z) : 0 <= a < b -> 2 ^ a < 2 ^ b.
Proof. intros H. apply Z.pow_lt_mono_r; lia. Qed.

(** The exponent and the significand that [round_pos] finds for a value
    below [2^52]. *)
Lemma round_pos_small (n d : Z) :
  0 < n -> 0 < d -> n < 2 ^ 52 * d ->
  exists e q m,
    -1074 <= e <= 0
    /\ q = n * 2 ^ (- e) / d
    /\ (-1074 < e -> 2 ^ 52 <= q)
    /\ q < 2 ^ 53
    /\ (m = q \/ (m = q + 1 /\ (n * 2 ^ (- e)) mod d <> 0))
    /\ Float.round_pos n d = Float.Finite m e.
Proof.
  intros Hn Hd Hsmall.
  pose proof (Z.log2_spec n Hn) as [Ha1 Ha2].
  pose proof (Z.log2_spec d Hd) as [Hb1 Hb2].
  pose proof (Z.log2_nonneg n) as Ha0. pose proof (Z.log2_nonneg d) as Hb0.
  set (a := Z.log2 n) in *. set (b := Z.log2 d) in *.
  rewrite <- Z.add_1_r in Ha2, Hb2.
  assert (Hab : a - b - 52 <= 0).
  { destruct (Z_le_gt_dec (a - b - 52) 0) as [|Hgt]; [done|]. exfalso.
    assert (H1 : 2 ^ (b + 1 + 52) <= 2 ^ a) by (apply pow2_le; lia).
    rewrite pow2_add in H1 by lia. nia. }
  unfold Float.round_pos. fold a b.
  set (e1 := Z.max (a - b - 52) (-1074)).
  assert (He1 : -1074 <= e1 <= 0 /\ a - b - 52 <= e1) by (unfold e1; lia).
  replace (Z.max 0 e1) with 0 by lia. replace (Z.max 0 (- e1)) with (- e1) by lia.
  rewrite Z.pow_0_r, Z.mul_1_r.
  set (q1 := n * 2 ^ (- e1) / d).
  pose proof (pow2_pos (- e1) ltac:(lia)) as Hp1.
  assert (Hq1u : q1 < 2 ^ 53).
  { apply Z.div_lt_upper_bound; [done|].
    assert (H1 : 2 ^ (a + 1) * 2 ^ (- e1) <= 2 ^ 53 * 2 ^ b).
    { rewrite <- !pow2_add by lia. apply pow2_le. lia. }
    nia. }
  assert (Hq1l : -1074 < e1 -> 2 ^ 51 <= q1).
  { intros He. apply Z.div_le_lower_bound; [done|].
    assert (He1' : e1 = a - b - 52) by (unfold e1 in *; lia).
    assert (H1 : 2 ^ (b + 1) * 2 ^ 51 = 2 ^ a * 2 ^ (- e1)).
    { rewrite <- !pow2_add by lia. f_equal. lia. }
    nia. }
  set (c := (q1 <? 2 ^ 52) && (-1074 <? e1)).
  set (e := if c then e1 - 1 else e1).
  assert (He : -1074 <= e <= 0) by (unfold e, c; destruct (q1 <? 2 ^ 52) eqn:?;
                                    destruct (-1074 <? e1) eqn:?; cbn; lia).
  replace (Z.max 0 e) with 0 by lia. replace (Z.max 0 (- e)) with (- e) by lia.
  rewrite Z.pow_0_r, Z.mul_1_r.
  set (q := n * 2 ^ (- e) / d). set (r := (n * 2 ^ (- e)) mod d).
  pose proof (pow2_pos (- e) ltac:(lia)) as Hp.
  assert (Hq : (-1074 < e -> 2 ^ 52 <= q) /\ q < 2 ^ 53).
  { unfold e, c in *. destruct (Z.ltb_spec q1 (2 ^ 52)) as [Hlt|Hge];
      destruct (Z.ltb_spec (-1074) e1) as [Hn1|Hn1]; cbn [andb] in *.
    - assert (H2 : 2 ^ (- (e1 - 1)) = 2 * 2 ^ (- e1)).
      { replace (- (e1 - 1)) with (1 + - e1) by lia. by rewrite pow2_add by lia. }
      subst q. rewrite H2.
      pose proof (Z.mul_div_le (n * 2 ^ (- e1)) d Hd) as H3.
      pose proof (Z.mul_succ_div_gt (n * 2 ^ (- e1)) d Hd) as H4. fold q1 in H3, H4.
      specialize (Hq1l Hn1). split.
      + intros _. apply Z.div_le_lower_bound; [done|]. nia.
      + apply Z.div_lt_upper_bound; [done|]. nia.
    - split; [lia|]. subst q. done.
    - split; [|done]. intros _. done.
    - split; [lia|done]. }
  exists e, q, (if (d <? 2 * r) || ((d =? 2 * r) && Z.odd q) then q + 1 else q).
  split; [done|]. split; [done|]. split; [apply Hq|]. split; [apply Hq|]. split.
  - destruct ((d <? 2 * r) || ((d =? 2 * r) && Z.odd q)) eqn:Hup; [|by left].
    right. split; [done|]. fold r. intros Hr. rewrite Hr in Hup.
    destruct (Z.ltb_spec d (2 * 0)); [lia|]. destruct (Z.eqb_spec d (2 * 0)); [lia|].
    done.
  - match goal with |- context [Float.Finite ?mm e] => set (m := mm) end.
    assert (Hm : 0 <= m <= 2 ^ 53).
    { unfold m. assert (0 <= q) by (apply Z.div_pos; nia).
      destruct (_ || _); lia. }
    assert (H2e : 0 <= 2 ^ e <= 1).
    { destruct (Z.eq_dec e 0) as [->|]; [cbn; lia|].
      rewrite Z.pow_neg_r by lia. lia. }
    destruct (Z.leb_spec (2 ^ 1024) (m * 2 ^ e)) as [Hov|]; [|done].
    exfalso. assert (2 ^ 53 < 2 ^ 1024) by (by apply pow2_lt). nia.
Qed.
(** A number that is at least, or at most, [a / 2^k]. *)
Lemma fraction_spec (m e : Z) :
  e <= 0 ->
  exists fn fd, Float.fraction m e = (fn, fd) /\ 0 < fd /\ fn * 2 ^ (- e) = m * fd.
Proof.
  intros He. unfold Float.fraction. destruct (Z.leb_spec 0 e).
  - assert (e = 0) as -> by lia. exists (m * 2 ^ 0), 1. cbn. split; [done|]. lia.
  - exists m, (2 ^ (- e)). split; [done|]. split; [apply pow2_pos; lia|done].
Qed.

Lemma round_pos_lower (n d a k : Z) :
  0 < n -> 0 < d -> n < 2 ^ 52 * d ->
  0 <= a < 2 ^ 53 -> 0 <= k <= 1074 ->
  a * d <= n * 2 ^ k ->
  exists m e, Float.round_pos n d = Float.Finite m e /\ 0 <= m /\
    a * snd (Float.fraction m e) <= fst (Float.fraction m e) * 2 ^ k.
Proof.
  intros Hn Hd Hsmall Ha Hk Hle.
  destruct (round_pos_small n d Hn Hd Hsmall) as (e & q & m & He & Hq & Hnorm & Hq53 & Hm & ->).
  exists m, e. split; [done|].
  pose proof (pow2_pos (- e) ltac:(lia)) as Hpe.
  pose proof (pow2_pos k ltac:(lia)) as Hpk.
  assert (Hq0 : 0 <= q) by (subst q; apply Z.div_pos; nia).
  assert (Hqm : q <= m) by (destruct Hm as [->|[-> _]]; lia).
  split; [lia|].
  destruct (fraction_spec m e ltac:(lia)) as (fn & fd & -> & Hfd & Hf). cbn [fst snd].
  assert (Hcore : a * 2 ^ (- e) <= m * 2 ^ k).
  { destruct (Z_le_gt_dec k (- e)) as [Hke|Hke].
    - assert (Hsplit : 2 ^ (- e) = 2 ^ (- e - k) * 2 ^ k).
      { rewrite <- pow2_add by lia. f_equal. lia. }
      pose proof (pow2_pos (- e - k) ltac:(lia)) as Hpd.
      assert (Hq' : a * 2 ^ (- e - k) <= q).
      { subst q. apply Z.div_le_lower_bound; [done|]. rewrite Hsplit. nia. }
      rewrite Hsplit. nia.
    - assert (Hn' : 2 ^ 52 <= q) by (apply Hnorm; lia).
      assert (Hp : 2 * 2 ^ (- e) <= 2 ^ k).
      { change 2 with (2 ^ 1) at 1. rewrite <- pow2_add by lia. apply pow2_le. lia. }
      nia. }
  nia.
Qed.

Lemma round_pos_upper (n d a k : Z) :
  0 < n -> 0 < d -> n < 2 ^ 52 * d ->
  0 <= a < 2 ^ 53 -> 0 <= k <= 1074 ->
  n * 2 ^ k <= a * d ->
  exists m e, Float.round_pos n d = Float.Finite m e /\ 0 <= m /\
    fst (Float.fraction m e) * 2 ^ k <= a * snd (Float.fraction m e).
Proof.
  intros Hn Hd Hsmall Ha Hk Hle.
  destruct (round_pos_small n d Hn Hd Hsmall) as (e & q & m & He & Hq & Hnorm & Hq53 & Hm & ->).
  exists m, e. split; [done|].
  pose proof (pow2_pos (- e) ltac:(lia)) as Hpe.
  pose proof (pow2_pos k ltac:(lia)) as Hpk.
  assert (Hq0 : 0 <= q) by (subst q; apply Z.div_pos; nia).
  split; [destruct Hm as [->|[-> _]]; lia|].
  destruct (fraction_spec m e ltac:(lia)) as (fn & fd & -> & Hfd & Hf). cbn [fst snd].
  pose proof (Z.mul_div_le (n * 2 ^ (- e)) d Hd) as Hdiv1.
  pose proof (Z.mul_succ_div_gt (n * 2 ^ (- e)) d Hd) as Hdiv2.
  rewrite <- Hq in Hdiv1, Hdiv2.
  assert (Hcore : m * 2 ^ k <= a * 2 ^ (- e)).
  { destruct (Z_le_gt_dec k (- e)) as [Hke|Hke].
    - assert (Hsplit : 2 ^ (- e) = 2 ^ (- e - k) * 2 ^ k).
      { rewrite <- pow2_add by lia. f_equal. lia. }
      pose proof (pow2_pos (- e - k) ltac:(lia)) as Hpd.
      assert (Hnum : n * 2 ^ (- e) <= a * 2 ^ (- e - k) * d).
      { rewrite Hsplit. nia. }
      assert (Hm' : m <= a * 2 ^ (- e - k)).
      { destruct Hm as [->|[-> Hr]].
        - nia.
        - destruct (Z_lt_le_dec q (a * 2 ^ (- e - k))) as [|Hge]; [lia|]. exfalso.
          apply Hr. assert (Heq : n * 2 ^ (- e) = q * d) by nia.
          rewrite Heq. apply Z.mod_mul. lia. }
      rewrite Hsplit. nia.
    - assert (Hn' : 2 ^ 52 <= q) by (apply Hnorm; lia).
      assert (Hp : 2 * 2 ^ (- e) <= 2 ^ k).
      { change 2 with (2 ^ 1) at 1. rewrite <- pow2_add by lia. apply pow2_le. lia. }
      exfalso.
      assert (H1 : 2 ^ 52 * d * 2 ^ k <= a * d * 2 ^ (- e)) by nia.
      assert (H2 : 2 ^ 52 * 2 ^ k <= a * 2 ^ (- e)) by nia.
      nia. }
  nia.
Qed.
Lemma fraction_pos (m e : Z) : 0 < snd (Float.fraction m e).
Proof.
  unfold Float.fraction. destruct (Z.leb_spec 0 e); cbn [snd]; [lia|].
  apply pow2_pos. lia.
Qed.

Lemma round_pos_at_least (n d a k : Z) :
  0 < n -> 0 < d -> n < 2 ^ 52 * d -> 0 <= a < 2 ^ 53 -> 0 <= k <= 1074 ->
  a * d <= n * 2 ^ k -> at_least (Float.round_pos n d) a k.
Proof.
  intros Hn Hd Hs Ha Hk Hle.
  destruct (round_pos_lower n d a k Hn Hd Hs Ha Hk Hle) as (m & e & -> & _ & H).
  by exists m, e.
Qed.

Lemma round_pos_at_most (n d a k : Z) :
  0 < n -> 0 < d -> n < 2 ^ 52 * d -> 0 <= a < 2 ^ 53 -> 0 <= k <= 1074 ->
  n * 2 ^ k <= a * d -> at_most (Float.round_pos n d) a k.
Proof.
  intros Hn Hd Hs Ha Hk Hle.
  destruct (round_pos_upper n d a k Hn Hd Hs Ha Hk Hle) as (m & e & -> & _ & H).
  by exists m, e.
Qed.

(** A whole number below [2^52] is a value of its own. *)
Lemma round_whole (t : Z) :
  0 <= t < 2 ^ 52 ->
  exists m e, Float.round t 1 = Float.Finite m e /\ 0 <= m /\
    fst (Float.fraction m e) = t * snd (Float.fraction m e).
Proof.
  intros Ht. unfold Float.round. destruct (Z.eqb_spec t 0) as [->|Hne].
  { exists 0, 0. by cbn. }
  destruct (Z.ltb_spec t 0); [lia|].
  destruct (round_pos_lower t 1 t 0) as (m & e & Hr & Hm & Hlo); try lia.
  destruct (round_pos_upper t 1 t 0) as (m' & e' & Hr' & _ & Hup); try lia.
  rewrite Hr in Hr'. injection Hr' as <- <-.
  exists m, e. split; [done|]. split; [done|]. cbn in Hlo, Hup. lia.
Qed.

(** [Date.now() / 1000] between two values of 53 bits. *)
Lemma seconds_bounds (clock a k : Z) :
  0 <= clock < 2 ^ 52 -> 0 <= a < 2 ^ 53 -> 0 <= k <= 1074 ->
  (a * 1000 <= clock * 2 ^ k -> at_least (Float.div (Float.of_Z clock) 1000) a k)
  /\ (clock * 2 ^ k <= a * 1000 -> at_most (Float.div (Float.of_Z clock) 1000) a k).
Proof.
  intros Hc Ha Hk. pose proof (pow2_pos k ltac:(lia)) as Hpk.
  destruct (round_whole clock Hc) as (m & e & Hr & Hm & Hf).
  unfold Float.of_Z. rewrite Hr. unfold Float.div.
  pose proof (fraction_pos m e) as Hfd.
  destruct (Float.fraction m e) as [fn fd]. cbn [fst snd] in *. subst fn.
  unfold Float.round. destruct (Z.eqb_spec (clock * fd) 0) as [H0|Hne].
  { assert (clock = 0) as -> by nia. split; intros Hb.
    - exists 0, 0. split; [done|]. cbn. lia.
    - exists 0, 0. split; [done|]. cbn. lia. }
  destruct (Z.ltb_spec (clock * fd) 0); [nia|].
  assert (H52 : 2 ^ 52 = 4503599627370496) by reflexivity.
  split; intros Hb.
  - apply round_pos_at_least; try lia; nia.
  - apply round_pos_at_most; try lia; nia.
Qed.

Lemma strip_any_digit (c : ascii) (s : list ascii) :
  Json.is_digit c = true ->
  Float.strip_any Float.white_space (c :: s) = None
  /\ Float.strip_any (map (@rev ascii) Float.white_space) (c :: s) = None.
Proof.
  unfold Json.is_digit. revert s.
  ascii_cases c; intros s H; first [discriminate H | split; reflexivity].
Qed.

Lemma trim_start_digits (pats : list (list ascii)) (t : list ascii) :
  (forall c s, Json.is_digit c = true -> Float.strip_any pats (c :: s) = None) ->
  Forall (fun c => Json.is_digit c = true) t ->
  Float.trim_start (length t) pats t = t.
Proof.
  intros Hp Ht. destruct Ht as [|c t Hc Ht]; [reflexivity|].
  cbn [length Float.trim_start]. rewrite (Hp c t Hc). reflexivity.
Qed.

Lemma trim_digits (ds : list ascii) :
  Forall (fun c => Json.is_digit c = true) ds -> Float.trim ds = ds.
Proof.
  intros Hds. unfold Float.trim.
  rewrite (trim_start_digits Float.white_space ds).
  - rewrite <- (length_rev ds). rewrite trim_start_digits.
    + apply rev_involutive.
    + intros c s Hc. exact (proj2 (strip_any_digit c s Hc)).
    + apply Forall_forall. intros x Hx. rewrite Forall_forall in Hds. apply Hds.
      apply list_elem_of_In. apply in_rev. apply list_elem_of_In. exact Hx.
  - intros c s Hc. exact (proj1 (strip_any_digit c s Hc)).
  - exact Hds.
Qed.

Lemma Number_digits (t : Z) : 0 <= t -> Float.Number (Json.digits t) = Float.round t 1.
Proof.
  intros Ht. unfold Float.Number. rewrite trim_digits by apply digits_all.
  destruct (digits_head t) as (c & ds & Hd & Hc & _).
  pose proof (digits_all t) as Hall. pose proof (undigits_digits t Ht) as Hun.
  rewrite Hd in *.
  assert (Hnd : Float.non_decimal (c :: ds) = None).
  { unfold Float.non_decimal. destruct ds as [|x [|y ds]]; [done..|].
    destruct (code c =? 48); [|done].
    apply Forall_cons in Hall as [_ Hall]. apply Forall_cons in Hall as [Hx _].
    revert Hx. unfold Json.is_digit. clear.
    intros Hx. repeat match goal with
                      | |- context [code x =? ?v] =>
                          destruct (Z.eqb_spec (code x) v); [lia|]
                      end. done. }
  rewrite Hnd.
  assert (Hsign : match c :: ds with
                  | "-"%char :: r => (true, r)
                  | "+"%char :: r => (false, r)
                  | _ => (false, c :: ds)
                  end = (false, c :: ds)).
  { revert Hc. clear. unfold Json.is_digit.
    ascii_cases c; intros H; first [discriminate H | reflexivity]. }
  rewrite Hsign. unfold Float.unsigned_decimal.
  assert (Hinf : bytes_eqb (c :: ds) "Infinity"%string = false).
  { apply bytes_eqb_neq. intros H. injection H as -> _. discriminate Hc. }
  rewrite Hinf.
  pose proof (span_digits_app (c :: ds) [] Hall I) as Hspan. rewrite app_nil_r in Hspan.
  rewrite Hspan. cbn [app]. rewrite app_nil_r. cbn [Float.exponent length].
  rewrite Hun. cbn. by rewrite Z.mul_1_r.
Qed.
Lemma at_least_finite (m e a k : Z) :
  at_least (Float.Finite m e) a k ->
  a * snd (Float.fraction m e) <= fst (Float.fraction m e) * 2 ^ k.
Proof. intros (m' & e' & Heq & H). by injection Heq as <- <-. Qed.

Lemma at_most_finite (m e a k : Z) :
  at_most (Float.Finite m e) a k ->
  fst (Float.fraction m e) * 2 ^ k <= a * snd (Float.fraction m e).
Proof. intros (m' & e' & Heq & H). by injection Heq as <- <-. Qed.

(** The absolute value of a rounded fraction is the rounding of its
    absolute value. *)
Lemma abs_round (n d : Z) :
  0 < d -> Z.abs n < 2 ^ 52 * d ->
  Float.abs (Float.round n d) = Float.round (Z.abs n) d.
Proof.
  intros Hd Hs. unfold Float.round.
  destruct (Z.eqb_spec n 0) as [->|Hne]; [reflexivity|].
  destruct (Z.eqb_spec (Z.abs n) 0); [lia|].
  destruct (Z.ltb_spec (Z.abs n) 0); [lia|].
  destruct (Z.ltb_spec n 0).
  - replace (Z.abs n) with (- n) in * by lia.
    destruct (round_pos_lower (- n) d 0 0) as (m & e & -> & Hm & _); try lia.
    cbn. f_equal. lia.
  - replace (Z.abs n) with n in * by lia.
    destruct (round_pos_lower n d 0 0) as (m & e & -> & Hm & _); try lia.
    cbn. f_equal. lia.
Qed.

(** The test of the replay window compares the rounding of one fraction
    with 300: the distance between [Date.now() / 1000], of fraction
    [n / d], and the timestamp. *)
Lemma stale_as_round (clock ts : Z) :
  0 <= clock < 2 ^ 52 -> 0 <= ts < 2 ^ 52 ->
  exists n d d',
    0 < d /\ 0 < d' /\ 0 <= n /\ n <= 2 ^ 43 * d
    /\ (forall a k, 0 <= a < 2 ^ 53 -> 0 <= k <= 1074 ->
          (a * 1000 <= clock * 2 ^ k -> a * d <= n * 2 ^ k)
          /\ (clock * 2 ^ k <= a * 1000 -> n * 2 ^ k <= a * d))
    /\ stale clock (Json.digits ts)
       = Float.gt (Float.round (Z.abs (n - ts * d) * d') (d * d')) 300.
Proof.
  intros Hc Ht.
  assert (H52 : 2 ^ 52 = 4503599627370496) by reflexivity.
  assert (H43 : 2 ^ 43 = 8796093022208) by reflexivity.
  assert (H53 : 2 ^ 53 = 9007199254740992) by reflexivity.
  destruct (proj1 (seconds_bounds clock 0 0 Hc ltac:(lia) ltac:(lia)) ltac:(lia))
    as (m & e & HX & _).
  destruct (round_whole ts Ht) as (m' & e' & HY & _ & Hf').
  pose proof (fraction_pos m e) as Hd. pose proof (fraction_pos m' e') as Hd'.
  assert (Hb : forall a k, 0 <= a < 2 ^ 53 -> 0 <= k <= 1074 ->
          (a * 1000 <= clock * 2 ^ k
           -> a * snd (Float.fraction m e) <= fst (Float.fraction m e) * 2 ^ k)
          /\ (clock * 2 ^ k <= a * 1000
              -> fst (Float.fraction m e) * 2 ^ k <= a * snd (Float.fraction m e))).
  { intros a k Ha Hk. destruct (seconds_bounds clock a k Hc Ha Hk) as [Hlo Hup].
    rewrite HX in Hlo, Hup. split; intros H.
    - by apply at_least_finite, Hlo.
    - by apply at_most_finite, Hup. }
  pose proof (proj1 (Hb 0 0 ltac:(lia) ltac:(lia)) ltac:(lia)) as Hn0.
  pose proof (proj2 (Hb (2 ^ 43) 0 ltac:(lia) ltac:(lia)) ltac:(lia)) as Hn43.
  unfold stale. rewrite Number_digits by lia. rewrite HX, HY. unfold Float.sub.
  destruct (Float.fraction m e) as [n d]. destruct (Float.fraction m' e') as [n' d'].
  cbn [fst snd] in *. subst n'.
  exists n, d, d'. split; [done|]. split; [done|]. split; [lia|]. split; [lia|].
  split; [exact Hb|].
  rewrite abs_round by nia. f_equal. f_equal.
  replace (n * d' - ts * d' * d) with ((n - ts * d) * d') by ring.
  rewrite Z.abs_mul. f_equal. lia.
Qed.
Lemma gt_round_above (n d : Z) :
  0 < d -> 0 <= n < 2 ^ 52 * d -> 307201 * d <= n * 1024 ->
  Float.gt (Float.round n d) 300 = true.
Proof.
  intros Hd Hn Hlo. unfold Float.round.
  destruct (Z.eqb_spec n 0); [lia|]. destruct (Z.ltb_spec n 0); [lia|].
  destruct (round_pos_lower n d 307201 10) as (m & e & -> & _ & Hfr); [lia..|].
  unfold Float.gt. pose proof (fraction_pos m e) as Hfd.
  destruct (Float.fraction m e) as [fn fd]. cbn [fst snd] in *.
  apply Z.ltb_lt. change (2 ^ 10) with 1024 in Hfr. lia.
Qed.

Lemma gt_round_within (n d : Z) :
  0 < d -> 0 <= n <= 300 * d -> Float.gt (Float.round n d) 300 = false.
Proof.
  intros Hd Hn. unfold Float.round.
  destruct (Z.eqb_spec n 0); [reflexivity|]. destruct (Z.ltb_spec n 0); [lia|].
  assert (H52 : 2 ^ 52 = 4503599627370496) by reflexivity.
  destruct (round_pos_upper n d 300 0) as (m & e & -> & _ & Hfr); [lia..|].
  unfold Float.gt. pose proof (fraction_pos m e) as Hfd.
  destruct (Float.fraction m e) as [fn fd]. cbn [fst snd] in *.
  apply Z.ltb_ge. change (2 ^ 0) with 1 in Hfr. lia.
Qed.

(** X22. The replay window of the webhook is exact to the millisecond. For
    a clock [Date.now()] below [2^52] and a timestamp written in decimal
    digits, of a value below [2^41], the handler finds the signature too
    old exactly when the clock and the timestamp, taken as milliseconds,
    are more than 300000 apart, on either side: the division by 1000 and
    the subtraction, both rounded to binary64, move no instant across the
    bound. *)
Theorem stale_window (clock ts : Z) :
  0 <= clock < 2 ^ 52 -> 0 <= ts < 2 ^ 41 ->
  stale clock (Json.digits ts) = true <-> 300000 < Z.abs (clock - 1000 * ts).
Proof.
  intros Hc Ht.
  assert (H52 : 2 ^ 52 = 4503599627370496) by reflexivity.
  assert (H43 : 2 ^ 43 = 8796093022208) by reflexivity.
  assert (H41 : 2 ^ 41 = 2199023255552) by reflexivity.
  assert (H53 : 2 ^ 53 = 9007199254740992) by reflexivity.
  assert (H10 : 2 ^ 10 = 1024) by reflexivity.
  assert (H0 : 2 ^ 0 = 1) by reflexivity.
  destruct (stale_as_round clock ts Hc ltac:(lia))
    as (n & d & d' & Hd & Hd' & Hn0 & Hn43 & Hb & ->).
  assert (Htd : 0 <= ts * d <= 2199023255552 * d).
  { split; [apply Z.mul_nonneg_nonneg; lia|]. apply Z.mul_le_mono_nonneg_r; lia. }
  assert (Hscale : forall a b : Z, a * d <= b -> a * (d * d') <= b * d').
  { intros a b Hab. replace (a * (d * d')) with (a * d * d') by ring.
    apply Z.mul_le_mono_nonneg_r; lia. }
  assert (Hscale' : forall a b : Z, b <= a * d -> b * d' <= a * (d * d')).
  { intros a b Hab. replace (a * (d * d')) with (a * d * d') by ring.
    apply Z.mul_le_mono_nonneg_r; lia. }
  assert (HD : 0 < d * d') by (apply Z.mul_pos_pos; lia).
  set (g := n - ts * d) in *.
  assert (Hg : Z.abs g <= 8796093022208 * d) by (subst g; lia).
  assert (Hg0 : 0 <= Z.abs g * d') by (apply Z.mul_nonneg_nonneg; lia).
  destruct (Z_lt_le_dec 300000 (Z.abs (clock - 1000 * ts))) as [Hfar|Hnear].
  - split; [done|]. intros _.
    assert (Hlo : 307201 * d <= Z.abs g * 1024).
    { destruct (Z_lt_le_dec (1000 * ts) clock) as [Hlate|Hearly].
      - pose proof (proj1 (Hb ((ts + 300) * 1024 + 1) 10 ltac:(lia) ltac:(lia))
                      ltac:(lia)) as Hx.
        rewrite H10 in Hx. subst g. lia.
      - pose proof (proj2 (Hb ((ts - 300) * 1024 - 1) 10 ltac:(lia) ltac:(lia))
                      ltac:(lia)) as Hx.
        rewrite H10 in Hx. subst g. lia. }
    apply gt_round_above; [done| |].
    + split; [done|]. pose proof (Hscale' 8796093022208 (Z.abs g) Hg).
      lia.
    + pose proof (Hscale 307201 (Z.abs g * 1024) Hlo). lia.
  - assert (Hin : Z.abs g <= 300 * d).
    { pose proof (proj2 (Hb (ts + 300) 0 ltac:(lia) ltac:(lia)) ltac:(lia)) as Hup.
      rewrite H0 in Hup.
      destruct (Z_lt_le_dec ts 300) as [Hsmall|Hbig].
      - assert (ts * d <= 300 * d) by (apply Z.mul_le_mono_nonneg_r; lia).
        subst g. lia.
      - pose proof (proj1 (Hb (ts - 300) 0 ltac:(lia) ltac:(lia)) ltac:(lia)) as Hlo.
        rewrite H0 in Hlo. subst g. lia. }
    rewrite gt_round_within.
    + split; [done|lia].
    + done.
    + split; [done|]. pose proof (Hscale' 300 (Z.abs g) Hin). lia.
Qed.

Lemma stale_window_witness :
  stale 1700000300001 (Json.digits 1700000000) = true
  /\ stale 1700000300000 (Json.digits 1700000000) = false.
Proof.
  assert (Hc : 0 <= 1700000300001 < 2 ^ 52) by (change (2 ^ 52) with 4503599627370496; lia).
  assert (Hc' : 0 <= 1700000300000 < 2 ^ 52) by (change (2 ^ 52) with 4503599627370496; lia).
  assert (Ht : 0 <= 1700000000 < 2 ^ 41) by (change (2 ^ 41) with 2199023255552; lia).
  split.
  - exact (proj2 (stale_window 1700000300001 1700000000 Hc Ht) ltac:(lia)).
  - destruct (stale 1700000300000 (Json.digits 1700000000)) eqn:E; [|reflexivity].
    pose proof (proj1 (stale_window 1700000300000 1700000000 Hc' Ht) E). lia.
Defined.
